(** * Verification of the real-time subscription client (RealtimeResource)

    A shallow embedding of the WebSocket client of the SDK: the instance
    fields of [RealtimeResource], the host facilities it relies on (timers,
    promises, sockets, the microtask checkpoint) as explicit state, and every
    method as a function on that state.

    Modelling conventions.
    - JavaScript [Set]s keep insertion order and [Array.from] reads them in
      that order, so they are lists without duplicates ([set_add],
      [set_delete]).
    - The [Map] of pending confirmations is a [gmap] keyed by the string the
      source builds in [getSubscriptionKey].
    - Millisecond values are integers ([Z]); the attempt counter is a [nat].
    - Timers, promises, sockets and in-flight [connect()] executors live in
      append-only tables and are named by their index, so a fresh handle is
      the length of its table.
    - Listener callbacks are opaque: calling one appends an entry to [log];
      a listener that throws is caught by the source and changes nothing.
    - [ws.send] and [ws.close] are recorded on the socket; the transport's
      own events come back as inputs of [step]. *)

From Stdlib Require Import ZArith String Ascii List Bool Lia.
From stdpp Require Import base option list strings gmap.
Import ListNotations.

Local Open Scope string_scope.
Local Open Scope list_scope.
Local Open Scope Z_scope.

(** ** Constants of the module *)

Definition DEFAULT_REALTIME_URL : string := "wss://wss.veroai.dev/ws".
Definition DEFAULT_RECONNECT_INTERVAL : Z := 1000.
Definition MAX_RECONNECT_INTERVAL : Z := 30000.
Definition DEFAULT_MAX_RECONNECT_ATTEMPTS : Z := 10.
Definition DEFAULT_HEARTBEAT_INTERVAL : Z := 30000.
Definition SUBSCRIPTION_TIMEOUT : Z := 10000.

(** ** Data model *)

Inductive ConnectionState := disconnected | connecting | connected | reconnecting.

#[global] Instance ConnectionState_eq_dec : EqDecision ConnectionState.
Proof. solve_decision. Defined.

Inductive CommandType := Subscribe | Unsubscribe.
Inductive SubscriptionType := event_type | channel | all.

#[global] Instance CommandType_eq_dec : EqDecision CommandType.
Proof. solve_decision. Defined.
#[global] Instance SubscriptionType_eq_dec : EqDecision SubscriptionType.
Proof. solve_decision. Defined.

Definition CommandType_str (t : CommandType) : string :=
  match t with Subscribe => "subscribe" | Unsubscribe => "unsubscribe" end.

Definition SubscriptionType_str (t : SubscriptionType) : string :=
  match t with event_type => "event_type" | channel => "channel" | all => "all" end.

Record SubscriptionCommand := mkCommand {
  cmd_type : CommandType;
  cmd_subscriptionType : SubscriptionType;
  cmd_eventTypes : option (list string);
  cmd_channels : option (list string)
}.

#[global] Instance SubscriptionCommand_eq_dec : EqDecision SubscriptionCommand.
Proof. solve_decision. Defined.

Inductive ConfirmationType := subscription_confirmed | subscription_error.

(** An inbound confirmation as parsed from JSON: [action] and
    [subscriptionType] are whatever strings the server put there. *)
Record SubscriptionConfirmation := mkConfirmation {
  conf_type : ConfirmationType;
  conf_action : string;
  conf_subscriptionType : string;
  conf_items : list string;
  conf_error : option string
}.

(** A thrown value, as far as the client looks at it: [String(e)]. *)
Record JsError := mkError { err_name : string; err_message : string }.

#[global] Instance JsError_eq_dec : EqDecision JsError.
Proof. solve_decision. Defined.

Definition Error (msg : string) : JsError := mkError "Error" msg.

Definition JsError_toString (e : JsError) : string :=
  if decide (err_message e = "") then err_name e
  else if decide (err_name e = "") then err_message e
  else err_name e +:+ ": " +:+ err_message e.

(** The [data] object of an event frame; an absent field is [None]. *)
Record EventData := mkEventData {
  d_id : option string;
  d_tenant_id : option string;       d_tenantId : option string;
  d_channel_id : option string;      d_channelId : option string;
  d_canonical_type : option string;  d_canonicalType : option string;
  d_event_type : option string;      d_eventType : option string;
  d_direction : option string;
  d_payload : option string;
  d_enrichment : option string;
  d_timestamp : option string;
  d_processed_at : option string;    d_processedAt : option string
}.

Record RealtimeEvent := mkEvent {
  ev_id : option string;
  ev_tenantId : option string;
  ev_channelId : option string;
  ev_canonicalType : option string;
  ev_eventType : option string;
  ev_direction : option string;
  ev_payload : option string;
  ev_enrichment : option string;
  ev_timestamp : option string;
  ev_processedAt : option string
}.

(** What [JSON.parse] and the dispatch on [message.type] can see. *)
Inductive Frame :=
| FrameUnparsable (e : JsError)
| FrameConnected
| FrameConfirmation (c : SubscriptionConfirmation)
| FrameEvent (data : option EventData)
| FrameOther.

Record RealtimeConfig := mkRealtimeConfig {
  opt_url : option string;
  opt_autoReconnect : option bool;
  opt_reconnectInterval : option Z;
  opt_maxReconnectAttempts : option Z;
  opt_heartbeatInterval : option Z
}.

Record Config := mkConfig {
  url : string;
  autoReconnect : bool;
  reconnectInterval : Z;
  maxReconnectAttempts : Z;
  cfg_heartbeatInterval : Z
}.

Record ActiveSubscriptions := mkActive {
  eventTypes : list string;
  channels : list string;
  subscribedToAll : bool
}.

Inductive PromiseState :=
| Pending
| Fulfilled (v : option SubscriptionConfirmation)
| Rejected (e : JsError).

(** The closures stored in [pendingSubscriptions]: both settle promise
    [pend_promise] after clearing timer [pend_timeout]. *)
Record PendingEntry := mkPending { pend_promise : nat; pend_timeout : nat }.

Inductive TimerAction :=
| ReconnectTimer
| SubscriptionTimer (key : string) (promise : nat)
| HeartbeatTimer.

Record Timer := mkTimer {
  timer_due : Z;
  timer_every : option Z;
  timer_action : TimerAction;
  timer_armed : bool
}.

Record Socket := mkSocket {
  sock_url : string;
  sock_token : string;
  sock_connect : nat;
  sock_ping : bool;
  sock_sent : list SubscriptionCommand;
  sock_pings : nat;
  sock_closed : option (Z * string)
}.

Inductive ConnectStage :=
| AwaitToken
| AwaitWebSocket (token : string)
| Finished.

Record ConnectTask := mkTask { task_promise : nat; task_stage : ConnectStage }.

(** Where [resubscribe()] resumes once the promise it awaits settles. *)
Inductive Resume := ResumeChannels | ResumeEventTypes | ResumeEnd.

Record Awaiting := mkAwaiting { aw_promise : nat; aw_resume : Resume }.

Inductive Effect :=
| StateHandlerCall (h : nat) (s : ConnectionState)
| ErrorHandlerCall (h : nat) (e : JsError)
| EventHandlerCall (h : nat) (ev : RealtimeEvent).

(** The host: is there a [window.WebSocket], and can [ws] be imported. *)
Record Host := mkHost { window_WebSocket : bool; ws_package : bool }.

Record World := mkWorld {
  config : Config;
  ws : option nat;
  state : ConnectionState;
  reconnectAttempts : nat;
  reconnectTimeout : option nat;
  heartbeatInterval : option nat;
  eventHandlers : list nat;
  stateHandlers : list nat;
  errorHandlers : list nat;
  activeSubscriptions : ActiveSubscriptions;
  pendingSubscriptions : gmap string PendingEntry;
  host : Host;
  clock : Z;
  timers : list Timer;
  promises : list PromiseState;
  sockets : list Socket;
  connects : list ConnectTask;
  awaiting : list Awaiting;
  log : list Effect
}.


Definition with_config (x : Config) (w : World) : World :=
  mkWorld x (ws w) (state w) (reconnectAttempts w) (reconnectTimeout w)
    (heartbeatInterval w) (eventHandlers w) (stateHandlers w) (errorHandlers w)
    (activeSubscriptions w) (pendingSubscriptions w) (host w) (clock w) (timers w) (promises w) (sockets w) (connects w) (awaiting w) (log w).

Definition with_ws (x : option nat) (w : World) : World :=
  mkWorld (config w) x (state w) (reconnectAttempts w) (reconnectTimeout w)
    (heartbeatInterval w) (eventHandlers w) (stateHandlers w) (errorHandlers w)
    (activeSubscriptions w) (pendingSubscriptions w) (host w) (clock w) (timers w) (promises w) (sockets w) (connects w) (awaiting w) (log w).

Definition with_state (x : ConnectionState) (w : World) : World :=
  mkWorld (config w) (ws w) x (reconnectAttempts w) (reconnectTimeout w)
    (heartbeatInterval w) (eventHandlers w) (stateHandlers w) (errorHandlers w)
    (activeSubscriptions w) (pendingSubscriptions w) (host w) (clock w) (timers w) (promises w) (sockets w) (connects w) (awaiting w) (log w).

Definition with_reconnectAttempts (x : nat) (w : World) : World :=
  mkWorld (config w) (ws w) (state w) x (reconnectTimeout w)
    (heartbeatInterval w) (eventHandlers w) (stateHandlers w) (errorHandlers w)
    (activeSubscriptions w) (pendingSubscriptions w) (host w) (clock w) (timers w) (promises w) (sockets w) (connects w) (awaiting w) (log w).

Definition with_reconnectTimeout (x : option nat) (w : World) : World :=
  mkWorld (config w) (ws w) (state w) (reconnectAttempts w) x
    (heartbeatInterval w) (eventHandlers w) (stateHandlers w) (errorHandlers w)
    (activeSubscriptions w) (pendingSubscriptions w) (host w) (clock w) (timers w) (promises w) (sockets w) (connects w) (awaiting w) (log w).

Definition with_heartbeatInterval (x : option nat) (w : World) : World :=
  mkWorld (config w) (ws w) (state w) (reconnectAttempts w) (reconnectTimeout
    w) x (eventHandlers w) (stateHandlers w) (errorHandlers w)
    (activeSubscriptions w) (pendingSubscriptions w) (host w) (clock w) (timers w) (promises w) (sockets w) (connects w) (awaiting w) (log w).

Definition with_eventHandlers (x : list nat) (w : World) : World :=
  mkWorld (config w) (ws w) (state w) (reconnectAttempts w) (reconnectTimeout
    w) (heartbeatInterval w) x (stateHandlers w) (errorHandlers w)
    (activeSubscriptions w) (pendingSubscriptions w) (host w) (clock w) (timers w) (promises w) (sockets w) (connects w) (awaiting w) (log w).

Definition with_stateHandlers (x : list nat) (w : World) : World :=
  mkWorld (config w) (ws w) (state w) (reconnectAttempts w) (reconnectTimeout
    w) (heartbeatInterval w) (eventHandlers w) x (errorHandlers w)
    (activeSubscriptions w) (pendingSubscriptions w) (host w) (clock w) (timers w) (promises w) (sockets w) (connects w) (awaiting w) (log w).

Definition with_errorHandlers (x : list nat) (w : World) : World :=
  mkWorld (config w) (ws w) (state w) (reconnectAttempts w) (reconnectTimeout
    w) (heartbeatInterval w) (eventHandlers w) (stateHandlers w) x
    (activeSubscriptions w) (pendingSubscriptions w) (host w) (clock w) (timers w) (promises w) (sockets w) (connects w) (awaiting w) (log w).

Definition with_activeSubscriptions (x : ActiveSubscriptions) (w : World) : World :=
  mkWorld (config w) (ws w) (state w) (reconnectAttempts w) (reconnectTimeout
    w) (heartbeatInterval w) (eventHandlers w) (stateHandlers w) (errorHandlers
    w) x (pendingSubscriptions w) (host w) (clock w) (timers w) (promises w)
    (sockets w) (connects w) (awaiting w) (log w).

Definition with_pendingSubscriptions (x : gmap string PendingEntry) (w : World) : World :=
  mkWorld (config w) (ws w) (state w) (reconnectAttempts w) (reconnectTimeout
    w) (heartbeatInterval w) (eventHandlers w) (stateHandlers w) (errorHandlers
    w) (activeSubscriptions w) x (host w) (clock w) (timers w) (promises w)
    (sockets w) (connects w) (awaiting w) (log w).

Definition with_host (x : Host) (w : World) : World :=
  mkWorld (config w) (ws w) (state w) (reconnectAttempts w) (reconnectTimeout
    w) (heartbeatInterval w) (eventHandlers w) (stateHandlers w) (errorHandlers
    w) (activeSubscriptions w) (pendingSubscriptions w) x (clock w) (timers w)
    (promises w) (sockets w) (connects w) (awaiting w) (log w).

Definition with_clock (x : Z) (w : World) : World :=
  mkWorld (config w) (ws w) (state w) (reconnectAttempts w) (reconnectTimeout
    w) (heartbeatInterval w) (eventHandlers w) (stateHandlers w) (errorHandlers
    w) (activeSubscriptions w) (pendingSubscriptions w) (host w) x (timers w)
    (promises w) (sockets w) (connects w) (awaiting w) (log w).

Definition with_timers (x : list Timer) (w : World) : World :=
  mkWorld (config w) (ws w) (state w) (reconnectAttempts w) (reconnectTimeout
    w) (heartbeatInterval w) (eventHandlers w) (stateHandlers w) (errorHandlers
    w) (activeSubscriptions w) (pendingSubscriptions w) (host w) (clock w) x
    (promises w) (sockets w) (connects w) (awaiting w) (log w).

Definition with_promises (x : list PromiseState) (w : World) : World :=
  mkWorld (config w) (ws w) (state w) (reconnectAttempts w) (reconnectTimeout
    w) (heartbeatInterval w) (eventHandlers w) (stateHandlers w) (errorHandlers
    w) (activeSubscriptions w) (pendingSubscriptions w) (host w) (clock w)
    (timers w) x (sockets w) (connects w) (awaiting w) (log w).

Definition with_sockets (x : list Socket) (w : World) : World :=
  mkWorld (config w) (ws w) (state w) (reconnectAttempts w) (reconnectTimeout
    w) (heartbeatInterval w) (eventHandlers w) (stateHandlers w) (errorHandlers
    w) (activeSubscriptions w) (pendingSubscriptions w) (host w) (clock w)
    (timers w) (promises w) x (connects w) (awaiting w) (log w).

Definition with_connects (x : list ConnectTask) (w : World) : World :=
  mkWorld (config w) (ws w) (state w) (reconnectAttempts w) (reconnectTimeout
    w) (heartbeatInterval w) (eventHandlers w) (stateHandlers w) (errorHandlers
    w) (activeSubscriptions w) (pendingSubscriptions w) (host w) (clock w)
    (timers w) (promises w) (sockets w) x (awaiting w) (log w).

Definition with_awaiting (x : list Awaiting) (w : World) : World :=
  mkWorld (config w) (ws w) (state w) (reconnectAttempts w) (reconnectTimeout
    w) (heartbeatInterval w) (eventHandlers w) (stateHandlers w) (errorHandlers
    w) (activeSubscriptions w) (pendingSubscriptions w) (host w) (clock w)
    (timers w) (promises w) (sockets w) (connects w) x (log w).

Definition with_log (x : list Effect) (w : World) : World :=
  mkWorld (config w) (ws w) (state w) (reconnectAttempts w) (reconnectTimeout
    w) (heartbeatInterval w) (eventHandlers w) (stateHandlers w) (errorHandlers
    w) (activeSubscriptions w) (pendingSubscriptions w) (host w) (clock w)
    (timers w) (promises w) (sockets w) (connects w) (awaiting w) x.

(** ** JavaScript sets as insertion-ordered lists *)

Definition set_add (x : string) (l : list string) : list string :=
  if decide (x ∈ l) then l else l ++ [x].

Definition set_delete (x : string) (l : list string) : list string :=
  filter (λ y, y ≠ x) l.

Definition set_add_all (xs l : list string) : list string :=
  foldl (λ acc x, set_add x acc) l xs.

Definition set_delete_all (xs l : list string) : list string :=
  foldl (λ acc x, set_delete x acc) l xs.

Definition handler_add (h : nat) (l : list nat) : list nat :=
  if decide (h ∈ l) then l else l ++ [h].

Definition handler_delete (h : nat) (l : list nat) : list nat :=
  filter (λ y, y ≠ h) l.

(** [a || b] on possibly absent strings: the empty string is falsy too. *)
Definition js_or (a b : option string) : option string :=
  match a with
  | Some s => if decide (s = "") then b else a
  | None => b
  end.

(** ** Host facilities: promises, timers, sockets *)

Definition newPromise (st : PromiseState) (w : World) : World * nat :=
  (with_promises (promises w ++ [st]) w, length (promises w)).

(** [resolve]/[reject] of a promise that is already settled do nothing. *)
Definition settle (p : nat) (st : PromiseState) (w : World) : World :=
  with_promises
    (match promises w !! p with
     | Some Pending => <[p := st]> (promises w)
     | _ => promises w
     end) w.

Definition addTimer (a : TimerAction) (every : option Z) (delay : Z) (w : World)
  : World * nat :=
  (with_timers (timers w ++ [mkTimer (clock w + Z.max 0 delay) every a true]) w,
   length (timers w)).

Definition setTimeout (a : TimerAction) (delay : Z) (w : World) : World * nat :=
  addTimer a None delay w.

Definition setInterval (a : TimerAction) (delay : Z) (w : World) : World * nat :=
  addTimer a (Some (Z.max 0 delay)) delay w.

Definition disarm (t : Timer) : Timer :=
  mkTimer (timer_due t) (timer_every t) (timer_action t) false.

(** [clearTimeout] and [clearInterval]. *)
Definition clearTimer (id : nat) (w : World) : World :=
  with_timers (alter disarm id (timers w)) w.

Definition socket_send (c : SubscriptionCommand) (s : Socket) : Socket :=
  mkSocket (sock_url s) (sock_token s) (sock_connect s) (sock_ping s)
    (sock_sent s ++ [c]) (sock_pings s) (sock_closed s).

Definition socket_ping (s : Socket) : Socket :=
  mkSocket (sock_url s) (sock_token s) (sock_connect s) (sock_ping s)
    (sock_sent s) (S (sock_pings s)) (sock_closed s).

Definition socket_close (code : Z) (reason : string) (s : Socket) : Socket :=
  mkSocket (sock_url s) (sock_token s) (sock_connect s) (sock_ping s)
    (sock_sent s) (sock_pings s)
    (match sock_closed s with Some c => Some c | None => Some (code, reason) end).

Definition on_socket (f : Socket → Socket) (id : nat) (w : World) : World :=
  with_sockets (alter f id (sockets w)) w.

(** ** The module-level helpers *)

Definition isBrowser (h : Host) : bool := window_WebSocket h.

Definition quote : string := String (ascii_of_nat 34) EmptyString.

Definition WebSocket_unavailable : JsError :=
  Error ("WebSocket is not available. In Node.js, install the " +:+ quote +:+ "ws"
         +:+ quote +:+ " package: npm install ws").

(** [inr true]: the browser's implementation; [inr false]: the [ws] package. *)
Definition getWebSocket (h : Host) : JsError + bool :=
  if isBrowser h then inr true
  else if ws_package h then inr false
  else inl WebSocket_unavailable.

(** ** RealtimeResource *)

Definition constructor (h : Host) (config : option RealtimeConfig) : World :=
  let opt {A} (f : RealtimeConfig → option A) (d : A) : A :=
    default d (config ≫= f) in
  mkWorld
    (mkConfig (opt opt_url DEFAULT_REALTIME_URL)
              (opt opt_autoReconnect true)
              (opt opt_reconnectInterval DEFAULT_RECONNECT_INTERVAL)
              (opt opt_maxReconnectAttempts DEFAULT_MAX_RECONNECT_ATTEMPTS)
              (opt opt_heartbeatInterval DEFAULT_HEARTBEAT_INTERVAL))
    None disconnected 0%nat None None [] [] []
    (mkActive [] [] false) ∅
    h 0 [] [] [] [] [] [].

Definition getState (w : World) : ConnectionState := state w.

Definition setState (s : ConnectionState) (w : World) : World :=
  if decide (state w = s) then w
  else with_log (log w ++ map (λ h, StateHandlerCall h s) (stateHandlers w))
         (with_state s w).

Definition emitError (e : JsError) (w : World) : World :=
  with_log (log w ++ map (λ h, ErrorHandlerCall h e) (errorHandlers w)) w.

Definition emitEvent (ev : RealtimeEvent) (w : World) : World :=
  with_log (log w ++ map (λ h, EventHandlerCall h ev) (eventHandlers w)) w.

Definition getSubscriptionKey (action subscriptionType : string) : string :=
  action +:+ ":" +:+ subscriptionType.

Definition command_key (c : SubscriptionCommand) : string :=
  getSubscriptionKey (CommandType_str (cmd_type c))
                     (SubscriptionType_str (cmd_subscriptionType c)).

Definition is_connected (w : World) : bool :=
  match ws w with
  | Some _ => bool_decide (state w = connected)
  | None => false
  end.

(** The result is the promise the [async] method returns: already rejected
    with [Not connected], or pending on a confirmation or the timer. *)
Definition sendSubscription (c : SubscriptionCommand) (w : World) : World * nat :=
  match ws w with
  | Some sock =>
      if decide (state w = connected) then
        let '(w1, p) := newPromise Pending w in
        let key := command_key c in
        let '(w2, timeout) := setTimeout (SubscriptionTimer key p) SUBSCRIPTION_TIMEOUT w1 in
        let w3 := with_pendingSubscriptions
                    (<[key := mkPending p timeout]> (pendingSubscriptions w2)) w2 in
        (on_socket (socket_send c) sock w3, p)
      else newPromise (Rejected (Error "Not connected")) w
  | None => newPromise (Rejected (Error "Not connected")) w
  end.

Definition with_subscribedToAll (b : bool) (w : World) : World :=
  let a := activeSubscriptions w in
  with_activeSubscriptions (mkActive (eventTypes a) (channels a) b) w.

Definition with_channels (l : list string) (w : World) : World :=
  let a := activeSubscriptions w in
  with_activeSubscriptions (mkActive (eventTypes a) l (subscribedToAll a)) w.

Definition with_eventTypes (l : list string) (w : World) : World :=
  let a := activeSubscriptions w in
  with_activeSubscriptions (mkActive l (channels a) (subscribedToAll a)) w.

Definition subscribeAll (w : World) : World * nat :=
  sendSubscription (mkCommand Subscribe all None None)
    (with_subscribedToAll true w).

Definition unsubscribeAll (w : World) : World * nat :=
  sendSubscription (mkCommand Unsubscribe all None None)
    (with_subscribedToAll false w).

Definition subscribeChannels (channelIds : list string) (w : World) : World * nat :=
  sendSubscription (mkCommand Subscribe channel None (Some channelIds))
    (with_channels (set_add_all channelIds (channels (activeSubscriptions w))) w).

Definition unsubscribeChannels (channelIds : list string) (w : World) : World * nat :=
  sendSubscription (mkCommand Unsubscribe channel None (Some channelIds))
    (with_channels (set_delete_all channelIds (channels (activeSubscriptions w))) w).

Definition subscribeEventTypes (types : list string) (w : World) : World * nat :=
  sendSubscription (mkCommand Subscribe event_type (Some types) None)
    (with_eventTypes (set_add_all types (eventTypes (activeSubscriptions w))) w).

Definition unsubscribeEventTypes (types : list string) (w : World) : World * nat :=
  sendSubscription (mkCommand Unsubscribe event_type (Some types) None)
    (with_eventTypes (set_delete_all types (eventTypes (activeSubscriptions w))) w).

Record SubscribeOptions := mkOptions {
  o_eventTypes : option (list string);
  o_channels : option (list string)
}.

Definition nonempty (l : option (list string)) : option (list string) :=
  match l with
  | Some (x :: xs) => Some (x :: xs)
  | _ => None
  end.

(** [subscribe(options)]: the promises handed to [Promise.all], or the
    error thrown before anything is sent. *)
Definition subscribe (options : SubscribeOptions) (w : World)
  : World * (JsError + list nat) :=
  let '(w1, ps1) :=
    match nonempty (o_channels options) with
    | Some l => let '(w', p) := subscribeChannels l w in (w', [p])
    | None => (w, [])
    end in
  let '(w2, ps2) :=
    match nonempty (o_eventTypes options) with
    | Some l => let '(w', p) := subscribeEventTypes l w1 in (w', ps1 ++ [p])
    | None => (w1, ps1)
    end in
  match ps2 with
  | [] => (w2, inl (Error "Must specify at least one channel or event type"))
  | _ => (w2, inr ps2)
  end.

Definition unsubscribe (options : SubscribeOptions) (w : World) : World * list nat :=
  let '(w1, ps1) :=
    match nonempty (o_channels options) with
    | Some l => let '(w', p) := unsubscribeChannels l w in (w', [p])
    | None => (w, [])
    end in
  match nonempty (o_eventTypes options) with
  | Some l => let '(w', p) := unsubscribeEventTypes l w1 in (w', ps1 ++ [p])
  | None => (w1, ps1)
  end.

Definition onEvent (h : nat) (w : World) : World :=
  with_eventHandlers (handler_add h (eventHandlers w)) w.
Definition offEvent (h : nat) (w : World) : World :=
  with_eventHandlers (handler_delete h (eventHandlers w)) w.
Definition onStateChange (h : nat) (w : World) : World :=
  with_stateHandlers (handler_add h (stateHandlers w)) w.
Definition offStateChange (h : nat) (w : World) : World :=
  with_stateHandlers (handler_delete h (stateHandlers w)) w.
Definition onError (h : nat) (w : World) : World :=
  with_errorHandlers (handler_add h (errorHandlers w)) w.
Definition offError (h : nat) (w : World) : World :=
  with_errorHandlers (handler_delete h (errorHandlers w)) w.

Definition removeAllHandlers (w : World) : World :=
  with_errorHandlers [] (with_stateHandlers [] (with_eventHandlers [] w)).

Definition normalize (d : EventData) : RealtimeEvent :=
  mkEvent (d_id d)
    (js_or (d_tenant_id d) (d_tenantId d))
    (js_or (d_channel_id d) (d_channelId d))
    (js_or (d_canonical_type d) (d_canonicalType d))
    (js_or (d_event_type d) (d_eventType d))
    (d_direction d) (d_payload d) (d_enrichment d) (d_timestamp d)
    (js_or (d_processed_at d) (d_processedAt d)).

Definition confirmation_key (c : SubscriptionConfirmation) : string :=
  getSubscriptionKey (conf_action c) (conf_subscriptionType c).

(** The two closures of a pending entry. *)
Definition pending_resolve (e : PendingEntry) (c : SubscriptionConfirmation)
  (w : World) : World :=
  settle (pend_promise e) (Fulfilled (Some c)) (clearTimer (pend_timeout e) w).

Definition pending_reject (e : PendingEntry) (err : JsError) (w : World) : World :=
  settle (pend_promise e) (Rejected err) (clearTimer (pend_timeout e) w).

Definition handleMessage (f : Frame) (w : World) : World :=
  match f with
  | FrameUnparsable e =>
      emitError (Error ("Failed to parse message: " +:+ JsError_toString e)) w
  | FrameConnected => w
  | FrameConfirmation c =>
      let key := confirmation_key c in
      match pendingSubscriptions w !! key with
      | Some pending =>
          let w1 := with_pendingSubscriptions (delete key (pendingSubscriptions w)) w in
          match conf_type c with
          | subscription_error =>
              pending_reject pending
                (Error (default "Subscription failed"
                          (js_or (conf_error c) (Some "Subscription failed")))) w1
          | subscription_confirmed => pending_resolve pending c w1
          end
      | None => w
      end
  | FrameEvent (Some d) => emitEvent (normalize d) w
  | FrameEvent None => w
  | FrameOther => w
  end.

Definition shouldReconnect (w : World) : bool :=
  if decide (maxReconnectAttempts (config w) = 0) then true
  else bool_decide (Z.of_nat (reconnectAttempts w) < maxReconnectAttempts (config w)).

Definition scheduleReconnect (w : World) : World :=
  match reconnectTimeout w with
  | Some _ => w
  | None =>
      let w1 := setState reconnecting w in
      let w2 := with_reconnectAttempts (S (reconnectAttempts w1)) w1 in
      let delay :=
        Z.min (reconnectInterval (config w2)
               * 2 ^ (Z.of_nat (reconnectAttempts w2) - 1))
              MAX_RECONNECT_INTERVAL in
      let '(w3, t) := setTimeout ReconnectTimer delay w2 in
      with_reconnectTimeout (Some t) w3
  end.

Definition clearReconnectTimeout (w : World) : World :=
  match reconnectTimeout w with
  | Some t => with_reconnectTimeout None (clearTimer t w)
  | None => w
  end.

Definition stopHeartbeat (w : World) : World :=
  match heartbeatInterval w with
  | Some t => with_heartbeatInterval None (clearTimer t w)
  | None => w
  end.

Definition startHeartbeat (w : World) : World :=
  let w1 := stopHeartbeat w in
  let '(w2, t) := setInterval HeartbeatTimer (cfg_heartbeatInterval (config w1)) w1 in
  with_heartbeatInterval (Some t) w2.

(** The interval callback of [startHeartbeat]. *)
Definition heartbeat (w : World) : World :=
  match ws w with
  | Some sock =>
      if decide (state w = connected) then
        match sockets w !! sock with
        | Some s => if sock_ping s then on_socket socket_ping sock w else w
        | None => w
        end
      else w
  | None => w
  end.

(** [resubscribe()], cut at its three [await]s. Each part runs up to the
    next [await] and parks the rest under the awaited promise. *)
Definition await (p : nat) (k : Resume) (w : World) : World :=
  with_awaiting (awaiting w ++ [mkAwaiting p k]) w.

Definition resubscribe_eventTypes (w : World) : World :=
  match eventTypes (activeSubscriptions w) with
  | [] => w
  | l => let '(w1, p) := subscribeEventTypes l w in await p ResumeEnd w1
  end.

Definition resubscribe_channels (w : World) : World :=
  match channels (activeSubscriptions w) with
  | [] => resubscribe_eventTypes w
  | l => let '(w1, p) := subscribeChannels l w in await p ResumeEventTypes w1
  end.

Definition resubscribe (w : World) : World :=
  if subscribedToAll (activeSubscriptions w)
  then let '(w1, p) := subscribeAll w in await p ResumeChannels w1
  else resubscribe_channels w.

(** The continuation of an [await] inside [resubscribe()]'s [try]. *)
Definition resume (a : Awaiting) (w : World) : World :=
  match promises w !! aw_promise a with
  | Some (Fulfilled _) =>
      match aw_resume a with
      | ResumeChannels => resubscribe_channels w
      | ResumeEventTypes => resubscribe_eventTypes w
      | ResumeEnd => w
      end
  | Some (Rejected e) =>
      emitError (Error ("Failed to resubscribe: " +:+ JsError_toString e)) w
  | _ => w
  end.

Definition settled (w : World) (a : Awaiting) : bool :=
  match promises w !! aw_promise a with
  | Some (Fulfilled _) | Some (Rejected _) => true
  | _ => false
  end.

(** One pass over the parked continuations whose promise has settled. *)
Definition drain (w : World) : World :=
  let ready := filter (λ a, settled w a = true) (awaiting w) in
  let rest := filter (λ a, settled w a ≠ true) (awaiting w) in
  foldl (λ acc a, resume a acc) (with_awaiting rest w) ready.

(** The microtask checkpoint after a task: a resumed continuation can park
    itself again on a promise that is already rejected ([Not connected]);
    its [catch] then runs in the same checkpoint. *)
Definition checkpoint (w : World) : World := drain (drain w).

(** [connect()]: [None] when it returns at once, otherwise the promise
    handed back while the executor waits for the token. *)
Definition connect (w : World) : World * option nat :=
  if decide (state w = connected) then (w, None)
  else if decide (state w = connecting) then (w, None)
  else
    let w1 := setState connecting w in
    let '(w2, p) := newPromise Pending w1 in
    (with_connects (connects w2 ++ [mkTask p AwaitToken]) w2, Some p).

Definition finish_task (tid : nat) (w : World) : World :=
  with_connects (alter (λ t, mkTask (task_promise t) Finished) tid (connects w)) w.

(** The [catch] of the executor. *)
Definition connect_catch (tid p : nat) (e : JsError) (w : World) : World :=
  settle p (Rejected e) (setState disconnected (finish_task tid w)).

(** The executor resumes after [await this.tokenFetcher()]. *)
Definition tokenSettled (tid : nat) (r : JsError + string) (w : World) : World :=
  match connects w !! tid with
  | Some (mkTask p AwaitToken) =>
      match r with
      | inr token =>
          with_connects (<[tid := mkTask p (AwaitWebSocket token)]> (connects w)) w
      | inl e => connect_catch tid p e w
      end
  | _ => w
  end.

(** The executor resumes after [await getWebSocket()] and, when there is
    an implementation, creates the socket and installs its handlers. *)
Definition webSocketSettled (tid : nat) (w : World) : World :=
  match connects w !! tid with
  | Some (mkTask p (AwaitWebSocket token)) =>
      match getWebSocket (host w) with
      | inr browser =>
          let w1 := finish_task tid w in
          let sock := length (sockets w1) in
          with_ws (Some sock)
            (with_sockets
               (sockets w1 ++ [mkSocket (url (config w1)) token p (negb browser) [] 0%nat None])
               w1)
      | inl e => connect_catch tid p e w
      end
  | _ => w
  end.

Definition onopen (sock : nat) (w : World) : World :=
  match sockets w !! sock with
  | Some s =>
      let w1 := setState connected w in
      let w2 := with_reconnectAttempts 0%nat w1 in
      let w3 := startHeartbeat w2 in
      let w4 := resubscribe w3 in
      settle (sock_connect s) (Fulfilled None) w4
  | None => w
  end.

Definition onclose (sock : nat) (reason : option string) (w : World) : World :=
  match sockets w !! sock with
  | Some s =>
      let w1 := stopHeartbeat w in
      let w2 := with_ws None w1 in
      if decide (state w2 = connecting) then
        let msg := "Connection failed: "
                   +:+ default "Unknown reason" (js_or reason (Some "Unknown reason")) in
        setState disconnected (settle (sock_connect s) (Rejected (Error msg)) w2)
      else
        let w3 := setState disconnected w2 in
        if autoReconnect (config w3) && shouldReconnect w3
        then scheduleReconnect w3
        else w3
  | None => w
  end.

Definition onerror (sock : nat) (message : option string) (w : World) : World :=
  match sockets w !! sock with
  | Some s =>
      let error :=
        Error ("WebSocket error"
               +:+ match js_or message None with
                   | Some m => ": " +:+ m
                   | None => ""
                   end) in
      let w1 := emitError error w in
      if decide (state w1 = connecting)
      then settle (sock_connect s) (Rejected error) w1
      else w1
  | None => w
  end.

Definition onmessage (sock : nat) (f : Frame) (w : World) : World :=
  match sockets w !! sock with
  | Some _ => handleMessage f w
  | None => w
  end.

Definition disconnect (w : World) : World :=
  let c := config w in
  let w1 := with_config (mkConfig (url c) false (reconnectInterval c)
                           (maxReconnectAttempts c) (cfg_heartbeatInterval c)) w in
  let w2 := clearReconnectTimeout w1 in
  let w3 := stopHeartbeat w2 in
  let w4 := match ws w3 with
            | Some sock =>
                with_ws None (on_socket (socket_close 1000 "Client disconnect") sock w3)
            | None => w3
            end in
  setState disconnected w4.

(** ** The event loop *)

Definition rearm (t : Timer) : Timer :=
  match timer_every t with
  | Some d => mkTimer (timer_due t + d) (timer_every t) (timer_action t) true
  | None => disarm t
  end.

Definition timer_due_now (w : World) (t : Timer) : bool :=
  timer_armed t && (timer_due t <=? clock w).

(** A timer callback runs: only when the timer is armed and due. *)
Definition fireTimer (id : nat) (w : World) : World :=
  match timers w !! id with
  | Some t =>
      if timer_due_now w t then
        let w1 := with_timers (alter rearm id (timers w)) w in
        match timer_action t with
        | ReconnectTimer => fst (connect (with_reconnectTimeout None w1))
        | SubscriptionTimer key p =>
            settle p (Rejected (Error "Subscription timeout"))
              (with_pendingSubscriptions (delete key (pendingSubscriptions w1)) w1)
        | HeartbeatTimer => heartbeat w1
        end
      else w
  | None => w
  end.

Inductive Input :=
| CallConnect
| CallDisconnect
| CallSubscribeAll
| CallUnsubscribeAll
| CallSubscribeChannels (ids : list string)
| CallUnsubscribeChannels (ids : list string)
| CallSubscribeEventTypes (types : list string)
| CallUnsubscribeEventTypes (types : list string)
| CallSubscribe (options : SubscribeOptions)
| CallUnsubscribe (options : SubscribeOptions)
| CallOnEvent (h : nat)
| CallOffEvent (h : nat)
| CallOnStateChange (h : nat)
| CallOffStateChange (h : nat)
| CallOnError (h : nat)
| CallOffError (h : nat)
| CallRemoveAllHandlers
| TokenSettled (task : nat) (r : JsError + string)
| WebSocketSettled (task : nat)
| SocketOpen (sock : nat)
| SocketClose (sock : nat) (reason : option string)
| SocketError (sock : nat) (message : option string)
| SocketMessage (sock : nat) (f : Frame)
| TimerFires (id : nat)
| Elapse (ms : Z).

(** The synchronous part of one task. *)
Definition handle (i : Input) (w : World) : World :=
  match i with
  | CallConnect => fst (connect w)
  | CallDisconnect => disconnect w
  | CallSubscribeAll => fst (subscribeAll w)
  | CallUnsubscribeAll => fst (unsubscribeAll w)
  | CallSubscribeChannels ids => fst (subscribeChannels ids w)
  | CallUnsubscribeChannels ids => fst (unsubscribeChannels ids w)
  | CallSubscribeEventTypes l => fst (subscribeEventTypes l w)
  | CallUnsubscribeEventTypes l => fst (unsubscribeEventTypes l w)
  | CallSubscribe o => fst (subscribe o w)
  | CallUnsubscribe o => fst (unsubscribe o w)
  | CallOnEvent h => onEvent h w
  | CallOffEvent h => offEvent h w
  | CallOnStateChange h => onStateChange h w
  | CallOffStateChange h => offStateChange h w
  | CallOnError h => onError h w
  | CallOffError h => offError h w
  | CallRemoveAllHandlers => removeAllHandlers w
  | TokenSettled t r => tokenSettled t r w
  | WebSocketSettled t => webSocketSettled t w
  | SocketOpen s => onopen s w
  | SocketClose s r => onclose s r w
  | SocketError s m => onerror s m w
  | SocketMessage s f => onmessage s f w
  | TimerFires id => fireTimer id w
  | Elapse ms => with_clock (clock w + Z.max 0 ms) w
  end.

(** One task followed by its microtask checkpoint. *)
Definition step (i : Input) (w : World) : World := checkpoint (handle i w).

Definition exec (inputs : list Input) (w : World) : World :=
  foldl (λ acc i, step i acc) w inputs.

(** Commands written to a socket so far. *)
Definition sent (sock : nat) (w : World) : list SubscriptionCommand :=
  match sockets w !! sock with
  | Some s => sock_sent s
  | None => []
  end.

Record stable (P : World → Prop) : Prop := {
  stable_awaiting : ∀ w l, P w → P (with_awaiting l w);
  stable_emitError : ∀ w e, P w → P (emitError e w);
  stable_send : ∀ w c, P w → P (fst (sendSubscription c w));
  stable_registry : ∀ w, P w → P (with_activeSubscriptions (activeSubscriptions w) w)
}.

Definition untouched {A} (f : World → A) : Prop :=
  ∀ w0, stable (λ w, f w = f w0).

Definition host_node : Host := mkHost false true.
Definition fresh : World := constructor host_node None.

Record Registry := mkRegistry {
  reg_all : bool;
  reg_channels : gset string;
  reg_eventTypes : gset string
}.

Definition registry (w : World) : Registry :=
  let a := activeSubscriptions w in
  mkRegistry (subscribedToAll a) (list_to_set (channels a)) (list_to_set (eventTypes a)).

Arguments registry : simpl never.

Definition ids_of (l : option (list string)) : gset string :=
  list_to_set (default [] l).

(** What a call asks for, in the words of the specification: set or clear
    the flag, add or remove each id; every other input asks for nothing. *)
Definition requested (i : Input) (r : Registry) : Registry :=
  match i with
  | CallSubscribeAll => mkRegistry true (reg_channels r) (reg_eventTypes r)
  | CallUnsubscribeAll => mkRegistry false (reg_channels r) (reg_eventTypes r)
  | CallSubscribeChannels ids =>
      mkRegistry (reg_all r) (reg_channels r ∪ list_to_set ids) (reg_eventTypes r)
  | CallUnsubscribeChannels ids =>
      mkRegistry (reg_all r) (reg_channels r ∖ list_to_set ids) (reg_eventTypes r)
  | CallSubscribeEventTypes l =>
      mkRegistry (reg_all r) (reg_channels r) (reg_eventTypes r ∪ list_to_set l)
  | CallUnsubscribeEventTypes l =>
      mkRegistry (reg_all r) (reg_channels r) (reg_eventTypes r ∖ list_to_set l)
  | CallSubscribe o =>
      mkRegistry (reg_all r) (reg_channels r ∪ ids_of (o_channels o))
                 (reg_eventTypes r ∪ ids_of (o_eventTypes o))
  | CallUnsubscribe o =>
      mkRegistry (reg_all r) (reg_channels r ∖ ids_of (o_channels o))
                 (reg_eventTypes r ∖ ids_of (o_eventTypes o))
  | _ => r
  end.

Definition sent_world (c : SubscriptionCommand) (sock : nat) (w : World) : World :=
  let p := length (promises w) in
  let t := length (timers w) in
  on_socket (socket_send c) sock
    (with_pendingSubscriptions
       (<[command_key c := mkPending p t]> (pendingSubscriptions w))
       (with_timers
          (timers w ++ [mkTimer (clock w + SUBSCRIPTION_TIMEOUT) None
                          (SubscriptionTimer (command_key c) p) true])
          (with_promises (promises w ++ [Pending]) w))).

(** [connect()] failed in its [catch]: the promise is rejected with [e],
    the state is [disconnected], and nothing else of the connection moved. *)
Definition failed_before_socket (w w' : World) (p : nat) (e : JsError) : Prop :=
  state w' = disconnected
  ∧ promises w' !! p = Some (Rejected e)
  ∧ ws w' = ws w
  ∧ sockets w' = sockets w
  ∧ heartbeatInterval w' = heartbeatInterval w
  ∧ timers w' = timers w
  ∧ reconnectTimeout w' = reconnectTimeout w
  ∧ reconnectAttempts w' = reconnectAttempts w.

Definition channel_command (ids : list string) : SubscriptionCommand :=
  mkCommand Subscribe channel None (Some ids).
Definition eventType_command (types : list string) : SubscriptionCommand :=
  mkCommand Subscribe event_type (Some types) None.
Definition all_command : SubscriptionCommand :=
  mkCommand Subscribe all None None.

(** A [resubscribe()] run is parked on promise [p], which waits for the
    confirmation stored under [key]. *)
Definition resubscribing (w : World) (sock p : nat) (key : string) (k : Resume)
  : Prop :=
  ws w = Some sock
  ∧ state w = connected
  ∧ is_Some (sockets w !! sock)
  ∧ awaiting w = [mkAwaiting p k]
  ∧ promises w !! p = Some Pending
  ∧ ∃ t, pendingSubscriptions w !! key = Some (mkPending p t).




Definition confirmed (action subscriptionType : string) : Frame :=
  FrameConfirmation (mkConfirmation subscription_confirmed action subscriptionType [] None).


(** A client that subscribed to channels a, b and event type x, lost its
    socket, and whose reconnect attempt has just created socket 1. *)
Definition about_to_reconnect : World :=
  exec [CallOnError 7%nat;
        CallConnect; TokenSettled 0 (inr "t0"); WebSocketSettled 0; SocketOpen 0;
        CallSubscribeChannels ["a"; "b"]; SocketMessage 0 (confirmed "subscribe" "channel");
        CallSubscribeEventTypes ["x"]; SocketMessage 0 (confirmed "subscribe" "event_type");
        SocketClose 0 None; Elapse 1000; TimerFires 3;
        TokenSettled 1 (inr "t1"); WebSocketSettled 1] fresh.

(** The command a subscription call puts on the wire. *)
Definition issued (i : Input) : option SubscriptionCommand :=
  match i with
  | CallSubscribeAll => Some (mkCommand Subscribe all None None)
  | CallUnsubscribeAll => Some (mkCommand Unsubscribe all None None)
  | CallSubscribeChannels ids => Some (mkCommand Subscribe channel None (Some ids))
  | CallUnsubscribeChannels ids => Some (mkCommand Unsubscribe channel None (Some ids))
  | CallSubscribeEventTypes l => Some (mkCommand Subscribe event_type (Some l) None)
  | CallUnsubscribeEventTypes l => Some (mkCommand Unsubscribe event_type (Some l) None)
  | _ => None
  end.

(** A client whose first connection is open. *)
Definition online : World :=
  exec [CallConnect; TokenSettled 0 (inr "t0"); WebSocketSettled 0; SocketOpen 0] fresh.

(** A host with neither [window.WebSocket] nor the [ws] package. *)
Definition host_bare : Host := mkHost false false.

(** * Definitions for the further properties *)


Definition reason_text (reason : option string) : string :=
  default "Unknown reason" (js_or reason (Some "Unknown reason")).


(** The command [resubscribe()] sends next when it resumes at [k], and
    where it parks afterwards. *)
Definition resubscribe_next (k : Resume) (a : ActiveSubscriptions)
  : option (SubscriptionCommand * Resume) :=
  let from_eventTypes :=
    match eventTypes a with
    | [] => None
    | _ => Some (eventType_command (eventTypes a), ResumeEnd)
    end in
  match k with
  | ResumeChannels =>
      match channels a with
      | [] => from_eventTypes
      | _ => Some (channel_command (channels a), ResumeEventTypes)
      end
  | ResumeEventTypes => from_eventTypes
  | ResumeEnd => None
  end.

Definition resubscribe_start (a : ActiveSubscriptions)
  : option (SubscriptionCommand * Resume) :=
  if subscribedToAll a then Some (all_command, ResumeChannels)
  else resubscribe_next ResumeChannels a.

(** The run after a step: parked behind command [c], or over. *)
Definition run_after (w w' : World) (sock : nat)
  (next : option (SubscriptionCommand * Resume)) : Prop :=
  match next with
  | Some (c, k) =>
      resubscribing w' sock (length (promises w)) (command_key c) k
      ∧ sent sock w' = sent sock w ++ [c]
  | None => awaiting w' = [] ∧ sockets w' = sockets w
  end.

(** The world a run is parked in after its next command [next]. *)
Definition parked (W : World) (sock : nat)
  (next : option (SubscriptionCommand * Resume)) : World :=
  match next with
  | Some (c, k) =>
      await (length (promises W)) k
        (sent_world c sock (with_activeSubscriptions (activeSubscriptions W) W))
  | None => W
  end.


(** The parts of a client that an inbound frame could disturb. *)
Definition connection_untouched (w w' : World) : Prop :=
  state w' = state w ∧ ws w' = ws w ∧ sockets w' = sockets w
  ∧ timers w' = timers w ∧ promises w' = promises w
  ∧ pendingSubscriptions w' = pendingSubscriptions w
  ∧ activeSubscriptions w' = activeSubscriptions w
  ∧ reconnectTimeout w' = reconnectTimeout w
  ∧ heartbeatInterval w' = heartbeatInterval w.


Definition websocket_error (message : option string) : JsError :=
  Error ("WebSocket error" +:+ match js_or message None with
                               | Some m => ": " +:+ m
                               | None => ""
                               end).

Record Core := mkCore {
  k_timers : list Timer;
  k_promises : list PromiseState;
  k_pending : gmap string PendingEntry;
  k_reconnect : option nat;
  k_heartbeat : option nat;
  k_owned : list nat
}.

(** [k_owned]: the promises of [connect()] calls, held by sockets and by
    executors still in flight. *)
Definition core (w : World) : Core :=
  mkCore (timers w) (promises w) (pendingSubscriptions w)
         (reconnectTimeout w) (heartbeatInterval w)
         ((sock_connect <$> sockets w) ++ (task_promise <$> connects w)).

Record Consistent (k : Core) : Prop := {
  I_named : ∀ t tm, k_timers k !! t = Some tm → timer_armed tm = true →
    (timer_action tm = ReconnectTimer → k_reconnect k = Some t)
    ∧ (timer_action tm = HeartbeatTimer → k_heartbeat k = Some t);
  I_every : ∀ t tm, k_timers k !! t = Some tm →
    timer_action tm ≠ HeartbeatTimer → timer_every tm = None;
  I_reconnect : ∀ t, k_reconnect k = Some t →
    ∃ tm, k_timers k !! t = Some tm ∧ timer_action tm = ReconnectTimer;
  I_heartbeat : ∀ t, k_heartbeat k = Some t →
    ∃ tm, k_timers k !! t = Some tm ∧ timer_action tm = HeartbeatTimer;
  I_sub : ∀ t tm key p, k_timers k !! t = Some tm →
    timer_action tm = SubscriptionTimer key p →
    (p < length (k_promises k))%nat
    ∧ (k_promises k !! p = Some Pending → timer_armed tm = true);
  I_unique : ∀ t1 t2 tm1 tm2 key1 key2 p,
    k_timers k !! t1 = Some tm1 → k_timers k !! t2 = Some tm2 →
    timer_action tm1 = SubscriptionTimer key1 p →
    timer_action tm2 = SubscriptionTimer key2 p → t1 = t2;
  I_pending : ∀ key e, k_pending k !! key = Some e →
    k_promises k !! pend_promise e = Some Pending
    ∧ ∃ tm, k_timers k !! pend_timeout e = Some tm
            ∧ timer_action tm = SubscriptionTimer key (pend_promise e);
  I_owned : ∀ p, p ∈ k_owned k →
    (p < length (k_promises k))%nat
    ∧ ∀ t tm key, k_timers k !! t = Some tm →
                  timer_action tm ≠ SubscriptionTimer key p
}.

Definition consistent (w : World) : Prop := Consistent (core w).

(** A timer update that keeps what the timer is for. *)
Definition keeps_kind (f : Timer → Timer) : Prop :=
  ∀ tm, timer_action (f tm) = timer_action tm ∧ timer_every (f tm) = timer_every tm.

Definition owned (w : World) : list nat := k_owned (core w).



(** The settings of [c'] are those of [c], auto-reconnect apart. *)
Definition settings_kept (c c' : Config) : Prop :=
  url c' = url c
  ∧ reconnectInterval c' = reconnectInterval c
  ∧ maxReconnectAttempts c' = maxReconnectAttempts c
  ∧ cfg_heartbeatInterval c' = cfg_heartbeatInterval c.

(** The input is a [disconnect()] call. *)
Definition is_disconnect (i : Input) : bool :=
  match i with CallDisconnect => true | _ => false end.

(** ** Worlds the properties are exercised on *)

(** The socket of [online], and the socket the reconnect attempt of
    [about_to_reconnect] has created. *)
Definition first_socket : Socket :=
  mkSocket DEFAULT_REALTIME_URL "t0" 0 true [] 0 None.

Definition reconnect_socket : Socket :=
  mkSocket DEFAULT_REALTIME_URL "t1" 3 true [] 0 None.

(** A client that asked for everything, a channel and an event type
    before connecting, and whose first socket has just been created. *)
Definition offline_subscriber : World :=
  exec [CallSubscribeAll; CallSubscribeChannels ["a"]; CallSubscribeEventTypes ["x"];
        CallConnect; TokenSettled 0 (inr "t0"); WebSocketSettled 0] fresh.

Definition subscriber_socket : Socket :=
  mkSocket DEFAULT_REALTIME_URL "t0" 3 true [] 0 None.

(** A client whose open connection dropped one second ago. *)
Definition dropped : World :=
  exec [SocketClose 0 None; Elapse 1000] online.

Lemma set_add_elem x l : x ∈ l → set_add x l = l.
Proof. intros H. unfold set_add. by rewrite decide_True. Qed.

Lemma set_add_all_subset xs l : (∀ x, x ∈ xs → x ∈ l) → set_add_all xs l = l.
Proof.
  unfold set_add_all. induction xs as [|x xs IH]; intros H; [done|].
  simpl. rewrite set_add_elem by (apply H; left).
  apply IH. intros y Hy. apply H. by right.
Qed.

Lemma set_add_all_self l : set_add_all l l = l.
Proof. by apply set_add_all_subset. Qed.

(** ** Properties that the resubscribe machinery cannot disturb *)

Lemma with_channels_self w :
  with_channels (set_add_all (channels (activeSubscriptions w))
                             (channels (activeSubscriptions w))) w
  = with_activeSubscriptions (activeSubscriptions w) w.
Proof.
  rewrite set_add_all_self. unfold with_channels.
  by destruct (activeSubscriptions w).
Qed.

Lemma with_eventTypes_self w :
  with_eventTypes (set_add_all (eventTypes (activeSubscriptions w))
                               (eventTypes (activeSubscriptions w))) w
  = with_activeSubscriptions (activeSubscriptions w) w.
Proof.
  rewrite set_add_all_self. unfold with_eventTypes.
  by destruct (activeSubscriptions w).
Qed.

Section Stable.
Variable P : World → Prop.
Hypothesis HP : stable P.

Lemma await_stable p k w : P w → P (await p k w).
Proof. apply (stable_awaiting P HP). Qed.

Lemma resubscribe_eventTypes_stable w : P w → P (resubscribe_eventTypes w).
Proof.
  intros Hw. unfold resubscribe_eventTypes.
  destruct (eventTypes (activeSubscriptions w)) as [|x l] eqn:E; [done|].
  rewrite <- E. unfold subscribeEventTypes. rewrite with_eventTypes_self.
  destruct (sendSubscription _ _) as [w1 p] eqn:Es.
  apply await_stable. change w1 with (fst (w1, p)). rewrite <- Es.
  by apply (stable_send P HP), (stable_registry P HP).
Qed.

Lemma resubscribe_channels_stable w : P w → P (resubscribe_channels w).
Proof.
  intros Hw. unfold resubscribe_channels.
  destruct (channels (activeSubscriptions w)) as [|x l] eqn:E.
  { by apply resubscribe_eventTypes_stable. }
  rewrite <- E. unfold subscribeChannels. rewrite with_channels_self.
  destruct (sendSubscription _ _) as [w1 p] eqn:Es.
  apply await_stable. change w1 with (fst (w1, p)). rewrite <- Es.
  by apply (stable_send P HP), (stable_registry P HP).
Qed.

Lemma resume_stable a w : P w → P (resume a w).
Proof.
  intros Hw. unfold resume.
  destruct (promises w !! aw_promise a) as [[| |]|]; try done.
  - destruct (aw_resume a); auto using resubscribe_channels_stable,
      resubscribe_eventTypes_stable.
  - by apply (stable_emitError P HP).
Qed.

Lemma foldl_resume_stable l w : P w → P (foldl (λ acc a, resume a acc) w l).
Proof.
  revert w. induction l as [|a l IH]; intros w Hw; simpl; [done|].
  by apply IH, resume_stable.
Qed.

Lemma drain_stable w : P w → P (drain w).
Proof.
  intros Hw. unfold drain.
  by apply foldl_resume_stable, (stable_awaiting P HP).
Qed.

Lemma checkpoint_stable w : P w → P (checkpoint w).
Proof. intros Hw. unfold checkpoint. by do 2 apply drain_stable. Qed.
End Stable.

Lemma with_subscribedToAll_self w :
  subscribedToAll (activeSubscriptions w) = true →
  with_subscribedToAll true w = with_activeSubscriptions (activeSubscriptions w) w.
Proof.
  unfold with_subscribedToAll. destruct (activeSubscriptions w); simpl.
  by intros ->.
Qed.

Lemma resubscribe_stable P w : stable P → P w → P (resubscribe w).
Proof.
  intros HP Hw. unfold resubscribe.
  destruct (subscribedToAll (activeSubscriptions w)) eqn:E.
  - unfold subscribeAll. rewrite with_subscribedToAll_self by done.
    destruct (sendSubscription _ _) as [w1 p] eqn:Es.
    apply await_stable; [done|]. change w1 with (fst (w1, p)). rewrite <- Es.
    by apply (stable_send P HP), (stable_registry P HP).
  - by apply resubscribe_channels_stable.
Qed.

Ltac unfold_send :=
  unfold sendSubscription, newPromise, setTimeout, addTimer, on_socket in *.

Ltac stable_field :=
  split; intros; unfold emitError; unfold_send;
  repeat case_match; simplify_eq; simpl in *; try done; try congruence.

Lemma untouched_checkpoint {A} (f : World → A) w :
  untouched f → f (checkpoint w) = f w.
Proof. intros H. by apply (checkpoint_stable _ (H w)). Qed.

Lemma untouched_config : untouched config.
Proof. intros w0. stable_field. Qed.
Lemma untouched_ws : untouched ws.
Proof. intros w0. stable_field. Qed.
Lemma untouched_reconnectAttempts : untouched reconnectAttempts.
Proof. intros w0. stable_field. Qed.
Lemma untouched_reconnectTimeout : untouched reconnectTimeout.
Proof. intros w0. stable_field. Qed.
Lemma untouched_heartbeatInterval : untouched heartbeatInterval.
Proof. intros w0. stable_field. Qed.
Lemma untouched_clock : untouched clock.
Proof. intros w0. stable_field. Qed.
Lemma untouched_activeSubscriptions : untouched activeSubscriptions.
Proof. intros w0. stable_field. Qed.
Lemma untouched_stateHandlers : untouched stateHandlers.
Proof. intros w0. stable_field. Qed.

Lemma setState_same w : setState (state w) w = w.
Proof. unfold setState. by rewrite decide_True. Qed.

Lemma setState_state s w : state (setState s w) = s.
Proof. unfold setState. by case_decide. Qed.

Lemma set_add_to_set x l :
  list_to_set (C:=gset string) (set_add x l) = list_to_set l ∪ {[x]}.
Proof.
  unfold set_add. case_decide as H.
  - apply (elem_of_list_to_set (C:=gset string)) in H. set_solver.
  - rewrite list_to_set_app_L. simpl. set_solver.
Qed.

Lemma set_add_all_to_set xs l :
  list_to_set (C:=gset string) (set_add_all xs l) = list_to_set l ∪ list_to_set xs.
Proof.
  unfold set_add_all. revert l. induction xs as [|x xs IH]; intros l; simpl.
  - set_solver.
  - rewrite IH, set_add_to_set. set_solver.
Qed.

Lemma set_delete_to_set x l :
  list_to_set (C:=gset string) (set_delete x l) = list_to_set l ∖ {[x]}.
Proof.
  unfold set_delete. apply set_eq. intros y.
  rewrite elem_of_difference, !elem_of_list_to_set, list_elem_of_filter.
  set_solver.
Qed.

Lemma set_delete_all_to_set xs l :
  list_to_set (C:=gset string) (set_delete_all xs l) = list_to_set l ∖ list_to_set xs.
Proof.
  unfold set_delete_all. revert l. induction xs as [|x xs IH]; intros l; simpl.
  - set_solver.
  - rewrite IH, set_delete_to_set. set_solver.
Qed.

(** ** The registry as the specification sees it *)

Lemma sendSubscription_active c w :
  activeSubscriptions (fst (sendSubscription c w)) = activeSubscriptions w.
Proof. unfold_send. by repeat case_match. Qed.

Lemma registry_send c w : registry (fst (sendSubscription c w)) = registry w.
Proof. unfold registry. by rewrite sendSubscription_active. Qed.

Ltac unfold_handlers :=
  unfold onopen, onclose, onerror, onmessage, handleMessage, fireTimer,
    tokenSettled, webSocketSettled, connect_catch, finish_task, disconnect,
    connect, heartbeat, scheduleReconnect, startHeartbeat, stopHeartbeat,
    clearReconnectTimeout, pending_resolve, pending_reject, settle, clearTimer,
    setInterval, setTimeout, addTimer, newPromise, on_socket, emitEvent,
    emitError, setState, onEvent, offEvent, onStateChange, offStateChange,
    onError, offError, removeAllHandlers in *.

Lemma nonempty_ids l : ids_of (nonempty l) = ids_of l.
Proof. by destruct l as [[|]|]. Qed.

Lemma registry_subscribeChannels l w :
  registry (fst (subscribeChannels l w))
  = requested (CallSubscribeChannels l) (registry w).
Proof.
  unfold subscribeChannels. rewrite registry_send. unfold registry. simpl.
  by rewrite set_add_all_to_set.
Qed.

Lemma registry_subscribeEventTypes l w :
  registry (fst (subscribeEventTypes l w))
  = requested (CallSubscribeEventTypes l) (registry w).
Proof.
  unfold subscribeEventTypes. rewrite registry_send. unfold registry. simpl.
  by rewrite set_add_all_to_set.
Qed.

Lemma registry_unsubscribeChannels l w :
  registry (fst (unsubscribeChannels l w))
  = requested (CallUnsubscribeChannels l) (registry w).
Proof.
  unfold unsubscribeChannels. rewrite registry_send. unfold registry. simpl.
  by rewrite set_delete_all_to_set.
Qed.

Lemma registry_unsubscribeEventTypes l w :
  registry (fst (unsubscribeEventTypes l w))
  = requested (CallUnsubscribeEventTypes l) (registry w).
Proof.
  unfold unsubscribeEventTypes. rewrite registry_send. unfold registry. simpl.
  by rewrite set_delete_all_to_set.
Qed.

Lemma Registry_eq r1 r2 :
  reg_all r1 = reg_all r2 → reg_channels r1 = reg_channels r2 →
  reg_eventTypes r1 = reg_eventTypes r2 → r1 = r2.
Proof. destruct r1, r2; simpl; congruence. Qed.

Lemma registry_subscribe o w :
  registry (fst (subscribe o w)) = requested (CallSubscribe o) (registry w).
Proof.
  unfold subscribe, requested.
  rewrite <- (nonempty_ids (o_channels o)), <- (nonempty_ids (o_eventTypes o)).
  pose proof (registry_subscribeChannels) as H1.
  pose proof (registry_subscribeEventTypes) as H2.
  destruct (nonempty (o_channels o)) as [l1|];
    destruct (nonempty (o_eventTypes o)) as [l2|].
  - specialize (H1 l1 w). destruct (subscribeChannels l1 w) as [w1 p1].
    specialize (H2 l2 w1). destruct (subscribeEventTypes l2 w1) as [w2 p2].
    cbn [fst app] in *. rewrite H2, H1. by apply Registry_eq.
  - specialize (H1 l1 w). destruct (subscribeChannels l1 w) as [w1 p1].
    cbn [fst] in *. rewrite H1. apply Registry_eq; cbn; set_solver.
  - specialize (H2 l2 w). destruct (subscribeEventTypes l2 w) as [w2 p2].
    cbn [fst app] in *. rewrite H2. apply Registry_eq; cbn; set_solver.
  - cbn [fst]. apply Registry_eq; cbn; set_solver.
Qed.

Lemma registry_unsubscribe o w :
  registry (fst (unsubscribe o w)) = requested (CallUnsubscribe o) (registry w).
Proof.
  unfold unsubscribe, requested.
  rewrite <- (nonempty_ids (o_channels o)), <- (nonempty_ids (o_eventTypes o)).
  pose proof (registry_unsubscribeChannels) as H1.
  pose proof (registry_unsubscribeEventTypes) as H2.
  destruct (nonempty (o_channels o)) as [l1|];
    destruct (nonempty (o_eventTypes o)) as [l2|].
  - specialize (H1 l1 w). destruct (unsubscribeChannels l1 w) as [w1 p1].
    specialize (H2 l2 w1). destruct (unsubscribeEventTypes l2 w1) as [w2 p2].
    cbn [fst] in *. rewrite H2, H1. by apply Registry_eq.
  - specialize (H1 l1 w). destruct (unsubscribeChannels l1 w) as [w1 p1].
    cbn [fst] in *. rewrite H1. apply Registry_eq; cbn; set_solver.
  - specialize (H2 l2 w). destruct (unsubscribeEventTypes l2 w) as [w2 p2].
    cbn [fst] in *. rewrite H2. apply Registry_eq; cbn; set_solver.
  - cbn [fst]. apply Registry_eq; cbn; set_solver.
Qed.

Lemma resubscribe_active w :
  activeSubscriptions (resubscribe w) = activeSubscriptions w.
Proof. by apply (resubscribe_stable _ _ (untouched_activeSubscriptions w)). Qed.

Lemma onopen_active sock w :
  activeSubscriptions (onopen sock w) = activeSubscriptions w.
Proof.
  unfold onopen. destruct (sockets w !! sock); [|done].
  transitivity (activeSubscriptions
    (resubscribe (startHeartbeat (with_reconnectAttempts 0%nat (setState connected w))))).
  { unfold settle. by repeat case_match. }
  rewrite resubscribe_active.
  unfold_handlers. by repeat (case_match; simpl in *; try done).
Qed.

Lemma registry_handle i w : registry (handle i w) = requested i (registry w).
Proof.
  destruct i; simpl;
    auto using registry_subscribeChannels, registry_subscribeEventTypes,
      registry_unsubscribeChannels, registry_unsubscribeEventTypes,
      registry_subscribe, registry_unsubscribe.
  all: try (unfold subscribeAll, unsubscribeAll;
            by rewrite registry_send).
  all: try (unfold registry; by rewrite onopen_active).
  all: unfold_handlers; unfold registry;
    by repeat (case_match; simpl in *; try done).
Qed.

Lemma registry_checkpoint w : registry (checkpoint w) = registry w.
Proof.
  unfold registry. by rewrite (untouched_checkpoint _ _ untouched_activeSubscriptions).
Qed.




(** ** What a send registers *)

Lemma sendSubscription_connected c w sock :
  ws w = Some sock → state w = connected →
  sendSubscription c w = (sent_world c sock w, length (promises w)).
Proof.
  intros Hws Hst. unfold sendSubscription. rewrite Hws.
  by rewrite decide_True.
Qed.

Lemma sendSubscription_not_connected c w :
  is_connected w = false →
  sendSubscription c w
  = (with_promises (promises w ++ [Rejected (Error "Not connected")]) w,
     length (promises w)).
Proof.
  unfold is_connected, sendSubscription. destruct (ws w); [|done].
  intros H. apply bool_decide_eq_false in H. by rewrite decide_False.
Qed.

Lemma lookup_snoc {A} (l : list A) (x : A) : (l ++ [x]) !! length l = Some x.
Proof. by rewrite lookup_app_r, Nat.sub_diag. Qed.

Lemma settle_pending p st w :
  promises w !! p = Some Pending →
  promises (settle p st w) !! p = Some st.
Proof.
  intros H. unfold settle. rewrite H. cbn.
  apply list_lookup_insert_eq. by apply lookup_lt_Some in H.
Qed.

Lemma settle_other p q st w :
  p ≠ q → promises (settle p st w) !! q = promises w !! q.
Proof.
  intros H. unfold settle. repeat case_match; try done.
  cbn. by apply list_lookup_insert_ne.
Qed.


Section SubscriptionTimeout.
Variables (t p : nat) (key : string) (due : Z) (w : World).
Hypothesis Htimer :
  timers w !! t = Some (mkTimer due None (SubscriptionTimer key p) true).



End SubscriptionTimeout.

Lemma connect_catch_failed w task p e :
  promises w !! p = Some Pending →
  failed_before_socket w (connect_catch task p e w) p e.
Proof.
  intros Hp. unfold failed_before_socket, connect_catch.
  assert (Hp' : promises (setState disconnected (finish_task task w)) !! p
                = Some Pending).
  { unfold setState. by case_decide. }
  split_and!; [|by apply settle_pending|..];
    unfold settle; rewrite Hp'; unfold setState; by case_decide.
Qed.

Lemma getWebSocket_fails h e :
  getWebSocket h = inl e ↔
  window_WebSocket h = false ∧ ws_package h = false ∧ e = WebSocket_unavailable.
Proof.
  unfold getWebSocket, isBrowser. destruct (window_WebSocket h), (ws_package h);
    naive_solver.
Qed.

(** ** The checkpoint on one parked continuation *)

Lemma drain_idle w : awaiting w = [] → drain w = with_awaiting [] w.
Proof. intros H. unfold drain. by rewrite H. Qed.

Lemma drain_waiting w a :
  awaiting w = [a] → settled w a = false → drain w = with_awaiting [a] w.
Proof.
  intros H Hs. unfold drain. rewrite H.
  by rewrite !filter_cons, !filter_nil, Hs.
Qed.

Lemma drain_ready w a :
  awaiting w = [a] → settled w a = true → drain w = resume a (with_awaiting [] w).
Proof.
  intros H Hs. unfold drain. rewrite H.
  by rewrite !filter_cons, !filter_nil, Hs.
Qed.

Lemma settled_pending w a :
  promises w !! aw_promise a = Some Pending → settled w a = false.
Proof. intros H. unfold settled. by rewrite H. Qed.

Lemma checkpoint_waiting w a :
  awaiting w = [a] → promises w !! aw_promise a = Some Pending →
  checkpoint w = with_awaiting [a] (with_awaiting [a] w).
Proof.
  intros H Hp. unfold checkpoint.
  rewrite (drain_waiting w a) by auto using settled_pending.
  by rewrite (drain_waiting _ a) by auto using settled_pending.
Qed.

Lemma checkpoint_idle w :
  awaiting w = [] → checkpoint w = with_awaiting [] (with_awaiting [] w).
Proof.
  intros H. unfold checkpoint. rewrite (drain_idle w) by done.
  by rewrite drain_idle.
Qed.

Lemma sent_sent_world c sock w :
  is_Some (sockets w !! sock) →
  sent sock (sent_world c sock w) = sent sock w ++ [c].
Proof.
  intros [s Hs]. unfold sent, sent_world, on_socket. cbn.
  by rewrite list_lookup_alter_eq, Hs.
Qed.

(** The heartbeat and the state change of [onopen] leave the rest alone. *)
Lemma onopen_prefix w :
  let W := startHeartbeat (with_reconnectAttempts 0%nat (setState connected w)) in
  ws W = ws w ∧ state W = connected ∧ sockets W = sockets w
  ∧ promises W = promises w ∧ awaiting W = awaiting w
  ∧ activeSubscriptions W = activeSubscriptions w
  ∧ pendingSubscriptions W = pendingSubscriptions w
  ∧ log W = log (setState connected w)
  ∧ errorHandlers W = errorHandlers w.
Proof.
  unfold startHeartbeat, stopHeartbeat, setInterval, addTimer, clearTimer, setState.
  repeat case_match; simplify_eq; cbn; split_and!; done.
Qed.

Section ResubscribeRun.
Variables (w : World) (sock : nat).

Lemma subscribeChannels_resubscribe :
ws w = Some sock → state w = connected →
subscribeChannels (channels (activeSubscriptions w)) w
= (sent_world (channel_command (channels (activeSubscriptions w))) sock
     (with_activeSubscriptions (activeSubscriptions w) w),
   length (promises w)).
Proof.
intros Hws Hst. unfold subscribeChannels. rewrite with_channels_self.
by rewrite (sendSubscription_connected _ _ sock).
Qed.

Lemma subscribeEventTypes_resubscribe :
ws w = Some sock → state w = connected →
subscribeEventTypes (eventTypes (activeSubscriptions w)) w
= (sent_world (eventType_command (eventTypes (activeSubscriptions w))) sock
     (with_activeSubscriptions (activeSubscriptions w) w),
   length (promises w)).
Proof.
intros Hws Hst. unfold subscribeEventTypes. rewrite with_eventTypes_self.
by rewrite (sendSubscription_connected _ _ sock).
Qed.

Lemma resubscribe_eventTypes_sends :
ws w = Some sock → state w = connected →
eventTypes (activeSubscriptions w) ≠ [] →
resubscribe_eventTypes w
= await (length (promises w)) ResumeEnd
    (sent_world (eventType_command (eventTypes (activeSubscriptions w))) sock
       (with_activeSubscriptions (activeSubscriptions w) w)).
Proof.
intros Hws Hst Hne. unfold resubscribe_eventTypes.
destruct (eventTypes (activeSubscriptions w)) as [|x l] eqn:E; [done|].
rewrite <- E. by rewrite subscribeEventTypes_resubscribe.
Qed.

Lemma resubscribe_channels_sends :
ws w = Some sock → state w = connected →
channels (activeSubscriptions w) ≠ [] →
resubscribe_channels w
= await (length (promises w)) ResumeEventTypes
    (sent_world (channel_command (channels (activeSubscriptions w))) sock
       (with_activeSubscriptions (activeSubscriptions w) w)).
Proof.
intros Hws Hst Hne. unfold resubscribe_channels.
destruct (channels (activeSubscriptions w)) as [|x l] eqn:E; [done|].
rewrite <- E. by rewrite subscribeChannels_resubscribe.
Qed.
End ResubscribeRun.

Lemma resubscribe_opens (w : World) (sock : nat) (s : Socket) :
  sockets w !! sock = Some s → ws w = Some sock → awaiting w = [] →
  (sock_connect s < length (promises w))%nat →
  subscribedToAll (activeSubscriptions w) = false →
  channels (activeSubscriptions w) ≠ [] →
  let w1 := step (SocketOpen sock) w in
  resubscribing w1 sock (length (promises w)) "subscribe:channel" ResumeEventTypes
  ∧ sent sock w1 = sent sock w ++ [channel_command (channels (activeSubscriptions w))]
  ∧ activeSubscriptions w1 = activeSubscriptions w
  ∧ log w1 = log (setState connected w)
  ∧ errorHandlers w1 = errorHandlers w
  ∧ length (promises w1) = S (length (promises w)).
Proof.
  intros Hs Hws Haw Hcp Hall Hch w1.
  unfold w1, step. cbn [handle]. unfold onopen. rewrite Hs.
  destruct (onopen_prefix w) as (Pws & Pst & Psk & Ppr & Paw & Pac & Ppe & Plog & Perr).
  set (W := startHeartbeat (with_reconnectAttempts 0%nat (setState connected w))) in *.
  clearbody W.
  unfold resubscribe. rewrite Pac, Hall.
  rewrite (resubscribe_channels_sends W sock) by congruence.
  rewrite Ppr, Pac.
  set (chs := channels (activeSubscriptions w)) in *.
  set (W1 := settle _ _ _).
  assert (Hp : promises W1 !! length (promises w) = Some Pending).
  { unfold W1. rewrite settle_other by lia. unfold await, sent_world. cbn.
    rewrite Ppr. apply lookup_snoc. }
  assert (Ha : awaiting W1 = [mkAwaiting (length (promises w)) ResumeEventTypes]).
  { unfold W1, await, sent_world. cbn. by rewrite Paw, Haw. }
  rewrite (checkpoint_waiting W1 _ Ha Hp).
  unfold resubscribing. cbn.
  split_and!.
  - unfold W1. cbn. congruence.
  - unfold W1. cbn. done.
  - unfold W1. cbn. rewrite list_lookup_alter_eq, Psk, Hs. by eexists.
  - done.
  - done.
  - unfold W1. cbn. rewrite Ppr. eexists. apply lookup_insert_eq.
  - unfold sent. unfold W1. cbn. rewrite list_lookup_alter_eq, Psk, Hs. done.
  - unfold W1. cbn. done.
  - unfold W1. cbn. done.
  - unfold W1. cbn. done.
  - unfold W1, settle. cbn. rewrite Ppr.
    case_match; [case_match|]; rewrite ?length_insert, length_app; cbn; lia.
Qed.


Section Parked.
Variables (w : World) (sock p : nat) (key : string) (k : Resume).
Hypothesis Hrun : resubscribing w sock p key k.

Lemma confirmation_resolves c :
confirmation_key c = key → conf_type c = subscription_confirmed →
∃ t, handle (SocketMessage sock (FrameConfirmation c)) w
     = settle p (Fulfilled (Some c))
         (clearTimer t
            (with_pendingSubscriptions (delete key (pendingSubscriptions w)) w)).
Proof.
destruct Hrun as (Hws & Hst & [s Hs] & Ha & Hp & t & Hq).
intros Hk Hc. exists t. cbn [handle]. unfold onmessage, handleMessage.
by rewrite Hs, Hk, Hq, Hc.
Qed.



End Parked.

Lemma confirmation_advances (w : World) (sock p : nat) (key : string)
  (c : SubscriptionConfirmation) :
  resubscribing w sock p key ResumeEventTypes →
  confirmation_key c = key → conf_type c = subscription_confirmed →
  eventTypes (activeSubscriptions w) ≠ [] →
  let w' := step (SocketMessage sock (FrameConfirmation c)) w in
  resubscribing w' sock (length (promises w)) "subscribe:event_type" ResumeEnd
  ∧ sent sock w'
    = sent sock w ++ [eventType_command (eventTypes (activeSubscriptions w))]
  ∧ activeSubscriptions w' = activeSubscriptions w
  ∧ log w' = log w
  ∧ promises w' !! p = Some (Fulfilled (Some c)).
Proof.
  intros Hrun Hk Hc Hne w'.
  destruct (confirmation_resolves w sock p key _ Hrun c Hk Hc) as [t Ht].
  destruct Hrun as (Hws & Hst & [s Hs] & Ha & Hp & _).
  unfold w', step. rewrite Ht. clear Ht.
  set (W := settle _ _ _).
  assert (HpW : promises W !! p = Some (Fulfilled (Some c))).
  { unfold W. by apply settle_pending. }
  assert (HlW : length (promises W) = length (promises w)).
  { unfold W, settle. cbn. rewrite Hp. by rewrite length_insert. }
  assert (HW : ws W = Some sock ∧ state W = connected ∧ sockets W = sockets w
               ∧ awaiting W = awaiting w ∧ log W = log w
               ∧ activeSubscriptions W = activeSubscriptions w) by done.
  destruct HW as (Wws & Wst & Wsk & Waw & Wlog & Wac).
  clearbody W.
  unfold checkpoint.
  rewrite (drain_ready W (mkAwaiting p ResumeEventTypes))
    by (try congruence; unfold settled; cbn; by rewrite HpW).
  unfold resume. cbn [aw_promise aw_resume].
  replace (promises (with_awaiting [] W) !! p) with (Some (Fulfilled (Some c))) by done.
  rewrite (resubscribe_eventTypes_sends _ sock) by (cbn; congruence).
  set (W1 := await _ _ _).
  assert (Hp1 : promises W1 !! length (promises w) = Some Pending).
  { unfold W1, await, sent_world. cbn. rewrite <- HlW. apply lookup_snoc. }
  assert (Ha1 : awaiting W1 = [mkAwaiting (length (promises w)) ResumeEnd]).
  { unfold W1, await, sent_world. cbn. by rewrite HlW. }
  rewrite (drain_waiting W1 _ Ha1) by (by apply settled_pending).
  assert (Hlen : (p < length (promises w))%nat) by (by apply lookup_lt_Some in Hp).
  unfold resubscribing. cbn. split_and!.
  - unfold W1. by cbn.
  - unfold W1. by cbn.
  - unfold W1. cbn. rewrite list_lookup_alter_eq, Wsk, Hs. by eexists.
  - done.
  - done.
  - unfold W1. cbn. rewrite HlW. eexists. apply lookup_insert_eq.
  - unfold sent, W1. cbn. rewrite list_lookup_alter_eq, Wsk, Hs. cbn.
    by rewrite Wac.
  - unfold W1. by cbn.
  - unfold W1. by cbn.
  - unfold W1. cbn. rewrite lookup_app_l by lia. done.
Qed.

Lemma confirmation_completes (w : World) (sock p : nat) (key : string)
  (c : SubscriptionConfirmation) :
  resubscribing w sock p key ResumeEnd →
  confirmation_key c = key → conf_type c = subscription_confirmed →
  let w' := step (SocketMessage sock (FrameConfirmation c)) w in
  awaiting w' = []
  ∧ sockets w' = sockets w
  ∧ log w' = log w
  ∧ state w' = connected
  ∧ activeSubscriptions w' = activeSubscriptions w
  ∧ promises w' !! p = Some (Fulfilled (Some c)).
Proof.
  intros Hrun Hk Hc w'.
  destruct (confirmation_resolves w sock p key _ Hrun c Hk Hc) as [t Ht].
  destruct Hrun as (Hws & Hst & [s Hs] & Ha & Hp & _).
  unfold w', step. rewrite Ht. clear Ht.
  set (W := settle _ _ _).
  assert (HpW : promises W !! p = Some (Fulfilled (Some c))).
  { unfold W. by apply settle_pending. }
  assert (HW : state W = connected ∧ sockets W = sockets w
               ∧ awaiting W = awaiting w ∧ log W = log w
               ∧ activeSubscriptions W = activeSubscriptions w) by done.
  destruct HW as (Wst & Wsk & Waw & Wlog & Wac).
  clearbody W.
  unfold checkpoint.
  rewrite (drain_ready W (mkAwaiting p ResumeEnd))
    by (try congruence; unfold settled; cbn; by rewrite HpW).
  unfold resume. cbn [aw_promise aw_resume].
  replace (promises (with_awaiting [] W) !! p) with (Some (Fulfilled (Some c))) by done.
  rewrite drain_idle by done. by cbn.
Qed.

(** * The claims *)

(** C1 (counterexample). With the registry all = false, channels a, b and
    event type x at the moment the reconnection succeeds, and a server that
    confirms every command, the run of [resubscribe()] has sent two commands
    when it ends, not three. *)
Lemma C1_three_commands_counterexample :
  activeSubscriptions about_to_reconnect = mkActive ["x"] ["a"; "b"] false
  ∧ state about_to_reconnect = connecting
  ∧ sent 1 about_to_reconnect = []
  ∧ let w := exec [SocketOpen 1;
                   SocketMessage 1 (confirmed "subscribe" "channel");
                   SocketMessage 1 (confirmed "subscribe" "event_type")]
               about_to_reconnect in
    state w = connected
    ∧ awaiting w = []
    ∧ sent 1 w = [channel_command ["a"; "b"]; eventType_command ["x"]]
    ∧ length (sent 1 w) ≠ 3%nat.
Proof. vm_compute. split_and!; congruence. Qed.

(** C1 (amended). With that registry, [resubscribe()] sends the channel
    command carrying a, b when the socket opens; once that command is
    confirmed it sends the event-type command carrying x; once that is
    confirmed the run is over. Exactly these two commands are sent, in this
    order, no all-events command, and no error is reported. *)
Theorem C1_resubscribe_fidelity (w : World) (sock : nat) (s : Socket)
  (c1 c2 : SubscriptionConfirmation) :
  sockets w !! sock = Some s → ws w = Some sock → awaiting w = [] →
  (sock_connect s < length (promises w))%nat →
  activeSubscriptions w = mkActive ["x"] ["a"; "b"] false →
  confirmation_key c1 = "subscribe:channel" → conf_type c1 = subscription_confirmed →
  confirmation_key c2 = "subscribe:event_type" → conf_type c2 = subscription_confirmed →
  let w1 := step (SocketOpen sock) w in
  let w2 := step (SocketMessage sock (FrameConfirmation c1)) w1 in
  let w3 := step (SocketMessage sock (FrameConfirmation c2)) w2 in
  sent sock w1 = sent sock w ++ [channel_command ["a"; "b"]]
  ∧ sent sock w2 = sent sock w ++ [channel_command ["a"; "b"]; eventType_command ["x"]]
  ∧ sent sock w3 = sent sock w2
  ∧ awaiting w3 = []
  ∧ log w3 = log (setState connected w).
Proof.
  intros Hs Hws Haw Hcp Hact Hk1 Hc1 Hk2 Hc2 w1 w2 w3.
  destruct (resubscribe_opens w sock s Hs Hws Haw Hcp) as (R1 & S1 & A1 & L1 & _).
  { by rewrite Hact. } { by rewrite Hact. }
  fold w1 in R1, S1, A1, L1. rewrite Hact in S1, A1. cbn in S1.
  destruct (confirmation_advances w1 sock _ _ c1 R1 Hk1 Hc1) as (R2 & S2 & A2 & L2 & _).
  { by rewrite A1. }
  fold w2 in R2, S2, A2, L2. rewrite A1 in S2, A2. cbn in S2.
  destruct (confirmation_completes w2 sock _ _ c2 R2 Hk2 Hc2) as (R3 & S3 & L3 & _).
  fold w3 in R3, S3, L3.
  split_and!.
  - done.
  - by rewrite S2, S1, <- app_assoc.
  - unfold sent. by rewrite S3.
  - done.
  - congruence.
Qed.

Lemma C1_resubscribe_fidelity_witness :
  let c1 := mkConfirmation subscription_confirmed "subscribe" "channel" ["a"; "b"] None in
  let c2 := mkConfirmation subscription_confirmed "subscribe" "event_type" ["x"] None in
  let w1 := step (SocketOpen 1) about_to_reconnect in
  let w2 := step (SocketMessage 1 (FrameConfirmation c1)) w1 in
  let w3 := step (SocketMessage 1 (FrameConfirmation c2)) w2 in
  sent 1 w1 = sent 1 about_to_reconnect ++ [channel_command ["a"; "b"]]
  ∧ sent 1 w2
    = sent 1 about_to_reconnect ++ [channel_command ["a"; "b"]; eventType_command ["x"]]
  ∧ sent 1 w3 = sent 1 w2
  ∧ awaiting w3 = []
  ∧ log w3 = log (setState connected about_to_reconnect).
Proof.
  apply (C1_resubscribe_fidelity about_to_reconnect 1
           (mkSocket "wss://wss.veroai.dev/ws" "t1" 3 true [] 0 None));
    vm_compute; reflexivity.
Defined.




(** C3. When [scheduleReconnect] arms its timer, the attempt counter has
    been incremented to N >= 1 and the delay is min(b * 2^(N-1), 30000) for
    the configured base interval b; for b = 1000 and N = 1..10 this is 1000,
    2000, 4000, 8000, 16000 and then 30000. *)
Theorem C3_backoff (w : World) (b : Z) (N : nat) :
  reconnectTimeout w = None →
  reconnectInterval (config w) = b →
  N = S (reconnectAttempts w) →
  let delay := Z.min (b * 2 ^ (Z.of_nat N - 1)) 30000 in
  reconnectAttempts (scheduleReconnect w) = N
  ∧ reconnectTimeout (scheduleReconnect w) = Some (length (timers w))
  ∧ timers (scheduleReconnect w)
    = timers w ++ [mkTimer (clock w + Z.max 0 delay) None ReconnectTimer true]
  ∧ (b = 1000 → (N ≤ 10)%nat →
     [1000; 2000; 4000; 8000; 16000; 30000; 30000; 30000; 30000; 30000]
       !! (N - 1)%nat = Some delay).
Proof.
  intros Ht Hb HN delay. unfold scheduleReconnect. rewrite Ht.
  unfold setTimeout, addTimer, setState.
  case_decide; simpl; rewrite <- HN, Hb; (split_and!; [done..|]).
  all: intros -> Hle; subst delay.
  all: do 11 (destruct N as [|N]; [by (try lia; vm_compute)|]); lia.
Qed.

Lemma C3_backoff_witness :
  reconnectAttempts (scheduleReconnect fresh) = 1%nat
  ∧ reconnectTimeout (scheduleReconnect fresh) = Some 0%nat
  ∧ timers (scheduleReconnect fresh) = [mkTimer 1000 None ReconnectTimer true]
  ∧ [1000; 2000; 4000; 8000; 16000; 30000; 30000; 30000; 30000; 30000] !! 0%nat
    = Some 1000.
Proof.
  destruct (C3_backoff fresh 1000 1 eq_refl eq_refl eq_refl) as (H1 & H2 & H3 & H4).
  split_and!; [exact H1 | exact H2 | exact H3 | apply H4; [reflexivity | lia]].
Defined.



(** C5 (the code at the failing input). [connect()] is called and, before
    its token arrives, [disconnect()]: the state is [disconnected] and
    auto-reconnect is off. Then the token and the WebSocket implementation
    arrive and the socket opens, with no further [connect()] call: the state
    is [connected], the new socket is the current one and is not closed, and
    the heartbeat runs. *)
Theorem C5_disconnect_overtaken_by_pending_connect :
  let w := exec [CallConnect; CallDisconnect] fresh in
  let late := [TokenSettled 0 (inr "t0"); WebSocketSettled 0; SocketOpen 0] in
  getState w = disconnected
  ∧ autoReconnect (config w) = false
  ∧ ws w = None
  ∧ connects w = [mkTask 0 AwaitToken]
  ∧ getState (exec late w) = connected
  ∧ ws (exec late w) = Some 0%nat
  ∧ heartbeatInterval (exec late w) = Some 0%nat
  ∧ sock_closed <$> sockets (exec late w) !! 0%nat = Some None.
Proof. vm_compute. split_and!; reflexivity. Qed.



(** C7. After any input the registry is what was asked for: a
    subscribe/unsubscribe call sets or clears the flag, adds or removes the
    ids, whether or not the client is connected; every other input (a
    rejection or confirmation frame, a timeout, a socket event, a resumed
    resubscribe run) leaves it as it is. And the command of a call is sent
    from a client whose registry is already updated while nothing was sent
    or registered as pending yet. *)
Theorem C7_registry_is_desired_state (i : Input) (w : World) :
  registry (step i w) = requested i (registry w)
  ∧ ∀ c, issued i = Some c →
         ∃ w0, handle i w = fst (sendSubscription c w0)
               ∧ registry w0 = requested i (registry w)
               ∧ sockets w0 = sockets w
               ∧ pendingSubscriptions w0 = pendingSubscriptions w.
Proof.
  split.
  - unfold step. by rewrite registry_checkpoint, registry_handle.
  - intros c Hc. destruct i; simplify_eq/=; eexists; (split; [reflexivity|]).
    all: split_and!; try done; unfold registry; cbn;
      by rewrite ?set_add_all_to_set, ?set_delete_all_to_set.
Qed.

Lemma C7_registry_is_desired_state_witness :
  let i := CallSubscribeChannels ["a"] in
  registry (step i fresh) = requested i (registry fresh)
  ∧ ∃ w0, handle i fresh = fst (sendSubscription (channel_command ["a"]) w0)
          ∧ registry w0 = requested i (registry fresh)
          ∧ sockets w0 = sockets fresh
          ∧ pendingSubscriptions w0 = pendingSubscriptions fresh.
Proof.
  intros i. destruct (C7_registry_is_desired_state i fresh) as [H1 H2].
  split; [exact H1 | apply H2; reflexivity].
Defined.



(** C9. When the token fetcher rejects, or no WebSocket implementation can
    be found, the promise of [connect()] is rejected with that error and the
    state is [disconnected]; the socket handle, the sockets, the heartbeat,
    the timers and the reconnect bookkeeping are exactly as before. *)
Theorem C9_connect_failure_before_socket (w : World) (task p : nat) (e : JsError) :
  promises w !! p = Some Pending →
  (connects w !! task = Some (mkTask p AwaitToken) →
   failed_before_socket w (handle (TokenSettled task (inl e)) w) p e)
  ∧ (∀ token, connects w !! task = Some (mkTask p (AwaitWebSocket token)) →
              getWebSocket (host w) = inl e →
              failed_before_socket w (handle (WebSocketSettled task) w) p e).
Proof.
  intros Hp. split.
  - intros Ht. cbn [handle]. unfold tokenSettled. rewrite Ht.
    by apply connect_catch_failed.
  - intros token Ht He. cbn [handle]. unfold webSocketSettled. rewrite Ht, He.
    by apply connect_catch_failed.
Qed.

Lemma C9_connect_failure_before_socket_witness :
  let w := fst (connect fresh) in
  let w' := tokenSettled 0 (inr "t0") (fst (connect (constructor host_bare None))) in
  failed_before_socket w (handle (TokenSettled 0 (inl (Error "401"))) w) 0 (Error "401")
  ∧ failed_before_socket w' (handle (WebSocketSettled 0) w') 0 WebSocket_unavailable.
Proof.
  intros w w'. split.
  - destruct (C9_connect_failure_before_socket w 0 0 (Error "401") eq_refl) as [H _].
    apply H. reflexivity.
  - destruct (C9_connect_failure_before_socket w' 0 0 WebSocket_unavailable eq_refl)
      as [_ H].
    apply (H "t0"); reflexivity.
Defined.

(** C10. [setState] with the current state returns the client unchanged,
    so no listener is called; with another state it calls every state
    listener once, in registration order. [disconnect()] in state
    [disconnected] notifies nobody. *)
Theorem C10_no_same_state_notification (w : World) (s : ConnectionState) :
  (state w = s → setState s w = w)
  ∧ (state w ≠ s →
     log (setState s w) = log w ++ map (λ h, StateHandlerCall h s) (stateHandlers w))
  ∧ (state w = disconnected →
     log (disconnect w) = log w ∧ state (disconnect w) = disconnected).
Proof.
  split_and!.
  - intros <-. apply setState_same.
  - intros H. unfold setState. by rewrite decide_False.
  - intros H. split; [|apply setState_state].
    unfold disconnect, setState, clearReconnectTimeout, stopHeartbeat,
      clearTimer, on_socket.
    repeat case_match; simpl in *; try done; congruence.
Qed.

Lemma C10_no_same_state_notification_witness :
  let w := onStateChange 5 fresh in
  setState disconnected w = w
  ∧ log (setState connecting w) = [StateHandlerCall 5 connecting]
  ∧ log (disconnect w) = []
  ∧ state (disconnect w) = disconnected.
Proof.
  intros w.
  destruct (C10_no_same_state_notification w disconnected) as (H1 & _ & H3).
  destruct (C10_no_same_state_notification w connecting) as (_ & H2 & _).
  destruct (H3 eq_refl) as [H4 H5].
  split_and!; [apply H1; reflexivity | apply H2; discriminate | exact H4 | exact H5].
Defined.

(** * Further properties of the client *)

(** X1. A socket that closes while the client is still [connecting]
    (the attempt made by [connect()] or by the reconnect timer): the
    heartbeat is stopped, the socket is dropped, a pending [connect()]
    promise is rejected with "Connection failed: <reason>" ("Unknown reason"
    when the close event carries none or an empty one), the state becomes
    [disconnected] with one notification per state listener, and no
    reconnect is scheduled: no timer is created, and the reconnect timer and
    attempt counter stay as they were. *)
Theorem X1_close_while_connecting_fails_connect
  (w : World) (sock : nat) (s : Socket) (reason : option string) :
  sockets w !! sock = Some s → state w = connecting →
  promises w !! sock_connect s = Some Pending →
  let w' := onclose sock reason w in
  state w' = disconnected
  ∧ ws w' = None
  ∧ heartbeatInterval w' = None
  ∧ promises w' !! sock_connect s
    = Some (Rejected (Error ("Connection failed: " +:+ reason_text reason)))
  ∧ reconnectTimeout w' = reconnectTimeout w
  ∧ reconnectAttempts w' = reconnectAttempts w
  ∧ length (timers w') = length (timers w)
  ∧ log w' = log w ++ map (λ h, StateHandlerCall h disconnected) (stateHandlers w).
Proof.
  intros Hs Hst Hp w'. unfold w', onclose. rewrite Hs.
  set (w2 := with_ws None (stopHeartbeat w)).
  assert (E : state w2 = connecting ∧ promises w2 = promises w
              ∧ heartbeatInterval w2 = None ∧ log w2 = log w
              ∧ stateHandlers w2 = stateHandlers w
              ∧ reconnectTimeout w2 = reconnectTimeout w
              ∧ reconnectAttempts w2 = reconnectAttempts w
              ∧ length (timers w2) = length (timers w) ∧ ws w2 = None).
  { unfold w2, stopHeartbeat, clearTimer.
    case_match; cbn; rewrite ?length_alter; split_and!; done. }
  destruct E as (E1 & E2 & E3 & E4 & E5 & E6 & E7 & E8 & E9). clearbody w2.
  rewrite decide_True by done.
  unfold setState, settle. cbn. rewrite E1, E2, Hp.
  rewrite decide_False by done. cbn.
  split_and!; try congruence.
  apply list_lookup_insert_eq. by apply lookup_lt_Some in Hp.
Qed.

Lemma X1_close_while_connecting_fails_connect_witness :
  let w' := onclose 1 None about_to_reconnect in
  state w' = disconnected
  ∧ promises w' !! 3%nat
    = Some (Rejected (Error "Connection failed: Unknown reason"))
  ∧ reconnectTimeout w' = reconnectTimeout about_to_reconnect
  ∧ length (timers w') = length (timers about_to_reconnect).
Proof.
  intros w'.
  destruct (X1_close_while_connecting_fails_connect about_to_reconnect 1 reconnect_socket None)
    as (H1 & _ & _ & H4 & H5 & _ & H7 & _);
    [vm_compute; reflexivity | vm_compute; reflexivity | vm_compute; reflexivity |].
  split_and!; [exact H1 | exact H4 | exact H5 | exact H7].
Defined.



Lemma shouldReconnect_spec w :
  shouldReconnect w = true ↔
  maxReconnectAttempts (config w) = 0
  ∨ Z.of_nat (reconnectAttempts w) < maxReconnectAttempts (config w).
Proof.
  unfold shouldReconnect. case_decide as H.
  - naive_solver.
  - rewrite bool_decide_eq_true. naive_solver.
Qed.

Lemma stopHeartbeat_frame w :
  let w2 := with_ws None (stopHeartbeat w) in
  state w2 = state w ∧ promises w2 = promises w ∧ heartbeatInterval w2 = None
  ∧ log w2 = log w ∧ stateHandlers w2 = stateHandlers w
  ∧ reconnectTimeout w2 = reconnectTimeout w
  ∧ reconnectAttempts w2 = reconnectAttempts w
  ∧ length (timers w2) = length (timers w) ∧ ws w2 = None
  ∧ config w2 = config w ∧ clock w2 = clock w ∧ sockets w2 = sockets w.
Proof.
  unfold stopHeartbeat, clearTimer.
  case_match; cbn; rewrite ?length_alter; split_and!; done.
Qed.

(** X2. A socket that closes in any other state than [connecting], with
    no reconnect timer pending: the socket is dropped and the heartbeat
    stopped. With [autoReconnect] on and attempts left (a budget of 0 means
    no limit), the state becomes [reconnecting], the attempt counter goes
    from n to n+1 and a new one-shot timer is armed, due after
    min(reconnectInterval * 2^n, 30000) ms. Otherwise the state becomes
    [disconnected], the counter is unchanged and no timer is created. *)
Theorem X2_close_schedules_reconnect_within_budget
  (w : World) (sock : nat) (s : Socket) (reason : option string) :
  sockets w !! sock = Some s → state w ≠ connecting → reconnectTimeout w = None →
  let w' := onclose sock reason w in
  let n := reconnectAttempts w in
  let budget := maxReconnectAttempts (config w) in
  ws w' = None ∧ heartbeatInterval w' = None
  ∧ (autoReconnect (config w) = true → budget = 0 ∨ Z.of_nat n < budget →
     state w' = reconnecting
     ∧ reconnectAttempts w' = S n
     ∧ reconnectTimeout w' = Some (length (timers w))
     ∧ timers w' !! length (timers w)
       = Some (mkTimer (clock w + Z.max 0 (Z.min (reconnectInterval (config w)
                                                  * 2 ^ Z.of_nat n) 30000))
                       None ReconnectTimer true))
  ∧ (autoReconnect (config w) = false ∨ (budget ≠ 0 ∧ budget ≤ Z.of_nat n) →
     state w' = disconnected
     ∧ reconnectAttempts w' = n
     ∧ reconnectTimeout w' = None
     ∧ length (timers w') = length (timers w)).
Proof.
  intros Hs Hst Hrt w' n budget. unfold w', onclose. rewrite Hs.
  assert (Hn : n = reconnectAttempts w) by done.
  assert (Hb : budget = maxReconnectAttempts (config w)) by done.
  clearbody n budget.
  destruct (stopHeartbeat_frame w)
    as (E1 & E2 & E3 & E4 & E5 & E6 & E7 & E8 & E9 & E10 & E11 & E12).
  set (w2 := with_ws None (stopHeartbeat w)) in *. clearbody w2.
  rewrite decide_False by congruence.
  set (w3 := setState disconnected w2).
  assert (F : state w3 = disconnected ∧ config w3 = config w
              ∧ reconnectAttempts w3 = n ∧ reconnectTimeout w3 = None
              ∧ timers w3 = timers w2 ∧ clock w3 = clock w
              ∧ ws w3 = None ∧ heartbeatInterval w3 = None).
  { unfold w3, setState. case_decide; cbn; split_and!; congruence. }
  destruct F as (F1 & F2 & F3 & F4 & F5 & F6 & F7 & F8). clearbody w3.
  assert (Hsr : shouldReconnect w3 = true ↔ budget = 0 ∨ Z.of_nat n < budget).
  { rewrite shouldReconnect_spec. by rewrite F2, F3, Hb. }
  rewrite F2.
  assert (G : ws (scheduleReconnect w3) = None
              ∧ heartbeatInterval (scheduleReconnect w3) = None
              ∧ state (scheduleReconnect w3) = reconnecting
              ∧ reconnectAttempts (scheduleReconnect w3) = S n
              ∧ reconnectTimeout (scheduleReconnect w3) = Some (length (timers w))
              ∧ timers (scheduleReconnect w3) !! length (timers w)
                = Some (mkTimer (clock w + Z.max 0 (Z.min (reconnectInterval (config w)
                                                  * 2 ^ Z.of_nat n) 30000))
                       None ReconnectTimer true)).
  { unfold scheduleReconnect. rewrite F4. unfold setTimeout, addTimer, setState.
    rewrite decide_False by congruence. cbn.
    rewrite F2, F3, F5, F6, F7, F8, E8. split_and!; try done.
    rewrite <- E8.
    replace (Z.of_nat (S n) - 1) with (Z.of_nat n) by lia.
    apply lookup_snoc. }
  destruct G as (G1 & G2 & G3 & G4 & G5 & G6).
  destruct (autoReconnect (config w)) eqn:Ea; cbn [andb].
  - destruct (shouldReconnect w3) eqn:Eb.
    + split_and!; try done. intros [|[H1 H2]]; [done|].
      exfalso. destruct (proj1 Hsr eq_refl); lia.
    + split_and!; try done.
      * intros _ Hb'. apply Hsr in Hb'. discriminate.
      * intros _. split_and!; congruence.
  - split_and!; try done. intros _. split_and!; congruence.
Qed.

Lemma X2_close_schedules_reconnect_within_budget_witness :
  let w' := onclose 0 None online in
  state w' = reconnecting
  ∧ reconnectAttempts w' = S (reconnectAttempts online)
  ∧ reconnectTimeout w' = Some (length (timers online)).
Proof.
  intros w'.
  destruct (X2_close_schedules_reconnect_within_budget online 0 first_socket None)
    as (_ & _ & H & _);
    [vm_compute; reflexivity | vm_compute; discriminate | vm_compute; reflexivity |].
  destruct H as (H1 & H2 & H3 & _);
    [vm_compute; reflexivity | right; vm_compute; reflexivity |].
  split_and!; [exact H1 | exact H2 | exact H3].
Defined.


Section Continue.
Variables (W : World) (sock : nat).
Hypothesis Hws : ws W = Some sock.
Hypothesis Hst : state W = connected.

Lemma resubscribe_eventTypes_spec :
  resubscribe_eventTypes W
  = parked W sock (resubscribe_next ResumeEventTypes (activeSubscriptions W)).
Proof.
  unfold resubscribe_next.
  destruct (eventTypes (activeSubscriptions W)) as [|x l] eqn:E.
  - unfold resubscribe_eventTypes. by rewrite E.
  - rewrite <- E. rewrite (resubscribe_eventTypes_sends W sock) by (try done; by rewrite E).
    done.
Qed.

Lemma resubscribe_channels_spec :
  resubscribe_channels W
  = parked W sock (resubscribe_next ResumeChannels (activeSubscriptions W)).
Proof.
  unfold resubscribe_next.
  destruct (channels (activeSubscriptions W)) as [|x l] eqn:E.
  - unfold resubscribe_channels. rewrite E. apply resubscribe_eventTypes_spec.
  - rewrite <- E. rewrite (resubscribe_channels_sends W sock) by (try done; by rewrite E).
    done.
Qed.

Lemma subscribeAll_resubscribe :
  subscribedToAll (activeSubscriptions W) = true →
  subscribeAll W
  = (sent_world all_command sock (with_activeSubscriptions (activeSubscriptions W) W),
     length (promises W)).
Proof.
  intros H. unfold subscribeAll. rewrite with_subscribedToAll_self by done.
  by rewrite (sendSubscription_connected _ _ sock).
Qed.

Lemma resubscribe_spec :
  resubscribe W = parked W sock (resubscribe_start (activeSubscriptions W)).
Proof.
  unfold resubscribe, resubscribe_start.
  destruct (subscribedToAll (activeSubscriptions W)) eqn:E.
  - by rewrite subscribeAll_resubscribe.
  - apply resubscribe_channels_spec.
Qed.

Lemma resume_fulfilled p k v :
  promises W !! p = Some (Fulfilled v) →
  resume (mkAwaiting p k) W = parked W sock (resubscribe_next k (activeSubscriptions W)).
Proof.
  intros Hp. unfold resume. cbn. rewrite Hp.
  destruct k; auto using resubscribe_channels_spec, resubscribe_eventTypes_spec.
Qed.
End Continue.


(** A parked run seen from outside. *)
Lemma parked_run_after (w W : World) (sock : nat) (s : Socket)
  (next : option (SubscriptionCommand * Resume)) :
  ws W = Some sock → state W = connected → sockets W = sockets w →
  sockets w !! sock = Some s → awaiting W = [] →
  length (promises W) = length (promises w) →
  ∀ W', W' = parked W sock next →
  match next with
  | Some (c, k) =>
      awaiting W' = [mkAwaiting (length (promises w)) k]
      ∧ promises W' = promises W ++ [Pending]
      ∧ (∃ t, pendingSubscriptions W' !! command_key c
              = Some (mkPending (length (promises w)) t))
      ∧ sent sock W' = sent sock w ++ [c]
      ∧ is_Some (sockets W' !! sock)
  | None => awaiting W' = [] ∧ sockets W' = sockets w ∧ promises W' = promises W
  end
  ∧ ws W' = Some sock ∧ state W' = connected
  ∧ activeSubscriptions W' = activeSubscriptions W
  ∧ log W' = log W ∧ errorHandlers W' = errorHandlers W.
Proof.
  intros Hws Hst Hsk Hs Haw Hlen W' ->. destruct next as [[c k]|]; cbn.
  - rewrite Haw, Hlen. split_and!; try done.
    + eexists. apply lookup_insert_eq.
    + unfold sent. cbn. by rewrite list_lookup_alter_eq, Hsk, Hs.
    + rewrite list_lookup_alter_eq, Hsk, Hs. by eexists.
  - done.
Qed.

(** What a confirmation does to a parked run. *)
Lemma confirmation_continues (w : World) (sock p : nat) (key : string)
  (k : Resume) (c : SubscriptionConfirmation) :
  resubscribing w sock p key k →
  confirmation_key c = key → conf_type c = subscription_confirmed →
  let w' := step (SocketMessage sock (FrameConfirmation c)) w in
  run_after w w' sock (resubscribe_next k (activeSubscriptions w))
  ∧ activeSubscriptions w' = activeSubscriptions w
  ∧ log w' = log w
  ∧ state w' = connected
  ∧ promises w' !! p = Some (Fulfilled (Some c)).
Proof.
  intros Hrun Hk Hc w'.
  destruct (confirmation_resolves w sock p key _ Hrun c Hk Hc) as [t Ht].
  destruct Hrun as (Hws & Hst & [s Hs] & Ha & Hp & _).
  unfold w', step. rewrite Ht. clear Ht.
  set (W := settle _ _ _).
  assert (HpW : promises W !! p = Some (Fulfilled (Some c))).
  { unfold W. by apply settle_pending. }
  assert (HlW : length (promises W) = length (promises w)).
  { unfold W, settle. cbn. rewrite Hp. by rewrite length_insert. }
  assert (HW : ws W = Some sock ∧ state W = connected ∧ sockets W = sockets w
               ∧ awaiting W = awaiting w ∧ log W = log w
               ∧ activeSubscriptions W = activeSubscriptions w) by done.
  destruct HW as (Wws & Wst & Wsk & Waw & Wlog & Wac).
  clearbody W.
  unfold checkpoint.
  rewrite (drain_ready W (mkAwaiting p k))
    by (try congruence; unfold settled; cbn; by rewrite HpW).
  set (W0 := with_awaiting [] W).
  assert (HW0 : ws W0 = Some sock ∧ state W0 = connected ∧ sockets W0 = sockets w
                ∧ awaiting W0 = [] ∧ log W0 = log w
                ∧ activeSubscriptions W0 = activeSubscriptions w
                ∧ promises W0 = promises W) by done.
  destruct HW0 as (Zws & Zst & Zsk & Zaw & Zlog & Zac & Zpr).
  clearbody W0.
  rewrite (resume_fulfilled W0 sock Zws Zst p k (Some c)) by congruence.
  rewrite Zac.
  set (next := resubscribe_next k (activeSubscriptions w)).
  set (W1 := parked W0 sock next).
  destruct (parked_run_after w W0 sock s next Zws Zst Zsk Hs Zaw
              ltac:(congruence) W1 eq_refl)
    as (H1 & H2 & H3 & H4 & H5 & H6).
  assert (Hlt : (p < length (promises w))%nat) by (by apply lookup_lt_Some in Hp).
  clearbody W1. clearbody next.
  destruct next as [[c' k']|].
  - destruct H1 as (A1 & A2 & A3 & A4 & A5).
    assert (Hp1 : promises W1 !! length (promises w) = Some Pending).
    { rewrite A2, Zpr, <- HlW. apply lookup_snoc. }
    rewrite (drain_waiting W1 _ A1) by (by apply settled_pending).
    unfold run_after, resubscribing. cbn.
    split_and!; try done; try congruence.
    rewrite A2, Zpr. rewrite lookup_app_l by lia. done.
  - destruct H1 as (A1 & A2 & A3).
    rewrite drain_idle by done. unfold run_after. cbn.
    split_and!; try done; try congruence.
Qed.

(** X5. A [subscription_confirmed] frame for the command a
    [resubscribe()] run is parked on resolves that command's promise, and
    the run sends the next non-empty part of the registry (channels after
    "all", event types after channels) and parks again, or ends when nothing
    is left. No listener is called and the registry is unchanged. *)
Theorem X5_confirmation_sends_next_command (w : World) (sock p : nat) (key : string)
  (k : Resume) (c : SubscriptionConfirmation) :
  resubscribing w sock p key k →
  confirmation_key c = key → conf_type c = subscription_confirmed →
  let w' := step (SocketMessage sock (FrameConfirmation c)) w in
  run_after w w' sock (resubscribe_next k (activeSubscriptions w))
  ∧ activeSubscriptions w' = activeSubscriptions w
  ∧ log w' = log w
  ∧ state w' = connected
  ∧ promises w' !! p = Some (Fulfilled (Some c)).
Proof. apply confirmation_continues. Qed.

Lemma X5_confirmation_sends_next_command_witness :
  let w := step (SocketOpen 1) about_to_reconnect in
  let c := mkConfirmation subscription_confirmed "subscribe" "channel" ["a"; "b"] None in
  let w' := step (SocketMessage 1 (FrameConfirmation c)) w in
  run_after w w' 1 (resubscribe_next ResumeEventTypes (activeSubscriptions w))
  ∧ promises w' !! 4%nat = Some (Fulfilled (Some c)).
Proof.
  intros w c w'.
  assert (Hrun : resubscribing w 1 4 "subscribe:channel" ResumeEventTypes).
  { vm_compute. split_and!; try reflexivity; eexists; reflexivity. }
  destruct (X5_confirmation_sends_next_command w 1 4 "subscribe:channel" ResumeEventTypes c
              Hrun eq_refl eq_refl) as (H1 & _ & _ & _ & H5).
  split; [exact H1 | exact H5].
Defined.

(** What the open event of the current socket replays. *)
Lemma open_replays (w : World) (sock : nat) (s : Socket) :
  sockets w !! sock = Some s → ws w = Some sock → awaiting w = [] →
  (sock_connect s < length (promises w))%nat →
  let w' := step (SocketOpen sock) w in
  run_after w w' sock (resubscribe_start (activeSubscriptions w))
  ∧ activeSubscriptions w' = activeSubscriptions w
  ∧ log w' = log (setState connected w)
  ∧ state w' = connected
  ∧ reconnectAttempts w' = 0%nat.
Proof.
  intros Hs Hws Haw Hcp w'.
  unfold w', step. cbn [handle]. unfold onopen. rewrite Hs.
  destruct (onopen_prefix w) as (Pws & Pst & Psk & Ppr & Paw & Pac & Ppe & Plog & Perr).
  assert (Pra : reconnectAttempts
                  (startHeartbeat (with_reconnectAttempts 0%nat (setState connected w)))
                = 0%nat).
  { unfold startHeartbeat, stopHeartbeat, setInterval, addTimer, clearTimer.
    by case_match. }
  set (W := startHeartbeat (with_reconnectAttempts 0%nat (setState connected w))) in *.
  clearbody W.
  rewrite (resubscribe_spec W sock) by congruence.
  rewrite Pac.
  set (next := resubscribe_start (activeSubscriptions w)).
  set (W1 := parked W sock next).
  destruct (parked_run_after w W sock s next ltac:(congruence) Pst Psk Hs
              ltac:(congruence) ltac:(congruence) W1 eq_refl)
    as (H1 & H2 & H3 & H4 & H5 & H6).
  assert (Hra : reconnectAttempts W1 = 0%nat).
  { unfold W1, parked. destruct next as [[? ?]|]; done. }
  clearbody W1. clearbody next.
  set (W2 := settle (sock_connect s) (Fulfilled None) W1).
  assert (HW2 : ws W2 = ws W1 ∧ state W2 = state W1 ∧ sockets W2 = sockets W1
                ∧ awaiting W2 = awaiting W1 ∧ log W2 = log W1
                ∧ activeSubscriptions W2 = activeSubscriptions W1
                ∧ pendingSubscriptions W2 = pendingSubscriptions W1
                ∧ reconnectAttempts W2 = reconnectAttempts W1) by done.
  destruct HW2 as (B1 & B2 & B3 & B4 & B5 & B6 & B7 & B8).
  destruct next as [[c' k']|].
  - destruct H1 as (A1 & A2 & A3 & A4 & A5).
    assert (Hp2 : promises W2 !! length (promises w) = Some Pending).
    { unfold W2. rewrite settle_other by lia. rewrite A2, <- Ppr. apply lookup_snoc. }
    clearbody W2.
    rewrite (checkpoint_waiting W2 (mkAwaiting (length (promises w)) k'))
      by (try done; congruence).
    unfold run_after, resubscribing. cbn.
    split_and!; try done; try congruence.
    + by rewrite B7.
    + unfold sent in *. cbn. by rewrite B3.
  - destruct H1 as (A1 & A2 & A3). clearbody W2.
    rewrite checkpoint_idle by congruence.
    unfold run_after. cbn. split_and!; congruence.
Qed.

(** X4. The open event of the current socket: the state becomes
    [connected] (listeners notified once), the attempt counter is reset to
    0, the registry is unchanged, and [resubscribe()] sends exactly its
    first command: "all" if subscribed to all, else the channel list if not
    empty, else the event-type list if not empty, else nothing. After a
    command is sent the run is parked on that command's promise. *)
Theorem X4_open_replays_registry (w : World) (sock : nat) (s : Socket) :
  sockets w !! sock = Some s → ws w = Some sock → awaiting w = [] →
  (sock_connect s < length (promises w))%nat →
  let w' := step (SocketOpen sock) w in
  run_after w w' sock (resubscribe_start (activeSubscriptions w))
  ∧ activeSubscriptions w' = activeSubscriptions w
  ∧ log w' = log (setState connected w)
  ∧ state w' = connected
  ∧ reconnectAttempts w' = 0%nat.
Proof. apply open_replays. Qed.

Lemma X4_open_replays_registry_witness :
  let w' := step (SocketOpen 1) about_to_reconnect in
  run_after about_to_reconnect w' 1
    (resubscribe_start (activeSubscriptions about_to_reconnect))
  ∧ state w' = connected
  ∧ reconnectAttempts w' = 0%nat.
Proof.
  intros w'.
  destruct (X4_open_replays_registry about_to_reconnect 1 reconnect_socket)
    as (H1 & _ & _ & H4 & H5);
    [vm_compute; reflexivity | vm_compute; reflexivity | vm_compute; reflexivity
    | vm_compute; lia |].
  split_and!; [exact H1 | exact H4 | exact H5].
Defined.


(** X6. With a registry that has the "all" flag, channels and event
    types, the open event and the three confirmations make the client send
    exactly three commands, in the order all, channels, event types, each
    one only after the confirmation of the one before; after the third
    confirmation nothing more is sent and the run is over. *)
Theorem X6_full_registry_replays_three_commands
  (w : World) (sock : nat) (s : Socket) (c1 c2 c3 : SubscriptionConfirmation) :
  sockets w !! sock = Some s → ws w = Some sock → awaiting w = [] →
  (sock_connect s < length (promises w))%nat →
  subscribedToAll (activeSubscriptions w) = true →
  channels (activeSubscriptions w) ≠ [] →
  eventTypes (activeSubscriptions w) ≠ [] →
  conf_type c1 = subscription_confirmed → confirmation_key c1 = "subscribe:all" →
  conf_type c2 = subscription_confirmed → confirmation_key c2 = "subscribe:channel" →
  conf_type c3 = subscription_confirmed → confirmation_key c3 = "subscribe:event_type" →
  let chs := channel_command (channels (activeSubscriptions w)) in
  let evs := eventType_command (eventTypes (activeSubscriptions w)) in
  let w1 := step (SocketOpen sock) w in
  let w2 := step (SocketMessage sock (FrameConfirmation c1)) w1 in
  let w3 := step (SocketMessage sock (FrameConfirmation c2)) w2 in
  let w4 := step (SocketMessage sock (FrameConfirmation c3)) w3 in
  sent sock w1 = sent sock w ++ [all_command]
  ∧ sent sock w2 = sent sock w ++ [all_command; chs]
  ∧ sent sock w3 = sent sock w ++ [all_command; chs; evs]
  ∧ sent sock w4 = sent sock w3
  ∧ awaiting w4 = []
  ∧ log w4 = log (setState connected w).
Proof.
  intros Hs Hws Haw Hcp Hall Hch Hev T1 K1 T2 K2 T3 K3 chs evs w1 w2 w3 w4.
  destruct (open_replays w sock s Hs Hws Haw Hcp) as (R1 & A1 & L1 & _).
  fold w1 in R1, A1, L1.
  unfold resubscribe_start in R1. rewrite Hall in R1. destruct R1 as [R1 S1].
  destruct (confirmation_continues w1 sock _ _ _ c1 R1 K1 T1)
    as (R2 & A2 & L2 & _).
  fold w2 in R2, A2, L2. rewrite A1 in R2. unfold resubscribe_next in R2.
  destruct (channels (activeSubscriptions w)) as [|x l] eqn:E1; [done|].
  destruct R2 as [R2 S2].
  destruct (confirmation_continues w2 sock _ _ _ c2 R2 K2 T2)
    as (R3 & A3 & L3 & _).
  fold w3 in R3, A3, L3. rewrite A2, A1 in R3. unfold resubscribe_next in R3.
  destruct (eventTypes (activeSubscriptions w)) as [|y l'] eqn:E2; [done|].
  destruct R3 as [R3 S3].
  destruct (confirmation_continues w3 sock _ _ _ c3 R3 K3 T3)
    as (R4 & A4 & L4 & _).
  fold w4 in R4, A4, L4. destruct R4 as [R4 S4].
  split_and!.
  - done.
  - unfold chs. by rewrite S2, S1, <- app_assoc.
  - unfold chs, evs. by rewrite S3, S2, S1, <- !app_assoc.
  - unfold sent. by rewrite S4.
  - done.
  - congruence.
Qed.

Lemma X6_full_registry_replays_three_commands_witness :
  let c1 := mkConfirmation subscription_confirmed "subscribe" "all" [] None in
  let c2 := mkConfirmation subscription_confirmed "subscribe" "channel" ["a"] None in
  let c3 := mkConfirmation subscription_confirmed "subscribe" "event_type" ["x"] None in
  let chs := channel_command (channels (activeSubscriptions offline_subscriber)) in
  let evs := eventType_command (eventTypes (activeSubscriptions offline_subscriber)) in
  let w1 := step (SocketOpen 0) offline_subscriber in
  let w2 := step (SocketMessage 0 (FrameConfirmation c1)) w1 in
  let w3 := step (SocketMessage 0 (FrameConfirmation c2)) w2 in
  let w4 := step (SocketMessage 0 (FrameConfirmation c3)) w3 in
  sent 0 w3 = sent 0 offline_subscriber ++ [all_command; chs; evs]
  ∧ sent 0 w4 = sent 0 w3
  ∧ awaiting w4 = [].
Proof.
  intros c1 c2 c3 chs evs w1 w2 w3 w4.
  assert (H1 : sockets offline_subscriber !! 0%nat = Some subscriber_socket)
    by (vm_compute; reflexivity).
  assert (H2 : ws offline_subscriber = Some 0%nat) by (vm_compute; reflexivity).
  assert (H3 : awaiting offline_subscriber = []) by (vm_compute; reflexivity).
  assert (H4 : (sock_connect subscriber_socket < length (promises offline_subscriber))%nat)
    by (vm_compute; lia).
  assert (H5 : subscribedToAll (activeSubscriptions offline_subscriber) = true)
    by (vm_compute; reflexivity).
  assert (H6 : channels (activeSubscriptions offline_subscriber) ≠ [])
    by (vm_compute; discriminate).
  assert (H7 : eventTypes (activeSubscriptions offline_subscriber) ≠ [])
    by (vm_compute; discriminate).
  destruct (X6_full_registry_replays_three_commands offline_subscriber 0 subscriber_socket
              c1 c2 c3 H1 H2 H3 H4 H5 H6 H7 eq_refl eq_refl eq_refl eq_refl eq_refl eq_refl)
    as (_ & _ & G3 & G4 & G5 & _).
  split_and!; [exact G3 | exact G4 | exact G5].
Defined.







(** X9. Frames the client has no use for (text that does not parse, a
    "connected" frame, a confirmation with no pending command under its key,
    an "event" frame without data, any other type) leave the connection,
    the timers, the promises, the pending commands and the registry as they
    are. Only unparsable text reaches the error listeners, as "Failed to
    parse message: <error>"; the others call no listener. *)
Theorem X9_stray_frames_are_harmless (w : World) (sock : nat) (s : Socket) (f : Frame) :
  sockets w !! sock = Some s →
  match f with
  | FrameConfirmation c => pendingSubscriptions w !! confirmation_key c = None
  | FrameEvent (Some _) => False
  | _ => True
  end →
  let w' := handle (SocketMessage sock f) w in
  connection_untouched w w'
  ∧ log w'
    = log w ++ match f with
               | FrameUnparsable e =>
                   map (λ h, ErrorHandlerCall h
                               (Error ("Failed to parse message: " +:+ JsError_toString e)))
                       (errorHandlers w)
               | _ => []
               end.
Proof.
  intros Hs Hf w'. unfold w'. cbn [handle]. unfold onmessage, connection_untouched.
  rewrite Hs.
  destruct f as [e| |c|[d|]|]; cbn; rewrite ?app_nil_r; try done.
  by rewrite Hf.
Qed.

Lemma X9_stray_frames_are_harmless_witness :
  connection_untouched online
    (handle (SocketMessage 0 (confirmed "subscribe" "channel")) online)
  ∧ connection_untouched online (handle (SocketMessage 0 FrameOther) online)
  ∧ connection_untouched online (handle (SocketMessage 0 (FrameEvent None)) online).
Proof.
  assert (H1 : sockets online !! 0%nat = Some first_socket) by (vm_compute; reflexivity).
  split_and!.
  - refine (proj1 (X9_stray_frames_are_harmless online 0 first_socket
                     (confirmed "subscribe" "channel") H1 _)).
    vm_compute; reflexivity.
  - exact (proj1 (X9_stray_frames_are_harmless online 0 first_socket FrameOther H1 I)).
  - exact (proj1 (X9_stray_frames_are_harmless online 0 first_socket (FrameEvent None) H1 I)).
Defined.

(** X10. An "event" frame with data is delivered once to every event
    listener, in registration order, and changes nothing else. The
    delivered event takes [tenantId], [channelId] and [eventType] from the
    snake_case field when it is present and not empty, and from the
    camelCase field otherwise; [id], [direction], [payload] and [timestamp]
    are copied. *)
Theorem X10_event_frame_reaches_every_listener (w : World) (sock : nat) (s : Socket)
  (d : EventData) :
  sockets w !! sock = Some s →
  let w' := handle (SocketMessage sock (FrameEvent (Some d))) w in
  let ev := normalize d in
  connection_untouched w w'
  ∧ log w' = log w ++ map (λ h, EventHandlerCall h ev) (eventHandlers w)
  ∧ ev_id ev = d_id d ∧ ev_direction ev = d_direction d
  ∧ ev_payload ev = d_payload d ∧ ev_timestamp ev = d_timestamp d
  ∧ (∀ v, d_tenant_id d = Some v → v ≠ "" → ev_tenantId ev = Some v)
  ∧ (d_tenant_id d = None ∨ d_tenant_id d = Some "" → ev_tenantId ev = d_tenantId d)
  ∧ (∀ v, d_channel_id d = Some v → v ≠ "" → ev_channelId ev = Some v)
  ∧ (d_channel_id d = None ∨ d_channel_id d = Some "" → ev_channelId ev = d_channelId d)
  ∧ (∀ v, d_event_type d = Some v → v ≠ "" → ev_eventType ev = Some v)
  ∧ (d_event_type d = None ∨ d_event_type d = Some "" → ev_eventType ev = d_eventType d).
Proof.
  intros Hs w' ev. unfold w', ev. cbn [handle]. unfold onmessage. rewrite Hs.
  unfold connection_untouched, normalize, js_or. cbn.
  split_and!; try done.
  all: try (intros v -> Hv; by rewrite decide_False).
  all: by intros [-> | ->].
Qed.

Lemma X10_event_frame_reaches_every_listener_witness :
  let d := mkEventData (Some "e1") (Some "t-snake") (Some "t-camel") None (Some "ch")
             None None (Some "") (Some "message.received") None None None None None None in
  let w := onEvent 9 online in
  let w' := handle (SocketMessage 0 (FrameEvent (Some d))) w in
  log w' = log w ++ map (λ h, EventHandlerCall h (normalize d)) (eventHandlers w)
  ∧ ev_tenantId (normalize d) = Some "t-snake"
  ∧ ev_channelId (normalize d) = Some "ch"
  ∧ ev_eventType (normalize d) = Some "message.received".
Proof.
  intros d w w'.
  assert (H1 : sockets w !! 0%nat = Some first_socket) by (vm_compute; reflexivity).
  destruct (X10_event_frame_reaches_every_listener w 0 first_socket d H1)
    as (_ & G2 & _ & _ & _ & _ & G7 & _ & _ & G10 & _ & G12).
  split_and!.
  - exact G2.
  - apply G7; [reflexivity | discriminate].
  - apply G10. left; reflexivity.
  - apply G12. right; reflexivity.
Defined.



Lemma handler_add_elem h l : h ∈ handler_add h l.
Proof. unfold handler_add. case_decide; set_solver. Qed.

Lemma handler_add_NoDup h l : NoDup l → NoDup (handler_add h l).
Proof.
  intros H. unfold handler_add. case_decide; [done|].
  apply NoDup_app. split_and!; [done| |apply NoDup_singleton].
  intros y Hy ->%list_elem_of_singleton. done.
Qed.

Lemma handler_add_twice h l : handler_add h (handler_add h l) = handler_add h l.
Proof.
  unfold handler_add at 1. rewrite decide_True; [done|apply handler_add_elem].
Qed.

Lemma handler_delete_elem h l : h ∉ handler_delete h l.
Proof. unfold handler_delete. rewrite list_elem_of_filter. naive_solver. Qed.

Lemma handler_delete_other h h' l : h' ≠ h → h' ∈ handler_delete h l ↔ h' ∈ l.
Proof. intros H. unfold handler_delete. rewrite list_elem_of_filter. naive_solver. Qed.

(** X11. Listeners are kept as a set. Registering a state listener twice
    keeps one entry, so a state change calls it once; the unsubscribe
    function removes exactly that listener and leaves the others; after
    [removeAllHandlers()] a state change, an error and an event call no
    listener at all. *)
Theorem X11_listeners_are_a_set (w : World) (h : nat) (s : ConnectionState) :
  NoDup (stateHandlers w) → state w ≠ s →
  let w1 := onStateChange h (onStateChange h w) in
  let w2 := offStateChange h w1 in
  NoDup (stateHandlers w1)
  ∧ h ∈ stateHandlers w1
  ∧ (∀ h', h' ∈ stateHandlers w → h' ∈ stateHandlers w1)
  ∧ log (setState s w1) = log w ++ map (λ h', StateHandlerCall h' s) (stateHandlers w1)
  ∧ (h ∉ stateHandlers w2)
  ∧ (∀ h', h' ≠ h → (h' ∈ stateHandlers w2 ↔ h' ∈ stateHandlers w))
  ∧ log (setState s w2) = log w ++ map (λ h', StateHandlerCall h' s) (stateHandlers w2)
  ∧ log (setState s (removeAllHandlers w)) = log w
  ∧ (∀ e, log (emitError e (removeAllHandlers w)) = log w)
  ∧ (∀ ev, log (emitEvent ev (removeAllHandlers w)) = log w).
Proof.
  intros Hnd Hs w1 w2.
  assert (E1 : stateHandlers w1 = handler_add h (stateHandlers w)).
  { unfold w1, onStateChange. cbn. apply handler_add_twice. }
  assert (E2 : stateHandlers w2 = handler_delete h (handler_add h (stateHandlers w))).
  { unfold w2, offStateChange. cbn. by rewrite handler_add_twice. }
  split_and!.
  - rewrite E1. by apply handler_add_NoDup.
  - rewrite E1. apply handler_add_elem.
  - intros h' Hh'. rewrite E1. unfold handler_add. case_decide; set_solver.
  - unfold setState. by rewrite decide_False.
  - rewrite E2. apply handler_delete_elem.
  - intros h' Hne. rewrite E2, handler_delete_other by done.
    unfold handler_add. case_decide; set_solver.
  - unfold setState. by rewrite decide_False.
  - unfold setState. rewrite decide_False by done. cbn. apply app_nil_r.
  - intros e. cbn. apply app_nil_r.
  - intros ev. cbn. apply app_nil_r.
Qed.

Lemma X11_listeners_are_a_set_witness :
  let w1 := onStateChange 5 (onStateChange 5 fresh) in
  NoDup (stateHandlers w1)
  ∧ log (setState connecting w1)
    = log fresh ++ map (λ h', StateHandlerCall h' connecting) (stateHandlers w1)
  ∧ log (setState connecting (removeAllHandlers fresh)) = log fresh.
Proof.
  intros w1.
  assert (H1 : NoDup (stateHandlers fresh)) by (vm_compute; apply NoDup_nil_2).
  assert (H2 : state fresh ≠ connecting) by (vm_compute; discriminate).
  destruct (X11_listeners_are_a_set fresh 5 connecting H1 H2)
    as (G1 & _ & _ & G4 & _ & _ & _ & G8 & _).
  split_and!; [exact G1 | exact G4 | exact G8].
Defined.


(** X12. [subscribe(options)] with no channel and no event type (absent
    or empty lists) fails with "Must specify at least one channel or event
    type" and [unsubscribe(options)] returns no result; neither sends a
    command nor changes the client. *)
Theorem X12_empty_options (w : World) (o : SubscribeOptions) :
  nonempty (o_channels o) = None → nonempty (o_eventTypes o) = None →
  subscribe o w = (w, inl (Error "Must specify at least one channel or event type"))
  ∧ unsubscribe o w = (w, []).
Proof.
  intros H1 H2. unfold subscribe, unsubscribe. by rewrite H1, H2.
Qed.

Lemma X12_empty_options_witness :
  subscribe (mkOptions (Some []) None) online
  = (online, inl (Error "Must specify at least one channel or event type"))
  ∧ unsubscribe (mkOptions (Some []) None) online = (online, []).
Proof.
  apply (X12_empty_options online (mkOptions (Some []) None)); reflexivity.
Defined.

(** X13. A subscription command issued while the client is not connected
    yields a promise rejected with "Not connected": nothing is put on a
    socket, no pending entry and no timer are created, and the state and
    the earlier promises are unchanged. *)
Theorem X13_offline_command_is_rejected (w : World) (c : SubscriptionCommand) :
  is_connected w = false →
  let w' := fst (sendSubscription c w) in
  let p := snd (sendSubscription c w) in
  promises w' !! p = Some (Rejected (Error "Not connected"))
  ∧ sockets w' = sockets w
  ∧ pendingSubscriptions w' = pendingSubscriptions w
  ∧ timers w' = timers w
  ∧ state w' = state w
  ∧ (∀ q, (q < length (promises w))%nat → promises w' !! q = promises w !! q).
Proof.
  intros H w' p. subst w' p. rewrite sendSubscription_not_connected by done.
  cbn. split_and!; try done.
  - apply lookup_snoc.
  - intros q Hq. by rewrite lookup_app_l.
Qed.

Lemma X13_offline_command_is_rejected_witness :
  let c := channel_command ["a"] in
  let w' := fst (sendSubscription c fresh) in
  let p := snd (sendSubscription c fresh) in
  promises w' !! p = Some (Rejected (Error "Not connected"))
  ∧ sockets w' = sockets fresh
  ∧ pendingSubscriptions w' = pendingSubscriptions fresh.
Proof.
  intros c w' p.
  assert (H1 : is_connected fresh = false) by (vm_compute; reflexivity).
  destruct (X13_offline_command_is_rejected fresh c H1) as (G1 & G2 & G3 & _).
  split_and!; [exact G1 | exact G2 | exact G3].
Defined.

(** X14. [subscribeChannels(ids)] called before the socket is open: the
    returned promise is rejected with "Not connected" and nothing is sent,
    but the ids are recorded, and the open event then sends one channel
    command that carries the recorded list (when not subscribed to all). *)
Theorem X14_subscription_before_open_is_replayed
  (w : World) (sock : nat) (s : Socket) (ids : list string) :
  sockets w !! sock = Some s → ws w = Some sock → state w ≠ connected →
  awaiting w = [] → (sock_connect s < length (promises w))%nat →
  subscribedToAll (activeSubscriptions w) = false → ids ≠ [] →
  let w1 := step (CallSubscribeChannels ids) w in
  let w2 := step (SocketOpen sock) w1 in
  promises w1 !! length (promises w) = Some (Rejected (Error "Not connected"))
  ∧ sent sock w1 = sent sock w
  ∧ (∀ id, id ∈ ids → id ∈ channels (activeSubscriptions w1))
  ∧ sent sock w2
    = sent sock w ++ [channel_command (channels (activeSubscriptions w1))].
Proof.
  intros Hs Hws Hst Haw Hcp Hall Hids w1 w2.
  assert (Hoff : is_connected
                   (with_channels (set_add_all ids (channels (activeSubscriptions w))) w)
                 = false).
  { unfold is_connected. cbn. rewrite Hws. by apply bool_decide_eq_false. }
  assert (E1 : handle (CallSubscribeChannels ids) w
               = with_promises (promises w ++ [Rejected (Error "Not connected")])
                   (with_channels (set_add_all ids (channels (activeSubscriptions w))) w)).
  { cbn [handle]. unfold subscribeChannels.
    by rewrite sendSubscription_not_connected. }
  assert (Hw1 : w1 = with_awaiting [] (with_awaiting [] (handle (CallSubscribeChannels ids) w))).
  { unfold w1, step. rewrite checkpoint_idle; [done|]. by rewrite E1. }
  rewrite E1 in Hw1.
  assert (F : sockets w1 = sockets w ∧ ws w1 = Some sock ∧ awaiting w1 = []
              ∧ promises w1 = promises w ++ [Rejected (Error "Not connected")]
              ∧ channels (activeSubscriptions w1)
                = set_add_all ids (channels (activeSubscriptions w))
              ∧ subscribedToAll (activeSubscriptions w1) = false).
  { rewrite Hw1. cbn. by rewrite Hws, Hall. }
  destruct F as (F1 & F2 & F3 & F4 & F5 & F6). clearbody w1.
  assert (Hne : channels (activeSubscriptions w1) ≠ []).
  { rewrite F5. destruct ids as [|i l]; [done|]. intros Hnil.
    assert (Hin : i ∈ set_add_all (i :: l) (channels (activeSubscriptions w))).
    { apply (elem_of_list_to_set (C:=gset string)).
      rewrite set_add_all_to_set. set_solver. }
    rewrite Hnil in Hin. by apply not_elem_of_nil in Hin. }
  destruct (open_replays w1 sock s) as (R & _); try congruence.
  { rewrite F4, length_app. cbn. lia. }
  fold w2 in R. unfold resubscribe_start in R. rewrite F6 in R.
  unfold resubscribe_next in R.
  destruct (channels (activeSubscriptions w1)) as [|x l] eqn:E; [done|].
  destruct R as [_ R].
  split_and!.
  - rewrite F4. apply lookup_snoc.
  - unfold sent. by rewrite F1.
  - intros id Hid. rewrite F5. apply (elem_of_list_to_set (C:=gset string)).
    rewrite set_add_all_to_set. apply elem_of_union_r.
    by apply elem_of_list_to_set.
  - rewrite R. unfold sent. by rewrite F1.
Qed.

Lemma X14_subscription_before_open_is_replayed_witness :
  let w1 := step (CallSubscribeChannels ["c"]) about_to_reconnect in
  let w2 := step (SocketOpen 1) w1 in
  sent 1 w1 = sent 1 about_to_reconnect
  ∧ sent 1 w2
    = sent 1 about_to_reconnect ++ [channel_command (channels (activeSubscriptions w1))].
Proof.
  intros w1 w2.
  assert (H1 : sockets about_to_reconnect !! 1%nat = Some reconnect_socket)
    by (vm_compute; reflexivity).
  assert (H2 : ws about_to_reconnect = Some 1%nat) by (vm_compute; reflexivity).
  assert (H3 : state about_to_reconnect ≠ connected) by (vm_compute; discriminate).
  assert (H4 : awaiting about_to_reconnect = []) by (vm_compute; reflexivity).
  assert (H5 : (sock_connect reconnect_socket < length (promises about_to_reconnect))%nat)
    by (vm_compute; lia).
  assert (H6 : subscribedToAll (activeSubscriptions about_to_reconnect) = false)
    by (vm_compute; reflexivity).
  assert (H7 : ["c"] ≠ @nil string) by discriminate.
  destruct (X14_subscription_before_open_is_replayed about_to_reconnect 1 reconnect_socket
              ["c"] H1 H2 H3 H4 H5 H6 H7) as (_ & G2 & _ & G4).
  split; [exact G2 | exact G4].
Defined.


(** X16. An error event of a socket is reported to the error listeners
    as "WebSocket error", followed by ": <message>" when the event has a
    non-empty message. It never changes the state, the socket, the timers or
    the pending commands. Only while [connecting] does it settle a promise:
    the pending [connect()] promise is rejected with that error. *)
Theorem X16_socket_error_never_changes_state
  (w : World) (sock : nat) (s : Socket) (message : option string) :
  sockets w !! sock = Some s →
  let w' := handle (SocketError sock message) w in
  state w' = state w ∧ ws w' = ws w ∧ sockets w' = sockets w
  ∧ timers w' = timers w
  ∧ pendingSubscriptions w' = pendingSubscriptions w
  ∧ reconnectTimeout w' = reconnectTimeout w
  ∧ heartbeatInterval w' = heartbeatInterval w
  ∧ log w' = log w ++ map (λ h, ErrorHandlerCall h (websocket_error message))
                          (errorHandlers w)
  ∧ (state w ≠ connecting → promises w' = promises w)
  ∧ (state w = connecting → promises w !! sock_connect s = Some Pending →
     promises w' !! sock_connect s = Some (Rejected (websocket_error message))).
Proof.
  intros Hs w'. unfold w'. cbn [handle]. unfold onerror. rewrite Hs.
  fold (websocket_error message). cbn.
  case_decide as Hc; cbn; split_and!; try done.
  intros _ Hp. rewrite Hp. apply list_lookup_insert_eq. by apply lookup_lt_Some in Hp.
Qed.

Lemma X16_socket_error_never_changes_state_witness :
  let w' := handle (SocketError 1 (Some "ECONNREFUSED")) about_to_reconnect in
  state w' = state about_to_reconnect
  ∧ promises w' !! 3%nat = Some (Rejected (Error "WebSocket error: ECONNREFUSED")).
Proof.
  intros w'.
  assert (H1 : sockets about_to_reconnect !! 1%nat = Some reconnect_socket)
    by (vm_compute; reflexivity).
  destruct (X16_socket_error_never_changes_state about_to_reconnect 1 reconnect_socket
              (Some "ECONNREFUSED") H1) as (G1 & _ & _ & _ & _ & _ & _ & _ & _ & G10).
  split; [exact G1 | apply G10; vm_compute; reflexivity].
Defined.





(** ** The bookkeeping the invariants are about *)

Lemma disarm_keeps_kind : keeps_kind disarm.
Proof. by intros tm. Qed.

Lemma rearm_keeps_kind : keeps_kind rearm.
Proof.
  intros tm. unfold rearm.
  destruct (timer_every tm) eqn:E; cbn; by rewrite ?E.
Qed.

Lemma lookup_alter_inv {A} (f : A → A) (l : list A) (t i : nat) (y : A) :
  alter f t l !! i = Some y →
  (i ≠ t ∧ l !! i = Some y) ∨ (i = t ∧ ∃ x, l !! t = Some x ∧ y = f x).
Proof.
  destruct (decide (i = t)) as [->|Hne].
  - rewrite list_lookup_alter_eq. intros H.
    apply fmap_Some in H as (x & Hx & Hy). naive_solver.
  - rewrite list_lookup_alter_ne by done. naive_solver.
Qed.

Lemma lookup_snoc_inv {A} (l : list A) (x y : A) (i : nat) :
  (l ++ [x]) !! i = Some y →
  ((i < length l)%nat ∧ l !! i = Some y) ∨ (i = length l ∧ y = x).
Proof. rewrite lookup_snoc_Some. naive_solver. Qed.

Section CoreSteps.
Variables (k k' : Core).
Hypothesis Hk : Consistent k.

(** Nothing moved, or connect promises were forgotten. *)
Lemma Consistent_same :
  k_timers k' = k_timers k → k_promises k' = k_promises k →
  k_pending k' = k_pending k → k_reconnect k' = k_reconnect k →
  k_heartbeat k' = k_heartbeat k →
  (∀ p, p ∈ k_owned k' → p ∈ k_owned k) →
  Consistent k'.
Proof.
  intros Ht Hp Hq Hr Hh Ho. destruct Hk as [Jn Je Jr Jh Js Ju Jp Jo].
  split; rewrite ?Ht, ?Hp, ?Hq, ?Hr, ?Hh; eauto.
Qed.

(** A promise was allocated, perhaps for a new [connect()]. *)
Lemma Consistent_new_promise st :
  k_timers k' = k_timers k → k_promises k' = k_promises k ++ [st] →
  k_pending k' = k_pending k → k_reconnect k' = k_reconnect k →
  k_heartbeat k' = k_heartbeat k →
  (∀ p, p ∈ k_owned k' → p ∈ k_owned k ∨ p = length (k_promises k)) →
  Consistent k'.
Proof.
  intros Ht Hp Hq Hr Hh Ho. destruct Hk as [Jn Je Jr Jh Js Ju Jp Jo].
  split; rewrite ?Ht, ?Hp, ?Hq, ?Hr, ?Hh, ?length_app; cbn [length].
  - eauto.
  - eauto.
  - eauto.
  - eauto.
  - intros t tm key p H1 H2. destruct (Js t tm key p H1 H2) as [A B].
    split; [lia|]. rewrite lookup_app_l by done. done.
  - eauto.
  - intros key e He. destruct (Jp key e He) as [A B]. split; [|done].
    rewrite lookup_app_l; [done|]. by apply lookup_lt_Some in A.
  - intros p [Hp'| ->]%Ho.
    + destruct (Jo p Hp') as [A B]. split; [lia|done].
    + split; [lia|]. intros t tm key H1 H2.
      destruct (Js t tm key _ H1 H2). lia.
Qed.

(** A connect promise was settled. *)
Lemma Consistent_settle_owned p st :
  p ∈ k_owned k →
  k_timers k' = k_timers k → k_promises k' = <[p := st]> (k_promises k) →
  k_pending k' = k_pending k → k_reconnect k' = k_reconnect k →
  k_heartbeat k' = k_heartbeat k →
  (∀ q, q ∈ k_owned k' → q ∈ k_owned k) →
  Consistent k'.
Proof.
  intros Hown Ht Hp Hq Hr Hh Ho. destruct Hk as [Jn Je Jr Jh Js Ju Jp Jo].
  destruct (Jo p Hown) as [Hlt Hfree].
  split; rewrite ?Ht, ?Hp, ?Hq, ?Hr, ?Hh, ?length_insert.
  - eauto.
  - eauto.
  - eauto.
  - eauto.
  - intros t tm key q H1 H2. destruct (Js t tm key q H1 H2) as [A B].
    split; [done|]. rewrite list_lookup_insert_ne; [done|].
    intros ->. by eapply Hfree.
  - eauto.
  - intros key e He. destruct (Jp key e He) as [A (tm & B & C)].
    split; [|eauto]. rewrite list_lookup_insert_ne; [done|].
    intros E. eapply Hfree; [exact B|]. by rewrite C, E.
  - intros q Hq'%Ho. destruct (Jo q Hq') as [A B]. done.
Qed.
End CoreSteps.


Section CoreTimers.
Variables (k k' : Core).
Hypothesis Hk : Consistent k.

(** A command was sent: promise, timer and pending entry. *)
Lemma Consistent_send key due :
  let p := length (k_promises k) in
  let t := length (k_timers k) in
  k_timers k' = k_timers k ++ [mkTimer due None (SubscriptionTimer key p) true] →
  k_promises k' = k_promises k ++ [Pending] →
  k_pending k' = <[key := mkPending p t]> (k_pending k) →
  k_reconnect k' = k_reconnect k → k_heartbeat k' = k_heartbeat k →
  (∀ q, q ∈ k_owned k' → q ∈ k_owned k) →
  Consistent k'.
Proof.
  intros p t Ht Hp Hq Hr Hh Ho. destruct Hk as [Jn Je Jr Jh Js Ju Jp Jo].
  split; rewrite ?Ht, ?Hp, ?Hq, ?Hr, ?Hh, ?length_app; cbn [length].
  - intros i tm [[Hi H]|[-> ->]]%lookup_snoc_inv Ha; [eauto|]. by split.
  - intros i tm [[Hi H]|[-> ->]]%lookup_snoc_inv Ha; [eauto|]. done.
  - intros i Hi. destruct (Jr i Hi) as (tm & A & B).
    exists tm. split; [|done]. apply lookup_app_l_Some. done.
  - intros i Hi. destruct (Jh i Hi) as (tm & A & B).
    exists tm. split; [|done]. apply lookup_app_l_Some. done.
  - intros i tm key' q [[Hi H]|[-> ->]]%lookup_snoc_inv Ha.
    + destruct (Js i tm key' q H Ha) as [A B].
      split; [lia|]. by rewrite lookup_app_l.
    + cbn in Ha. injection Ha as <- <-. split; [unfold p; lia|done].
  - intros t1 t2 tm1 tm2 key1 key2 q
      [[Hi1 H1]|[-> ->]]%lookup_snoc_inv [[Hi2 H2]|[-> ->]]%lookup_snoc_inv A1 A2.
    + eauto.
    + cbn in A2. injection A2 as <- <-.
      destruct (Js _ _ _ _ H1 A1). unfold p in *. lia.
    + cbn in A1. injection A1 as <- <-.
      destruct (Js _ _ _ _ H2 A2). unfold p in *. lia.
    + done.
  - intros key' e [[<- <-]|[Hne He]]%lookup_insert_Some.
    + cbn. split; [apply lookup_snoc|].
      eexists. split; [apply lookup_snoc|done].
    + destruct (Jp key' e He) as [A (tm & B & C)]. split.
      * rewrite lookup_app_l; [done|]. by apply lookup_lt_Some in A.
      * exists tm. split; [|done]. by apply lookup_app_l_Some.
  - intros q Hq'%Ho. destruct (Jo q Hq') as [A B]. split; [lia|].
    intros i tm key' [[Hi H]|[-> ->]]%lookup_snoc_inv; [eauto|].
    cbn. intros [= _ E]. unfold p in *. lia.
Qed.

(** A subscription promise was settled by its timer or by a confirmation:
    the timer is no longer armed or not to be armed, the entry under its
    key is gone. *)
Lemma Consistent_settle_sub t tm key p st f :
  k_timers k !! t = Some tm → timer_action tm = SubscriptionTimer key p →
  keeps_kind f → timer_armed (f tm) = false → st ≠ Pending →
  k_timers k' = alter f t (k_timers k) →
  k_promises k' = match k_promises k !! p with
                  | Some Pending => <[p := st]> (k_promises k)
                  | _ => k_promises k
                  end →
  k_pending k' = delete key (k_pending k) →
  k_reconnect k' = k_reconnect k → k_heartbeat k' = k_heartbeat k →
  (∀ q, q ∈ k_owned k' → q ∈ k_owned k) →
  Consistent k'.
Proof.
  intros Htm Hact Hf Hoff Hst Ht Hp Hq Hr Hh Ho. destruct Hk as [Jn Je Jr Jh Js Ju Jp Jo].
  assert (Hlen : length (k_promises k') = length (k_promises k)).
  { rewrite Hp. repeat case_match; by rewrite ?length_insert. }
  assert (Hother : ∀ q, q ≠ p → k_promises k' !! q = k_promises k !! q).
  { intros q Hne. rewrite Hp. repeat case_match; try done.
    by rewrite list_lookup_insert_ne. }
  assert (Hself : k_promises k' !! p ≠ Some Pending).
  { rewrite Hp. destruct (k_promises k !! p) as [[| |]|] eqn:E; rewrite ?E; try done.
    rewrite list_lookup_insert_eq; [congruence|]. by apply lookup_lt_Some in E. }
  assert (Hkind : ∀ i x, k_timers k' !! i = Some x →
            ∃ x0, k_timers k !! i = Some x0 ∧ timer_action x = timer_action x0
                  ∧ timer_every x = timer_every x0
                  ∧ (i ≠ t → x = x0)).
  { intros i x Hx. rewrite Ht in Hx.
    apply lookup_alter_inv in Hx as [[Hne Hx]|[-> (x0 & Hx0 & ->)]].
    - exists x. done.
    - exists x0. destruct (Hf x0). done. }
  split; rewrite ?Hq, ?Hr, ?Hh, ?Hlen.
  - intros i x Hx Harm. destruct (Hkind i x Hx) as (x0 & A & B & C & D).
    destruct (decide (i = t)) as [->|Hne].
    + rewrite B. replace x0 with tm in * by congruence. rewrite Hact. done.
    + rewrite (D Hne) in *. eauto.
  - intros i x Hx. destruct (Hkind i x Hx) as (x0 & A & B & C & D).
    rewrite B, C. eauto.
  - intros i Hi. destruct (Jr i Hi) as (x0 & A & B).
    rewrite Ht. destruct (decide (i = t)) as [->|Hne].
    + rewrite list_lookup_alter_eq, A. eexists. split; [done|].
      destruct (Hf x0). congruence.
    + rewrite list_lookup_alter_ne by done. eauto.
  - intros i Hi. destruct (Jh i Hi) as (x0 & A & B).
    rewrite Ht. destruct (decide (i = t)) as [->|Hne].
    + rewrite list_lookup_alter_eq, A. eexists. split; [done|].
      destruct (Hf x0). congruence.
    + rewrite list_lookup_alter_ne by done. eauto.
  - intros i x key' q Hx Ha. destruct (Hkind i x Hx) as (x0 & A & B & C & D).
    rewrite B in Ha. destruct (Js i x0 key' q A Ha) as [E F].
    split; [done|]. intros Hpend.
    destruct (decide (q = p)) as [->|Hne]; [done|].
    rewrite Hother in Hpend by done.
    assert (i ≠ t).
    { intros ->. replace x0 with tm in * by congruence. congruence. }
    rewrite D by done. eauto.
  - intros t1 t2 x1 x2 key1 key2 q H1 H2 A1 A2.
    destruct (Hkind t1 x1 H1) as (y1 & B1 & C1 & _).
    destruct (Hkind t2 x2 H2) as (y2 & B2 & C2 & _).
    rewrite C1 in A1. rewrite C2 in A2. eauto.
  - intros key' e [Hne He]%lookup_delete_Some.
    destruct (Jp key' e He) as [A (x0 & B & C)].
    assert (Hp' : pend_promise e ≠ p).
    { intros E. rewrite E in C.
      assert (pend_timeout e = t) by eauto. subst t.
      replace x0 with tm in * by congruence. congruence. }
    assert (Ht' : pend_timeout e ≠ t).
    { intros E. rewrite E in B. replace x0 with tm in * by congruence. congruence. }
    split; [by rewrite Hother|].
    exists x0. rewrite Ht, list_lookup_alter_ne by done. done.
  - intros q Hq'%Ho. destruct (Jo q Hq') as [A B]. split; [done|].
    intros i x key' Hx. destruct (Hkind i x Hx) as (x0 & C & D & _).
    rewrite D. eauto.
Qed.
End CoreTimers.


Section CoreNamedTimers.
Variables (k k' : Core).
Hypothesis Hk : Consistent k.

(** A timer that is not a subscription timer was updated in place. *)
Lemma timers_altered_kind t f :
  keeps_kind f → k_timers k' = alter f t (k_timers k) →
  ∀ i x, k_timers k' !! i = Some x →
    ∃ x0, k_timers k !! i = Some x0 ∧ timer_action x = timer_action x0
          ∧ timer_every x = timer_every x0 ∧ (i ≠ t → x = x0)
          ∧ (i = t → x = f x0).
Proof.
  intros Hf Ht i x Hx. rewrite Ht in Hx.
  apply lookup_alter_inv in Hx as [[Hne Hx]|[-> (x0 & Hx0 & ->)]].
  - exists x. done.
  - exists x0. destruct (Hf x0). done.
Qed.

(** The reconnect timer was cleared or has fired. *)
Lemma Consistent_reconnect_off t f :
  k_reconnect k = Some t → keeps_kind f →
  (∀ tm, timer_every tm = None → timer_armed (f tm) = false) →
  k_timers k' = alter f t (k_timers k) → k_promises k' = k_promises k →
  k_pending k' = k_pending k → k_reconnect k' = None →
  k_heartbeat k' = k_heartbeat k →
  (∀ q, q ∈ k_owned k' → q ∈ k_owned k) →
  Consistent k'.
Proof.
  intros Hrc Hf Hoff Ht Hp Hq Hr Hh Ho.
  pose proof (timers_altered_kind t f Hf Ht) as Hkind.
  destruct Hk as [Jn Je Jr Jh Js Ju Jp Jo].
  destruct (Jr t Hrc) as (tm & Htm & Hact).
  assert (Hev : timer_every tm = None) by (eapply Je; [done|congruence]).
  split; rewrite ?Hp, ?Hq, ?Hr, ?Hh.
  - intros i x Hx Harm. destruct (Hkind i x Hx) as (x0 & A & B & C & D & E).
    destruct (decide (i = t)) as [->|Hne].
    + rewrite (E eq_refl) in Harm. replace x0 with tm in * by congruence.
      rewrite Hoff in Harm by done. done.
    + rewrite (D Hne) in *. destruct (Jn i x0 A Harm) as [F G].
      split; [|done]. intros Hx0. specialize (F Hx0). congruence.
  - intros i x Hx. destruct (Hkind i x Hx) as (x0 & A & B & C & _).
    rewrite B, C. eauto.
  - done.
  - intros i Hi. destruct (Jh i Hi) as (x0 & A & B).
    rewrite Ht. destruct (decide (i = t)) as [->|Hne].
    + rewrite list_lookup_alter_eq, A. eexists. split; [done|].
      destruct (Hf x0). congruence.
    + rewrite list_lookup_alter_ne by done. eauto.
  - intros i x key q Hx Ha. destruct (Hkind i x Hx) as (x0 & A & B & C & D & _).
    rewrite B in Ha. destruct (Js i x0 key q A Ha) as [E F].
    split; [done|]. intros Hpend.
    assert (i ≠ t).
    { intros ->. replace x0 with tm in * by congruence. congruence. }
    rewrite D by done. eauto.
  - intros t1 t2 x1 x2 key1 key2 q H1 H2 A1 A2.
    destruct (Hkind t1 x1 H1) as (y1 & B1 & C1 & _).
    destruct (Hkind t2 x2 H2) as (y2 & B2 & C2 & _).
    rewrite C1 in A1. rewrite C2 in A2. eauto.
  - intros key e He. destruct (Jp key e He) as [A (x0 & B & C)].
    split; [done|].
    assert (pend_timeout e ≠ t).
    { intros E. rewrite E in B. replace x0 with tm in * by congruence. congruence. }
    exists x0. rewrite Ht, list_lookup_alter_ne by done. done.
  - intros q Hq'%Ho. destruct (Jo q Hq') as [A B]. split; [done|].
    intros i x key Hx. destruct (Hkind i x Hx) as (x0 & C & D & _).
    rewrite D. eauto.
Qed.

(** The heartbeat was stopped. *)
Lemma Consistent_heartbeat_off t :
  k_heartbeat k = Some t →
  k_timers k' = alter disarm t (k_timers k) → k_promises k' = k_promises k →
  k_pending k' = k_pending k → k_reconnect k' = k_reconnect k →
  k_heartbeat k' = None →
  (∀ q, q ∈ k_owned k' → q ∈ k_owned k) →
  Consistent k'.
Proof.
  intros Hhb Ht Hp Hq Hr Hh Ho.
  pose proof (timers_altered_kind t disarm disarm_keeps_kind Ht) as Hkind.
  destruct Hk as [Jn Je Jr Jh Js Ju Jp Jo].
  destruct (Jh t Hhb) as (tm & Htm & Hact).
  split; rewrite ?Hp, ?Hq, ?Hr, ?Hh.
  - intros i x Hx Harm. destruct (Hkind i x Hx) as (x0 & A & B & C & D & E).
    destruct (decide (i = t)) as [->|Hne].
    + by rewrite (E eq_refl) in Harm.
    + rewrite (D Hne) in *. destruct (Jn i x0 A Harm) as [F G].
      split; [done|]. intros Hx0. specialize (G Hx0). congruence.
  - intros i x Hx. destruct (Hkind i x Hx) as (x0 & A & B & C & _).
    rewrite B, C. eauto.
  - intros i Hi. destruct (Jr i Hi) as (x0 & A & B).
    rewrite Ht. destruct (decide (i = t)) as [->|Hne].
    + rewrite list_lookup_alter_eq, A. eexists. split; done.
    + rewrite list_lookup_alter_ne by done. eauto.
  - done.
  - intros i x key q Hx Ha. destruct (Hkind i x Hx) as (x0 & A & B & C & D & _).
    rewrite B in Ha. destruct (Js i x0 key q A Ha) as [E F].
    split; [done|]. intros Hpend.
    assert (i ≠ t).
    { intros ->. replace x0 with tm in * by congruence. congruence. }
    rewrite D by done. eauto.
  - intros t1 t2 x1 x2 key1 key2 q H1 H2 A1 A2.
    destruct (Hkind t1 x1 H1) as (y1 & B1 & C1 & _).
    destruct (Hkind t2 x2 H2) as (y2 & B2 & C2 & _).
    rewrite C1 in A1. rewrite C2 in A2. eauto.
  - intros key e He. destruct (Jp key e He) as [A (x0 & B & C)].
    split; [done|].
    assert (pend_timeout e ≠ t).
    { intros E. rewrite E in B. replace x0 with tm in * by congruence. congruence. }
    exists x0. rewrite Ht, list_lookup_alter_ne by done. done.
  - intros q Hq'%Ho. destruct (Jo q Hq') as [A B]. split; [done|].
    intros i x key Hx. destruct (Hkind i x Hx) as (x0 & C & D & _).
    rewrite D. eauto.
Qed.

(** The heartbeat interval has fired and is due again. *)
Lemma Consistent_heartbeat_beat t tm :
  k_timers k !! t = Some tm → timer_action tm = HeartbeatTimer →
  timer_armed tm = true →
  k_timers k' = alter rearm t (k_timers k) → k_promises k' = k_promises k →
  k_pending k' = k_pending k → k_reconnect k' = k_reconnect k →
  k_heartbeat k' = k_heartbeat k →
  (∀ q, q ∈ k_owned k' → q ∈ k_owned k) →
  Consistent k'.
Proof.
  intros Htm Hact Harm Ht Hp Hq Hr Hh Ho.
  pose proof (timers_altered_kind t rearm rearm_keeps_kind Ht) as Hkind.
  destruct Hk as [Jn Je Jr Jh Js Ju Jp Jo].
  destruct (Jn t tm Htm Harm) as [_ Hnamed]. specialize (Hnamed Hact).
  split; rewrite ?Hp, ?Hq, ?Hr, ?Hh.
  - intros i x Hx Harm'. destruct (Hkind i x Hx) as (x0 & A & B & C & D & E).
    destruct (decide (i = t)) as [->|Hne].
    + replace x0 with tm in * by congruence. rewrite B, Hact. done.
    + rewrite (D Hne) in *. eauto.
  - intros i x Hx. destruct (Hkind i x Hx) as (x0 & A & B & C & _).
    rewrite B, C. eauto.
  - intros i Hi. destruct (Jr i Hi) as (x0 & A & B).
    rewrite Ht. destruct (decide (i = t)) as [->|Hne].
    + rewrite list_lookup_alter_eq, A. eexists. split; [done|].
      destruct (rearm_keeps_kind x0). congruence.
    + rewrite list_lookup_alter_ne by done. eauto.
  - intros i Hi. destruct (Jh i Hi) as (x0 & A & B).
    rewrite Ht. destruct (decide (i = t)) as [->|Hne].
    + rewrite list_lookup_alter_eq, A. eexists. split; [done|].
      destruct (rearm_keeps_kind x0). congruence.
    + rewrite list_lookup_alter_ne by done. eauto.
  - intros i x key q Hx Ha. destruct (Hkind i x Hx) as (x0 & A & B & C & D & _).
    rewrite B in Ha. destruct (Js i x0 key q A Ha) as [E F].
    split; [done|]. intros Hpend.
    assert (i ≠ t).
    { intros ->. replace x0 with tm in * by congruence. congruence. }
    rewrite D by done. eauto.
  - intros t1 t2 x1 x2 key1 key2 q H1 H2 A1 A2.
    destruct (Hkind t1 x1 H1) as (y1 & B1 & C1 & _).
    destruct (Hkind t2 x2 H2) as (y2 & B2 & C2 & _).
    rewrite C1 in A1. rewrite C2 in A2. eauto.
  - intros key e He. destruct (Jp key e He) as [A (x0 & B & C)].
    split; [done|].
    assert (pend_timeout e ≠ t).
    { intros E. rewrite E in B. replace x0 with tm in * by congruence. congruence. }
    exists x0. rewrite Ht, list_lookup_alter_ne by done. done.
  - intros q Hq'%Ho. destruct (Jo q Hq') as [A B]. split; [done|].
    intros i x key Hx. destruct (Hkind i x Hx) as (x0 & C & D & _).
    rewrite D. eauto.
Qed.

(** A reconnect timer or a heartbeat interval was armed. *)
Lemma Consistent_arm tm :
  timer_armed tm = true →
  (timer_action tm = ReconnectTimer ∧ timer_every tm = None
   ∧ k_reconnect k = None ∧ k_reconnect k' = Some (length (k_timers k))
   ∧ k_heartbeat k' = k_heartbeat k)
  ∨ (timer_action tm = HeartbeatTimer
     ∧ k_heartbeat k = None ∧ k_heartbeat k' = Some (length (k_timers k))
     ∧ k_reconnect k' = k_reconnect k) →
  k_timers k' = k_timers k ++ [tm] → k_promises k' = k_promises k →
  k_pending k' = k_pending k →
  (∀ q, q ∈ k_owned k' → q ∈ k_owned k) →
  Consistent k'.
Proof.
  intros Harm Hcase Ht Hp Hq Ho.
  destruct Hk as [Jn Je Jr Jh Js Ju Jp Jo].
  assert (Hnot : ∀ key p, timer_action tm ≠ SubscriptionTimer key p).
  { intros key p. destruct Hcase as [(-> & _)|(-> & _)]; done. }
  split; rewrite ?Ht, ?Hp, ?Hq.
  - intros i x [[Hi H]|[-> ->]]%lookup_snoc_inv Hx.
    + destruct (Jn i x H Hx) as [A B].
      destruct Hcase as [(C1 & C2 & C3 & C4 & C5)|(C1 & C3 & C4 & C5)].
      * rewrite C5. split; [|done]. intros E. specialize (A E). congruence.
      * rewrite C5. split; [done|]. intros E. specialize (B E). congruence.
    + destruct Hcase as [(C1 & C2 & C3 & C4 & C5)|(C1 & C3 & C4 & C5)];
        rewrite C1; split; try done.
  - intros i x [[Hi H]|[-> ->]]%lookup_snoc_inv Hx; [eauto|].
    destruct Hcase as [(C1 & C2 & _)|(C1 & _)]; done.
  - intros i Hi.
    destruct Hcase as [(C1 & C2 & C3 & C4 & C5)|(C1 & C3 & C4 & C5)].
    + rewrite C4 in Hi. injection Hi as <-. exists tm. split; [apply lookup_snoc|done].
    + rewrite C5 in Hi. destruct (Jr i Hi) as (x & A & B).
      exists x. split; [by apply lookup_app_l_Some|done].
  - intros i Hi.
    destruct Hcase as [(C1 & C2 & C3 & C4 & C5)|(C1 & C3 & C4 & C5)].
    + rewrite C5 in Hi. destruct (Jh i Hi) as (x & A & B).
      exists x. split; [by apply lookup_app_l_Some|done].
    + rewrite C4 in Hi. injection Hi as <-. exists tm. split; [apply lookup_snoc|done].
  - intros i x key q [[Hi H]|[-> ->]]%lookup_snoc_inv Ha; [eauto|].
    by destruct (Hnot key q).
  - intros t1 t2 x1 x2 key1 key2 q
      [[Hi1 H1]|[-> ->]]%lookup_snoc_inv [[Hi2 H2]|[-> ->]]%lookup_snoc_inv A1 A2;
      try done; [eauto|by destruct (Hnot key2 q)|by destruct (Hnot key1 q)].
  - intros key e He. destruct (Jp key e He) as [A (x0 & B & C)].
    split; [done|]. exists x0. split; [by apply lookup_app_l_Some|done].
  - intros q Hq'%Ho. destruct (Jo q Hq') as [A B]. split; [done|].
    intros i x key [[Hi H]|[-> ->]]%lookup_snoc_inv; [eauto|apply Hnot].
Qed.
End CoreNamedTimers.


Lemma owned_socket w sock s : sockets w !! sock = Some s → sock_connect s ∈ owned w.
Proof.
  intros H. unfold owned, core. cbn. apply elem_of_app. left.
  apply list_elem_of_fmap. exists s. split; [done|]. by eapply list_elem_of_lookup_2.
Qed.

Lemma owned_task w i task : connects w !! i = Some task → task_promise task ∈ owned w.
Proof.
  intros H. unfold owned, core. cbn. apply elem_of_app. right.
  apply list_elem_of_fmap. exists task. split; [done|]. by eapply list_elem_of_lookup_2.
Qed.

Lemma fmap_alter_same {A B} (g : A → B) (f : A → A) (l : list A) (i : nat) :
  (∀ x, g (f x) = g x) → g <$> alter f i l = g <$> l.
Proof.
  intros H. apply list_eq. intros j. rewrite !list_lookup_fmap.
  destruct (decide (i = j)) as [->|Hne].
  - rewrite list_lookup_alter_eq. destruct (l !! j); cbn; by rewrite ?H.
  - by rewrite list_lookup_alter_ne.
Qed.

Lemma consistent_core_eq w w' : core w' = core w → consistent w → consistent w'.
Proof. unfold consistent. by intros ->. Qed.

Ltac same_core :=
  apply consistent_core_eq; unfold core; cbn;
  rewrite ?(fmap_alter_same sock_connect), ?(fmap_alter_same task_promise); by auto.

Lemma consistent_setState s w : consistent w → consistent (setState s w).
Proof. unfold setState. case_decide; [done|]. same_core. Qed.

Lemma consistent_emitError e w : consistent w → consistent (emitError e w).
Proof. same_core. Qed.

Lemma consistent_emitEvent e w : consistent w → consistent (emitEvent e w).
Proof. same_core. Qed.

Lemma owned_setState s w : owned (setState s w) = owned w.
Proof. unfold setState. by case_decide. Qed.

Lemma consistent_settle p st w :
  p ∈ owned w → consistent w → consistent (settle p st w).
Proof.
  intros Hp Hw. unfold settle.
  destruct (promises w !! p) as [[| |]|] eqn:E; try by (revert Hw; same_core).
  eapply (Consistent_settle_owned (core w) _ Hw p st); try done.
Qed.

Lemma owned_settle p st w : owned (settle p st w) = owned w.
Proof. done. Qed.

Lemma consistent_stopHeartbeat w : consistent w → consistent (stopHeartbeat w).
Proof.
  intros Hw. unfold stopHeartbeat.
  destruct (heartbeatInterval w) as [t|] eqn:E; [|done].
  eapply (Consistent_heartbeat_off (core w) _ Hw t); try done.
Qed.

Lemma owned_stopHeartbeat w : owned (stopHeartbeat w) = owned w.
Proof. unfold stopHeartbeat. by case_match. Qed.

Lemma stopHeartbeat_heartbeatInterval w : heartbeatInterval (stopHeartbeat w) = None.
Proof. unfold stopHeartbeat. by case_match. Qed.

Lemma consistent_startHeartbeat w : consistent w → consistent (startHeartbeat w).
Proof.
  intros Hw. unfold startHeartbeat, setInterval, addTimer.
  pose proof (consistent_stopHeartbeat w Hw) as H1.
  pose proof (stopHeartbeat_heartbeatInterval w) as H2.
  set (w1 := stopHeartbeat w) in *. clearbody w1. cbn.
  eapply (Consistent_arm (core w1) _ H1); [| |reflexivity|reflexivity|reflexivity|done];
    [reflexivity|].
  right. by split_and!.
Qed.

Lemma owned_startHeartbeat w : owned (startHeartbeat w) = owned w.
Proof.
  unfold startHeartbeat, setInterval, addTimer. cbn.
  apply owned_stopHeartbeat.
Qed.

Lemma consistent_clearReconnectTimeout w :
  consistent w → consistent (clearReconnectTimeout w).
Proof.
  intros Hw. unfold clearReconnectTimeout.
  destruct (reconnectTimeout w) as [t|] eqn:E; [|done].
  eapply (Consistent_reconnect_off (core w) _ Hw t disarm); done.
Qed.

Lemma consistent_scheduleReconnect w :
  consistent w → consistent (scheduleReconnect w).
Proof.
  intros Hw. unfold scheduleReconnect.
  destruct (reconnectTimeout w) as [t|] eqn:E; [done|].
  unfold setTimeout, addTimer.
  pose proof (consistent_setState reconnecting w Hw) as H1.
  assert (H2 : reconnectTimeout (setState reconnecting w) = None).
  { unfold setState. by case_decide. }
  set (w1 := setState reconnecting w) in *. clearbody w1. cbn.
  eapply (Consistent_arm (core w1) _ H1); [| |reflexivity|reflexivity|reflexivity|done];
    [reflexivity|].
  left. by split_and!.
Qed.


Lemma consistent_sendSubscription c w :
  consistent w → consistent (fst (sendSubscription c w)).
Proof.
  intros Hw. unfold sendSubscription.
  destruct (ws w) as [sock|] eqn:Ews.
  - case_decide as Hst.
    + unfold newPromise, setTimeout, addTimer, on_socket. cbn.
      eapply (Consistent_send (core w) _ Hw (command_key c)); try reflexivity.
      cbn. by rewrite (fmap_alter_same sock_connect).
    + cbn. eapply (Consistent_new_promise (core w) _ Hw); try reflexivity.
      cbn. auto.
  - cbn. eapply (Consistent_new_promise (core w) _ Hw); try reflexivity.
    cbn. auto.
Qed.

Lemma sendSubscription_cases c w :
  (∃ sock, ws w = Some sock ∧ state w = connected
           ∧ sendSubscription c w = (sent_world c sock w, length (promises w)))
  ∨ (is_connected w = false
     ∧ sendSubscription c w
       = (with_promises (promises w ++ [Rejected (Error "Not connected")]) w,
          length (promises w))).
Proof.
  destruct (is_connected w) eqn:E.
  - left. unfold is_connected in E. destruct (ws w) as [sock|] eqn:Ews; [|done].
    apply bool_decide_eq_true in E. exists sock.
    by rewrite (sendSubscription_connected c w sock).
  - right. by rewrite sendSubscription_not_connected.
Qed.

Lemma owned_sendSubscription c w : owned (fst (sendSubscription c w)) = owned w.
Proof.
  destruct (sendSubscription_cases c w) as [(sock & _ & _ & ->)|[_ ->]]; [|done].
  unfold owned, core, sent_world. cbn.
  by rewrite (fmap_alter_same sock_connect (socket_send c)).
Qed.

(** Consistency, with a connect promise still owned, is [stable]. *)
Lemma consistent_stable p : stable (λ w, consistent w ∧ p ∈ owned w).
Proof.
  split.
  - intros w l [H1 H2]. split; [revert H1; same_core|done].
  - intros w e [H1 H2]. split; [revert H1; same_core|done].
  - intros w c [H1 H2]. split; [by apply consistent_sendSubscription|].
    by rewrite owned_sendSubscription.
  - intros w [H1 H2]. split; [revert H1; same_core|done].
Qed.

Lemma consistent_stable' : stable consistent.
Proof.
  split.
  - intros w l H1. revert H1; same_core.
  - intros w e H1. revert H1; same_core.
  - intros w c H1. by apply consistent_sendSubscription.
  - intros w H1. revert H1; same_core.
Qed.

Lemma consistent_checkpoint w : consistent w → consistent (checkpoint w).
Proof. apply checkpoint_stable, consistent_stable'. Qed.

Lemma consistent_registry a w :
  consistent w → consistent (with_activeSubscriptions a w).
Proof. same_core. Qed.

Lemma consistent_subscriptions i w :
  is_Some (issued i) → consistent w → consistent (handle i w).
Proof.
  intros [c Hc] Hw. destruct i; simplify_eq/=.
  all: unfold subscribeAll, unsubscribeAll, subscribeChannels, unsubscribeChannels,
         subscribeEventTypes, unsubscribeEventTypes.
  all: apply consistent_sendSubscription.
  all: by apply consistent_registry.
Qed.

Lemma consistent_subscribe o w : consistent w → consistent (fst (subscribe o w)).
Proof.
  intros Hw. unfold subscribe.
  pose proof (λ l, consistent_subscriptions (CallSubscribeChannels l) w
                     (mk_is_Some _ _ eq_refl) Hw) as H1.
  destruct (nonempty (o_channels o)) as [l1|].
  - specialize (H1 l1). cbn [handle] in H1. destruct (subscribeChannels l1 w) as [w1 p1].
    cbn [fst] in H1.
    pose proof (λ l, consistent_subscriptions (CallSubscribeEventTypes l) w1
                       (mk_is_Some _ _ eq_refl) H1) as H2.
    destruct (nonempty (o_eventTypes o)) as [l2|]; [|done].
    specialize (H2 l2). cbn [handle] in H2. by destruct (subscribeEventTypes l2 w1).
  - pose proof (λ l, consistent_subscriptions (CallSubscribeEventTypes l) w
                       (mk_is_Some _ _ eq_refl) Hw) as H2.
    destruct (nonempty (o_eventTypes o)) as [l2|]; [|done].
    specialize (H2 l2). cbn [handle] in H2. by destruct (subscribeEventTypes l2 w).
Qed.

Lemma consistent_unsubscribe o w : consistent w → consistent (fst (unsubscribe o w)).
Proof.
  intros Hw. unfold unsubscribe.
  pose proof (λ l, consistent_subscriptions (CallUnsubscribeChannels l) w
                     (mk_is_Some _ _ eq_refl) Hw) as H1.
  destruct (nonempty (o_channels o)) as [l1|].
  - specialize (H1 l1). cbn [handle] in H1. destruct (unsubscribeChannels l1 w) as [w1 p1].
    cbn [fst] in H1.
    pose proof (λ l, consistent_subscriptions (CallUnsubscribeEventTypes l) w1
                       (mk_is_Some _ _ eq_refl) H1) as H2.
    destruct (nonempty (o_eventTypes o)) as [l2|]; [|done].
    specialize (H2 l2). cbn [handle] in H2. by destruct (unsubscribeEventTypes l2 w1).
  - pose proof (λ l, consistent_subscriptions (CallUnsubscribeEventTypes l) w
                       (mk_is_Some _ _ eq_refl) Hw) as H2.
    destruct (nonempty (o_eventTypes o)) as [l2|]; [|done].
    specialize (H2 l2). cbn [handle] in H2. by destruct (unsubscribeEventTypes l2 w).
Qed.

Lemma consistent_handleMessage f w : consistent w → consistent (handleMessage f w).
Proof.
  intros Hw. destruct f as [e| |c|[d|]|]; unfold handleMessage; try done.
  destruct (pendingSubscriptions w !! confirmation_key c) as [[p t]|] eqn:E; [|done].
  destruct (I_pending (core w) Hw (confirmation_key c) (mkPending p t) E)
    as [Hp (tm & Htm & Hact)]. cbn in Hp, Htm, Hact.
  destruct (conf_type c); unfold pending_resolve, pending_reject, settle, clearTimer; cbn.
  all: eapply (Consistent_settle_sub (core w) _ Hw t tm (confirmation_key c) p _ disarm);
    try done; intros ?; discriminate.
Qed.

Lemma consistent_connect w : consistent w → consistent (fst (connect w)).
Proof.
  intros Hw. unfold connect. repeat case_decide; try done.
  unfold newPromise. cbn.
  pose proof (consistent_setState connecting w Hw) as H1.
  set (w1 := setState connecting w) in *. clearbody w1.
  eapply (Consistent_new_promise (core w1) _ H1); try reflexivity.
  cbn. intros p. rewrite fmap_app. cbn. rewrite !elem_of_app.
  rewrite list_elem_of_singleton. tauto.
Qed.

Lemma consistent_finish_task tid w : consistent w → consistent (finish_task tid w).
Proof. same_core. Qed.

Lemma owned_finish_task tid w : owned (finish_task tid w) = owned w.
Proof. unfold owned, core. cbn. by rewrite (fmap_alter_same task_promise). Qed.

Lemma consistent_connect_catch tid p e w :
  p ∈ owned w → consistent w → consistent (connect_catch tid p e w).
Proof.
  intros Hp Hw. unfold connect_catch. apply consistent_settle.
  - by rewrite owned_setState, owned_finish_task.
  - by apply consistent_setState, consistent_finish_task.
Qed.

Lemma consistent_tokenSettled tid r w :
  consistent w → consistent (tokenSettled tid r w).
Proof.
  intros Hw. unfold tokenSettled.
  destruct (connects w !! tid) as [[p [|token|]]|] eqn:E; try done.
  pose proof (owned_task w tid _ E) as Hown. cbn in Hown.
  destruct r as [e|token].
  - by apply consistent_connect_catch.
  - eapply (Consistent_same (core w) _ Hw); try reflexivity.
    cbn. intros q. rewrite list_fmap_insert. cbn.
    rewrite !elem_of_app. intros [Hq|Hq]; [by left|].
    apply list_elem_of_lookup in Hq as [j Hj].
    apply list_lookup_insert_Some in Hj as [(-> & <- & _)|[_ Hj]].
    + unfold owned, core in Hown. cbn in Hown. by apply elem_of_app in Hown.
    + right. by eapply list_elem_of_lookup_2.
Qed.

Lemma consistent_webSocketSettled tid w :
  consistent w → consistent (webSocketSettled tid w).
Proof.
  intros Hw. unfold webSocketSettled.
  destruct (connects w !! tid) as [[p [|token|]]|] eqn:E; try done.
  pose proof (owned_task w tid _ E) as Hown. cbn in Hown.
  destruct (getWebSocket (host w)) as [e|b].
  - by apply consistent_connect_catch.
  - eapply (Consistent_same (core w) _ Hw); try reflexivity.
    cbn. intros q. rewrite fmap_app, (fmap_alter_same task_promise) by done. cbn.
    rewrite !elem_of_app, list_elem_of_singleton.
    intros [[Hq| ->]|Hq]; [by left| |by right].
    unfold owned, core in Hown. cbn in Hown. by apply elem_of_app in Hown.
Qed.


Lemma consistent_onopen sock w : consistent w → consistent (onopen sock w).
Proof.
  intros Hw. unfold onopen. destruct (sockets w !! sock) as [s|] eqn:E; [|done].
  pose proof (owned_socket w sock s E) as Hown.
  assert (H3 : consistent (startHeartbeat (with_reconnectAttempts 0%nat (setState connected w)))
               ∧ sock_connect s ∈ owned (startHeartbeat
                   (with_reconnectAttempts 0%nat (setState connected w)))).
  { split.
    - apply consistent_startHeartbeat.
      apply (consistent_core_eq (setState connected w)); [done|].
      by apply consistent_setState.
    - rewrite owned_startHeartbeat.
      change (owned (with_reconnectAttempts 0%nat (setState connected w)))
        with (owned (setState connected w)).
      by rewrite owned_setState. }
  set (w3 := startHeartbeat _) in *. clearbody w3.
  apply (resubscribe_stable _ w3 (consistent_stable (sock_connect s))) in H3 as [H4 H5].
  by apply consistent_settle.
Qed.

Lemma consistent_onclose sock reason w : consistent w → consistent (onclose sock reason w).
Proof.
  intros Hw. unfold onclose. destruct (sockets w !! sock) as [s|] eqn:E; [|done].
  pose proof (owned_socket w sock s E) as Hown.
  assert (H2 : consistent (with_ws None (stopHeartbeat w))
               ∧ sock_connect s ∈ owned (with_ws None (stopHeartbeat w))).
  { split.
    - apply (consistent_core_eq (stopHeartbeat w)); [done|].
      by apply consistent_stopHeartbeat.
    - change (owned (with_ws None (stopHeartbeat w))) with (owned (stopHeartbeat w)).
      by rewrite owned_stopHeartbeat. }
  destruct H2 as [H2 H2'].
  set (w2 := with_ws None (stopHeartbeat w)) in *. clearbody w2.
  case_decide.
  - apply consistent_setState. by apply consistent_settle.
  - pose proof (consistent_setState disconnected w2 H2) as H3.
    destruct (autoReconnect _ && shouldReconnect _); [|done].
    by apply consistent_scheduleReconnect.
Qed.

Lemma consistent_onerror sock message w :
  consistent w → consistent (onerror sock message w).
Proof.
  intros Hw. unfold onerror. destruct (sockets w !! sock) as [s|] eqn:E; [|done].
  pose proof (owned_socket w sock s E) as Hown.
  case_decide; [|done].
  by apply consistent_settle.
Qed.

Lemma consistent_onmessage sock f w : consistent w → consistent (onmessage sock f w).
Proof.
  intros Hw. unfold onmessage. destruct (sockets w !! sock); [|done].
  by apply consistent_handleMessage.
Qed.

Lemma consistent_disconnect w : consistent w → consistent (disconnect w).
Proof.
  intros Hw. unfold disconnect. apply consistent_setState.
  set (w1 := with_config _ w).
  assert (H1 : consistent w1) by done. clearbody w1.
  apply consistent_clearReconnectTimeout, consistent_stopHeartbeat in H1.
  set (w3 := stopHeartbeat _) in *. clearbody w3.
  destruct (ws w3); [|done]. revert H1. same_core.
Qed.

Lemma consistent_heartbeat w : consistent w → consistent (heartbeat w).
Proof.
  intros Hw. unfold heartbeat. repeat case_match; try done.
  revert Hw. same_core.
Qed.

Lemma consistent_fireTimer id w : consistent w → consistent (fireTimer id w).
Proof.
  intros Hw. unfold fireTimer. destruct (timers w !! id) as [tm|] eqn:E; [|done].
  unfold timer_due_now. destruct (timer_armed tm) eqn:Harm; [|done].
  cbn [andb]. destruct (timer_due tm <=? clock w); [|done].
  destruct (timer_action tm) as [|key p|] eqn:Hact.
  - destruct (I_named (core w) Hw id tm E Harm) as [Hn _]. specialize (Hn Hact).
    apply consistent_connect.
    eapply (Consistent_reconnect_off (core w) _ Hw id rearm); try done.
    + apply rearm_keeps_kind.
    + intros tm' H'. unfold rearm. by rewrite H'.
  - unfold settle. cbn.
    eapply (Consistent_settle_sub (core w) _ Hw id tm key p _ rearm);
      try done; try (intros ?; discriminate).
    + apply rearm_keeps_kind.
    + unfold rearm. rewrite (I_every (core w) Hw id tm E); [done|]. by rewrite Hact.
  - apply consistent_heartbeat.
    eapply (Consistent_heartbeat_beat (core w) _ Hw id tm); done.
Qed.

Lemma consistent_handle i w : consistent w → consistent (handle i w).
Proof.
  intros Hw.
  destruct (issued i) as [c|] eqn:Hi.
  { apply consistent_subscriptions; [by rewrite Hi|done]. }
  destruct i; try done; cbn [handle].
  - by apply consistent_connect.
  - by apply consistent_disconnect.
  - by apply consistent_subscribe.
  - by apply consistent_unsubscribe.
  - by apply consistent_tokenSettled.
  - by apply consistent_webSocketSettled.
  - by apply consistent_onopen.
  - by apply consistent_onclose.
  - by apply consistent_onerror.
  - by apply consistent_onmessage.
  - by apply consistent_fireTimer.
Qed.

Lemma consistent_step i w : consistent w → consistent (step i w).
Proof. intros Hw. by apply consistent_checkpoint, consistent_handle. Qed.

Lemma consistent_exec inputs w : consistent w → consistent (exec inputs w).
Proof.
  revert w. induction inputs as [|i l IH]; intros w Hw; [done|].
  apply IH. by apply consistent_step.
Qed.

Lemma consistent_constructor h config : consistent (constructor h config).
Proof.
  split; cbn; try done.
  all: intros; by (try (exfalso; eapply not_elem_of_nil)).
Qed.
















(** X18. In every state a client can reach from its constructor, an
    armed reconnect timer is the one [reconnectTimeout] names and an armed
    heartbeat timer is the one [heartbeatInterval] names. Hence at most one
    reconnect timer and at most one heartbeat timer are armed at any
    time. *)
Theorem X18_reachable_timers_are_named
  (h : Host) (options : option RealtimeConfig) (inputs : list Input) :
  let w := exec inputs (constructor h options) in
  (∀ t tm, timers w !! t = Some tm → timer_armed tm = true →
           (timer_action tm = ReconnectTimer → reconnectTimeout w = Some t)
           ∧ (timer_action tm = HeartbeatTimer → heartbeatInterval w = Some t))
  ∧ (∀ t1 t2 tm1 tm2,
       timers w !! t1 = Some tm1 → timers w !! t2 = Some tm2 →
       timer_armed tm1 = true → timer_armed tm2 = true →
       timer_action tm1 = timer_action tm2 →
       (∀ key p, timer_action tm1 ≠ SubscriptionTimer key p) →
       t1 = t2).
Proof.
  intros w.
  assert (Hw : consistent w) by apply consistent_exec, consistent_constructor.
  split.
  - intros t tm. apply (I_named (core w) Hw).
  - intros t1 t2 tm1 tm2 H1 H2 A1 A2 E Hn.
    destruct (I_named (core w) Hw t1 tm1 H1 A1) as [R1 B1].
    destruct (I_named (core w) Hw t2 tm2 H2 A2) as [R2 B2].
    cbn in *.
    destruct (timer_action tm1) eqn:E1; [| by destruct (Hn key promise) |].
    + specialize (R1 eq_refl). specialize (R2 (eq_sym E)). congruence.
    + specialize (B1 eq_refl). specialize (B2 (eq_sym E)). congruence.
Qed.

Lemma X18_reachable_timers_are_named_witness :
  heartbeatInterval
    (exec [CallConnect; TokenSettled 0 (inr "t0"); WebSocketSettled 0; SocketOpen 0]
          (constructor host_node None))
  = Some 0%nat.
Proof.
  destruct (X18_reachable_timers_are_named host_node None
              [CallConnect; TokenSettled 0 (inr "t0"); WebSocketSettled 0; SocketOpen 0])
    as [H _].
  destruct (H 0%nat (mkTimer 30000 (Some 30000) HeartbeatTimer true)) as [_ G];
    [vm_compute; reflexivity | reflexivity |].
  apply G. reflexivity.
Defined.



(** X21. [disconnect()] called while the socket of a [connect()] is
    still connecting closes that socket with code 1000 and sets the state
    to [disconnected], but does not settle the [connect()] promise; the
    error and close events that follow find the state [disconnected] and
    leave the promise pending as well, and schedule no reconnect. *)
Theorem X21_disconnect_while_connecting_strands_connect
  (w : World) (sock : nat) (s : Socket) (reason message : option string) :
  sockets w !! sock = Some s → ws w = Some sock → state w = connecting →
  promises w !! sock_connect s = Some Pending →
  let w1 := disconnect w in
  let w2 := handle (SocketClose sock reason) (handle (SocketError sock message) w1) in
  state w1 = disconnected
  ∧ (sock_closed <$> sockets w1 !! sock)
    = Some (Some (default (1000, "Client disconnect") (sock_closed s)))
  ∧ promises w1 !! sock_connect s = Some Pending
  ∧ state w2 = disconnected
  ∧ promises w2 !! sock_connect s = Some Pending
  ∧ reconnectTimeout w2 = None.
Proof.
  intros Hs Hws Hst Hp w1 w2.
  assert (F : state w1 = disconnected ∧ promises w1 = promises w
              ∧ sockets w1 = alter (socket_close 1000 "Client disconnect") sock (sockets w)
              ∧ reconnectTimeout w1 = None ∧ autoReconnect (config w1) = false).
  { unfold w1, disconnect, setState, clearReconnectTimeout, stopHeartbeat, clearTimer,
      on_socket.
    repeat case_match; cbn in *; simplify_eq; split_and!; try done; congruence. }
  destruct F as (F1 & F2 & F3 & F4 & F5).
  assert (Hs1 : sockets w1 !! sock = Some (socket_close 1000 "Client disconnect" s)).
  { by rewrite F3, list_lookup_alter_eq, Hs. }
  set (we := handle (SocketError sock message) w1) in *.
  assert (G : state we = disconnected ∧ promises we = promises w1
              ∧ sockets we = sockets w1 ∧ reconnectTimeout we = None
              ∧ autoReconnect (config we) = false).
  { unfold we. clearbody w1. cbn [handle]. unfold onerror. rewrite Hs1.
    rewrite decide_False by (unfold emitError; cbn; congruence).
    unfold emitError; cbn. by split_and!. }
  destruct G as (G1 & G2 & G3 & G4 & G5).
  assert (K : state w2 = disconnected ∧ promises w2 = promises we
              ∧ reconnectTimeout w2 = None).
  { unfold w2. clearbody we w1. cbn [handle]. unfold onclose. rewrite G3, Hs1.
    cbv zeta.
    rewrite decide_False
      by (unfold stopHeartbeat, clearTimer; repeat case_match; cbn; congruence).
    assert (A : autoReconnect (config (setState disconnected (with_ws None (stopHeartbeat we))))
                = false).
    { unfold stopHeartbeat, clearTimer, setState; repeat case_match; cbn; congruence. }
    rewrite A. cbn [andb].
    unfold stopHeartbeat, clearTimer, setState; repeat case_match; cbn in *;
      split_and!; congruence. }
  destruct K as (K1 & K2 & K3).
  split_and!; try done.
  - rewrite Hs1. cbn. by destruct (sock_closed s).
  - congruence.
  - congruence.
Qed.

Lemma X21_disconnect_while_connecting_strands_connect_witness :
  let w1 := disconnect about_to_reconnect in
  let w2 := handle (SocketClose 1 None) (handle (SocketError 1 None) w1) in
  state w2 = disconnected
  ∧ promises w2 !! 3%nat = Some Pending.
Proof.
  intros w1 w2.
  destruct (X21_disconnect_while_connecting_strands_connect about_to_reconnect 1
              reconnect_socket None None) as (_ & _ & _ & G4 & G5 & _);
    [vm_compute; reflexivity | vm_compute; reflexivity | vm_compute; reflexivity
    | vm_compute; reflexivity |].
  split; [exact G4 | exact G5].
Defined.


(** X3. The reconnect timer fires: the timer is spent, [reconnectTimeout]
    is cleared and a [connect()] starts (state [connecting], a new pending
    promise, a task that awaits the token). If the token cannot be fetched,
    that promise is rejected with the fetcher's error and the client ends up
    [disconnected] with no reconnect timer, no new timer and the attempt
    counter unchanged: the failed attempt is not followed by another. *)
Theorem X3_failed_reconnect_attempt_is_not_retried
  (w : World) (t : nat) (due : Z) (e : JsError) :
  timers w !! t = Some (mkTimer due None ReconnectTimer true) →
  due ≤ clock w → state w = reconnecting → awaiting w = [] →
  let p := length (promises w) in
  let task := length (connects w) in
  let w1 := step (TimerFires t) w in
  let w2 := step (TokenSettled task (inl e)) w1 in
  state w1 = connecting
  ∧ reconnectTimeout w1 = None
  ∧ connects w1 = connects w ++ [mkTask p AwaitToken]
  ∧ promises w1 !! p = Some Pending
  ∧ timers w1 = <[t := mkTimer due None ReconnectTimer false]> (timers w)
  ∧ state w2 = disconnected
  ∧ promises w2 !! p = Some (Rejected e)
  ∧ reconnectTimeout w2 = None
  ∧ timers w2 = timers w1
  ∧ reconnectAttempts w2 = reconnectAttempts w
  ∧ sockets w2 = sockets w.
Proof.
  intros Ht Hdue Hst Haw p task w1 w2.
  assert (E1 : handle (TimerFires t) w
               = with_connects (connects w ++ [mkTask p AwaitToken])
                   (with_promises (promises w ++ [Pending])
                      (setState connecting
                         (with_reconnectTimeout None
                            (with_timers (alter rearm t (timers w)) w))))).
  { cbn [handle]. unfold fireTimer. rewrite Ht. unfold timer_due_now. cbn.
    rewrite (proj2 (Z.leb_le _ _) Hdue). cbn.
    unfold connect. rewrite !decide_False by (cbn; congruence). unfold newPromise, setState. rewrite decide_False by (cbn; congruence). done. }
  assert (F : state w1 = connecting ∧ reconnectTimeout w1 = None
              ∧ connects w1 = connects w ++ [mkTask p AwaitToken]
              ∧ promises w1 = promises w ++ [Pending]
              ∧ timers w1 = alter rearm t (timers w)
              ∧ reconnectAttempts w1 = reconnectAttempts w
              ∧ sockets w1 = sockets w ∧ awaiting w1 = []).
  { unfold w1, step. rewrite checkpoint_idle by (rewrite E1; unfold setState; by case_decide).
    rewrite E1. unfold setState. rewrite decide_False by (cbn; congruence). done. }
  destruct F as (F1 & F2 & F3 & F4 & F5 & F6 & F7 & F8).
  assert (Hp : promises w1 !! p = Some Pending).
  { rewrite F4. apply lookup_snoc. }
  assert (Htm : alter rearm t (timers w)
                = <[t := mkTimer due None ReconnectTimer false]> (timers w)).
  { apply list_eq. intros i. destruct (decide (i = t)) as [->|Hne].
    - rewrite list_lookup_alter_eq, Ht.
      rewrite list_lookup_insert_eq by (by apply lookup_lt_Some in Ht). done.
    - by rewrite list_lookup_alter_ne, list_lookup_insert_ne. }
  assert (E2 : handle (TokenSettled task (inl e)) w1 = connect_catch task p e w1).
  { cbn [handle]. unfold tokenSettled. rewrite F3. unfold task.
    by rewrite lookup_snoc. }
  destruct (connect_catch_failed w1 task p e Hp) as (G1 & G2 & G3 & G4 & G5 & G6 & G7 & G8).
  assert (Haw2 : awaiting (connect_catch task p e w1) = []).
  { unfold connect_catch, settle, setState, finish_task. by case_decide. }
  assert (Hw2 : w2 = with_awaiting [] (with_awaiting [] (connect_catch task p e w1))).
  { unfold w2, step. rewrite E2. by apply checkpoint_idle. }
  set (X := connect_catch task p e w1) in *. clearbody X w1. rewrite Hw2. cbn.
  split_and!; try done; congruence.
Qed.

Lemma X3_failed_reconnect_attempt_is_not_retried_witness :
  let w1 := step (TimerFires 1) dropped in
  let w2 := step (TokenSettled (length (connects dropped)) (inl (Error "401"))) w1 in
  state w1 = connecting
  ∧ state w2 = disconnected
  ∧ reconnectTimeout w2 = None
  ∧ timers w2 = timers w1.
Proof.
  intros w1 w2.
  destruct (X3_failed_reconnect_attempt_is_not_retried dropped 1 1000 (Error "401"))
    as (G1 & _ & _ & _ & _ & G6 & _ & G8 & G9 & _);
    [vm_compute; reflexivity | vm_compute; discriminate | vm_compute; reflexivity
    | vm_compute; reflexivity |].
  split_and!; [exact G1 | exact G6 | exact G8 | exact G9].
Defined.

(** X15. [unsubscribeChannels(ids)] called before the socket is open:
    the returned promise is rejected with "Not connected" and nothing is
    sent, the ids are removed from the registry and the other channels
    kept, and whatever the open event then sends is a subscribe command
    whose channel list contains none of the removed ids. *)
Theorem X15_unsubscription_before_open_is_not_replayed
  (w : World) (sock : nat) (s : Socket) (ids : list string) :
  sockets w !! sock = Some s → ws w = Some sock → state w ≠ connected →
  awaiting w = [] → (sock_connect s < length (promises w))%nat →
  subscribedToAll (activeSubscriptions w) = false →
  let w1 := step (CallUnsubscribeChannels ids) w in
  let w2 := step (SocketOpen sock) w1 in
  promises w1 !! length (promises w) = Some (Rejected (Error "Not connected"))
  ∧ sent sock w1 = sent sock w
  ∧ (∀ id, id ∈ channels (activeSubscriptions w1)
           ↔ id ∈ channels (activeSubscriptions w) ∧ id ∉ ids)
  ∧ (∀ c, c ∈ sent sock w2 →
       c ∈ sent sock w
       ∨ (cmd_type c = Subscribe
          ∧ ∀ l id, cmd_channels c = Some l → id ∈ ids → id ∉ l)).
Proof.
  intros Hs Hws Hst Haw Hcp Hall w1 w2.
  assert (Hoff : is_connected
                   (with_channels (set_delete_all ids (channels (activeSubscriptions w))) w)
                 = false).
  { unfold is_connected. cbn. rewrite Hws. by apply bool_decide_eq_false. }
  assert (E1 : handle (CallUnsubscribeChannels ids) w
               = with_promises (promises w ++ [Rejected (Error "Not connected")])
                   (with_channels (set_delete_all ids (channels (activeSubscriptions w))) w)).
  { cbn [handle]. unfold unsubscribeChannels.
    by rewrite sendSubscription_not_connected. }
  assert (Hw1 : w1 = with_awaiting [] (with_awaiting [] (handle (CallUnsubscribeChannels ids) w))).
  { unfold w1, step. rewrite checkpoint_idle; [done|]. by rewrite E1. }
  rewrite E1 in Hw1.
  assert (F : sockets w1 = sockets w ∧ ws w1 = Some sock ∧ awaiting w1 = []
              ∧ promises w1 = promises w ++ [Rejected (Error "Not connected")]
              ∧ channels (activeSubscriptions w1)
                = set_delete_all ids (channels (activeSubscriptions w))
              ∧ subscribedToAll (activeSubscriptions w1) = false).
  { rewrite Hw1. cbn. by rewrite Hws, Hall. }
  destruct F as (F1 & F2 & F3 & F4 & F5 & F6). clearbody w1.
  assert (Hch : ∀ id, id ∈ channels (activeSubscriptions w1)
                      ↔ id ∈ channels (activeSubscriptions w) ∧ id ∉ ids).
  { intros id. rewrite F5.
    rewrite <- (elem_of_list_to_set (C:=gset string)), set_delete_all_to_set.
    rewrite elem_of_difference, !elem_of_list_to_set. done. }
  assert (S1 : sent sock w1 = sent sock w) by (unfold sent; by rewrite F1).
  split_and!; try done.
  - rewrite F4. apply lookup_snoc.
  - destruct (open_replays w1 sock s) as (R & _); try congruence.
    { rewrite F4, length_app. cbn. lia. }
    fold w2 in R. unfold resubscribe_start in R. rewrite F6 in R.
    unfold resubscribe_next in R. intros c Hc.
    destruct (channels (activeSubscriptions w1)) as [|x l] eqn:E.
    + destruct (eventTypes (activeSubscriptions w1)) as [|y l'] eqn:E'.
      * destruct R as [_ R]. left. rewrite <- S1. unfold sent in *. by rewrite <- R.
      * destruct R as [_ R]. rewrite R, S1 in Hc.
        apply elem_of_app in Hc as [Hc|Hc]; [by left|right].
        apply list_elem_of_singleton in Hc as ->. split; [done|]. intros ??; done.
    + destruct R as [_ R]. rewrite R, S1 in Hc.
      apply elem_of_app in Hc as [Hc|Hc]; [by left|right].
      apply list_elem_of_singleton in Hc as ->. split; [done|].
      intros l0 id [= <-] Hid Hin. by apply Hch in Hin as [_ ?].
Qed.

Lemma X15_unsubscription_before_open_is_not_replayed_witness :
  let w1 := step (CallUnsubscribeChannels ["a"]) about_to_reconnect in
  sent 1 w1 = sent 1 about_to_reconnect
  ∧ ("b" ∈ channels (activeSubscriptions w1)
      ↔ "b" ∈ channels (activeSubscriptions about_to_reconnect) ∧ "b" ∉ ["a"]).
Proof.
  intros w1.
  assert (H1 : sockets about_to_reconnect !! 1%nat = Some reconnect_socket)
    by (vm_compute; reflexivity).
  assert (H2 : ws about_to_reconnect = Some 1%nat) by (vm_compute; reflexivity).
  assert (H3 : state about_to_reconnect ≠ connected) by (vm_compute; discriminate).
  assert (H4 : awaiting about_to_reconnect = []) by (vm_compute; reflexivity).
  assert (H5 : (sock_connect reconnect_socket < length (promises about_to_reconnect))%nat)
    by (vm_compute; lia).
  assert (H6 : subscribedToAll (activeSubscriptions about_to_reconnect) = false)
    by (vm_compute; reflexivity).
  destruct (X15_unsubscription_before_open_is_not_replayed about_to_reconnect 1
              reconnect_socket ["a"] H1 H2 H3 H4 H5 H6) as (_ & G2 & G3 & _).
  split; [exact G2 | exact (G3 "b")].
Defined.


Lemma parked_timers (W : World) (sock : nat)
  (next : option (SubscriptionCommand * Resume)) (i : nat) :
  (i < length (timers W))%nat →
  timers (parked W sock next) !! i = timers W !! i
  ∧ heartbeatInterval (parked W sock next) = heartbeatInterval W
  ∧ (∀ q, (q < length (promises W))%nat →
          promises (parked W sock next) !! q = promises W !! q).
Proof.
  intros Hi. destruct next as [[c k]|]; cbn; [|done].
  split_and!; [by rewrite lookup_app_l | done |].
  intros q Hq. by rewrite lookup_app_l.
Qed.

(** X7. The open event of the current socket resolves the pending
    [connect()] promise and starts the heartbeat: a new repeating timer with
    the configured interval becomes the client's heartbeat timer, and the
    heartbeat timer it had before, if any, is cancelled. *)
Theorem X7_open_resolves_connect_and_starts_heartbeat
  (w : World) (sock : nat) (s : Socket) :
  sockets w !! sock = Some s → ws w = Some sock → awaiting w = [] →
  promises w !! sock_connect s = Some Pending →
  let w' := step (SocketOpen sock) w in
  let hb := length (timers w) in
  let every := Z.max 0 (cfg_heartbeatInterval (config w)) in
  promises w' !! sock_connect s = Some (Fulfilled None)
  ∧ heartbeatInterval w' = Some hb
  ∧ timers w' !! hb = Some (mkTimer (clock w + every) (Some every) HeartbeatTimer true)
  ∧ (∀ t tm, heartbeatInterval w = Some t → timers w !! t = Some tm →
             timers w' !! t = Some (disarm tm)).
Proof.
  intros Hs Hws Haw Hp w' hb every.
  assert (Hcp : (sock_connect s < length (promises w))%nat)
    by (by apply lookup_lt_Some in Hp).
  unfold w', step. cbn [handle]. unfold onopen. rewrite Hs.
  destruct (onopen_prefix w) as (Pws & Pst & Psk & Ppr & Paw & Pac & Ppe & Plog & Perr).
  assert (T : heartbeatInterval
                (startHeartbeat (with_reconnectAttempts 0%nat (setState connected w)))
              = Some hb
              ∧ length (timers (startHeartbeat
                          (with_reconnectAttempts 0%nat (setState connected w))))
                = S hb
              ∧ timers (startHeartbeat (with_reconnectAttempts 0%nat (setState connected w)))
                  !! hb
                = Some (mkTimer (clock w + every) (Some every) HeartbeatTimer true)
              ∧ (∀ t tm, heartbeatInterval w = Some t → timers w !! t = Some tm →
                   timers (startHeartbeat
                             (with_reconnectAttempts 0%nat (setState connected w))) !! t
                   = Some (disarm tm))).
  { unfold startHeartbeat, stopHeartbeat, setInterval, addTimer, clearTimer.
    unfold hb, every.
    assert (S1 : heartbeatInterval (with_reconnectAttempts 0%nat (setState connected w))
                 = heartbeatInterval w
                 ∧ timers (with_reconnectAttempts 0%nat (setState connected w)) = timers w
                 ∧ clock (with_reconnectAttempts 0%nat (setState connected w)) = clock w
                 ∧ config (with_reconnectAttempts 0%nat (setState connected w)) = config w).
    { unfold setState. by case_decide. }
    destruct S1 as (S1 & S2 & S3 & S4).
    set (V := with_reconnectAttempts 0%nat (setState connected w)) in *. clearbody V.
    rewrite S1. destruct (heartbeatInterval w) as [t0|] eqn:Eh; cbn;
      rewrite ?S2, ?S3, ?S4, ?length_app, ?length_alter; cbn.
    - split_and!; [done | lia | |].
      + rewrite lookup_app_r by (by rewrite length_alter).
        by rewrite length_alter, Nat.sub_diag.
      + intros t tm [= <-] Ht.
        rewrite lookup_app_l by (rewrite length_alter; by apply lookup_lt_Some in Ht).
        by rewrite list_lookup_alter_eq, Ht.
    - split_and!; [done | lia | apply lookup_snoc | done]. }
  destruct T as (T1 & T2 & T3 & T4).
  set (W := startHeartbeat (with_reconnectAttempts 0%nat (setState connected w))) in *.
  clearbody W.
  rewrite (resubscribe_spec W sock) by congruence.
  rewrite Pac.
  set (next := resubscribe_start (activeSubscriptions w)).
  set (W1 := parked W sock next).
  destruct (parked_run_after w W sock s next ltac:(congruence) Pst Psk Hs
              ltac:(congruence) ltac:(congruence) W1 eq_refl)
    as (H1 & H2 & H3 & H4 & H5 & H6).
  assert (Q : heartbeatInterval W1 = Some hb
              ∧ timers W1 !! hb = timers W !! hb
              ∧ (∀ t, (t < S hb)%nat → timers W1 !! t = timers W !! t)
              ∧ promises W1 !! sock_connect s = Some Pending).
  { unfold W1. split_and!.
    - destruct (parked_timers W sock next hb) as (_ & A & _); [lia|]. congruence.
    - by destruct (parked_timers W sock next hb) as (A & _); [lia|].
    - intros t Ht. by destruct (parked_timers W sock next t) as (A & _); [lia|].
    - destruct (parked_timers W sock next hb) as (_ & _ & A); [lia|].
      rewrite A by congruence. congruence. }
  destruct Q as (Q1 & Q2 & Q3 & Q4).
  clearbody W1. clearbody next.
  set (W2 := settle (sock_connect s) (Fulfilled None) W1).
  assert (HW2 : awaiting W2 = awaiting W1 ∧ timers W2 = timers W1
                ∧ heartbeatInterval W2 = heartbeatInterval W1
                ∧ promises W2 !! sock_connect s = Some (Fulfilled None)).
  { split_and!; try done. unfold W2. by apply settle_pending. }
  destruct HW2 as (B1 & B2 & B3 & B4).
  assert (Fin : ∀ X, timers X = timers W2 → heartbeatInterval X = heartbeatInterval W2 →
                     promises X = promises W2 →
    promises X !! sock_connect s = Some (Fulfilled None)
    ∧ heartbeatInterval X = Some hb
    ∧ timers X !! hb = Some (mkTimer (clock w + every) (Some every) HeartbeatTimer true)
    ∧ (∀ t tm, heartbeatInterval w = Some t → timers w !! t = Some tm →
               timers X !! t = Some (disarm tm))).
  { intros X X1 X2 X3. rewrite X1, X2, X3, B2, B3. split_and!; try done; try congruence.
    intros t tm Ht Htm. rewrite Q3; [by eapply T4|].
    apply lookup_lt_Some in Htm. unfold hb. lia. }
  destruct next as [[c' k']|].
  - destruct H1 as (A1 & A2 & A3 & A4 & A5).
    assert (Hp2 : promises W2 !! length (promises w) = Some Pending).
    { unfold W2. rewrite settle_other by lia. rewrite A2, <- Ppr. apply lookup_snoc. }
    clearbody W2.
    rewrite (checkpoint_waiting W2 (mkAwaiting (length (promises w)) k'))
      by (try done; congruence).
    by apply Fin.
  - destruct H1 as (A1 & A2 & A3). clearbody W2.
    rewrite checkpoint_idle by congruence.
    by apply Fin.
Qed.

Lemma X7_open_resolves_connect_and_starts_heartbeat_witness :
  let w' := step (SocketOpen 1) about_to_reconnect in
  promises w' !! 3%nat = Some (Fulfilled None)
  ∧ heartbeatInterval w' = Some (length (timers about_to_reconnect)).
Proof.
  intros w'.
  destruct (X7_open_resolves_connect_and_starts_heartbeat about_to_reconnect 1
              reconnect_socket) as (G1 & G2 & _);
    [vm_compute; reflexivity | vm_compute; reflexivity | vm_compute; reflexivity
    | vm_compute; reflexivity |].
  split; [exact G1 | exact G2].
Defined.

Lemma config_send c w : config (fst (sendSubscription c w)) = config w.
Proof. unfold_send. by repeat case_match. Qed.

Lemma config_subscribe o w : config (fst (subscribe o w)) = config w.
Proof.
  unfold subscribe.
  repeat (case_match; simplify_eq/=);
    repeat match goal with
           | H : subscribeChannels ?l ?w = (?w', ?p) |- _ =>
               assert (config w' = config w) by
                 (change w' with (fst (w', p)); rewrite <- H;
                  unfold subscribeChannels, subscribeEventTypes, unsubscribeChannels,
                    unsubscribeEventTypes; by rewrite config_send);
               clear H
           | H : subscribeEventTypes ?l ?w = (?w', ?p) |- _ =>
               assert (config w' = config w) by
                 (change w' with (fst (w', p)); rewrite <- H;
                  unfold subscribeChannels, subscribeEventTypes, unsubscribeChannels,
                    unsubscribeEventTypes; by rewrite config_send);
               clear H
           end; cbn; congruence.
Qed.

Lemma config_unsubscribe o w : config (fst (unsubscribe o w)) = config w.
Proof.
  unfold unsubscribe.
  repeat (case_match; simplify_eq/=);
    repeat match goal with
           | H : unsubscribeChannels ?l ?w = (?w', ?p) |- _ =>
               assert (config w' = config w) by
                 (change w' with (fst (w', p)); rewrite <- H;
                  unfold subscribeChannels, subscribeEventTypes, unsubscribeChannels,
                    unsubscribeEventTypes; by rewrite config_send);
               clear H
           | H : unsubscribeEventTypes ?l ?w = (?w', ?p) |- _ =>
               assert (config w' = config w) by
                 (change w' with (fst (w', p)); rewrite <- H;
                  unfold subscribeChannels, subscribeEventTypes, unsubscribeChannels,
                    unsubscribeEventTypes; by rewrite config_send);
               clear H
           end; cbn; congruence.
Qed.

Lemma config_handle i w :
  config (handle i w)
  = if is_disconnect i
    then mkConfig (url (config w)) false (reconnectInterval (config w))
           (maxReconnectAttempts (config w)) (cfg_heartbeatInterval (config w))
    else config w.
Proof.
  destruct (issued i) as [c|] eqn:Hi.
  { destruct i; simplify_eq/=.
    all: unfold subscribeAll, unsubscribeAll, subscribeChannels, unsubscribeChannels,
           subscribeEventTypes, unsubscribeEventTypes.
    all: by rewrite config_send. }
  destruct i; try done; cbn [handle is_disconnect].
  - unfold connect, setState, newPromise. by repeat case_decide.
  - unfold disconnect, setState, clearReconnectTimeout, stopHeartbeat, clearTimer,
      on_socket.
    repeat case_match; cbn in *; try done; congruence.
  - by rewrite config_subscribe.
  - by rewrite config_unsubscribe.
  - unfold tokenSettled, connect_catch, finish_task, settle, setState.
    repeat case_match; cbn in *; try done.
  - unfold webSocketSettled, connect_catch, finish_task, settle, setState.
    repeat case_match; cbn in *; try done.
  - unfold onopen. destruct (sockets w !! sock); [|done].
    unfold settle. cbn.
    rewrite (resubscribe_stable (λ x, config x = config w)).
    + done.
    + apply untouched_config.
    + unfold startHeartbeat, stopHeartbeat, setInterval, addTimer, clearTimer, setState.
      repeat case_match; simplify_eq; cbn; done.
  - unfold onclose. destruct (sockets w !! sock); [|done].
    unfold scheduleReconnect, setTimeout, addTimer, stopHeartbeat, clearTimer, settle,
      setState.
    repeat case_match; simplify_eq; cbn in *; try done.
  - unfold onerror, emitError, settle. repeat case_match; cbn in *; try done.
  - unfold onmessage, handleMessage, pending_resolve, pending_reject,
      settle, clearTimer, emitError, emitEvent.
    repeat case_match; cbn in *; try done.
  - unfold fireTimer, connect, heartbeat, settle, setState, newPromise, on_socket.
    repeat case_match; simplify_eq; cbn in *; try done.
Qed.

Lemma config_step i w : config (step i w) = config (handle i w).
Proof. unfold step. apply untouched_checkpoint, untouched_config. Qed.

Lemma config_exec inputs w :
  settings_kept (config w) (config (exec inputs w))
  ∧ autoReconnect (config (exec inputs w))
    = autoReconnect (config w) && forallb (λ i, negb (is_disconnect i)) inputs.
Proof.
  revert w. induction inputs as [|i l IH]; intros w.
  - cbn. by rewrite andb_true_r.
  - change (exec (i :: l) w) with (exec l (step i w)).
    destruct (IH (step i w)) as [(A1 & A2 & A3 & A4) B].
    unfold settings_kept.
    rewrite B, A1, A2, A3, A4, config_step, config_handle. cbn [forallb].
    destruct (is_disconnect i); cbn; split_and!; try done.
    by destruct (autoReconnect (config w)).
Qed.

(** X22. The settings are fixed by the constructor: a missing option takes
    its default (a given one is kept, 0 included) and no call or event
    changes the URL, the reconnect interval, the attempt budget or the
    heartbeat interval. [autoReconnect] is on exactly when it was not
    configured off and [disconnect()] has never been called. With a budget
    of 0, [shouldReconnect()] always answers yes. *)
Theorem X22_settings_are_fixed_at_construction
  (h : Host) (options : option RealtimeConfig) (inputs : list Input) :
  let w := exec inputs (constructor h options) in
  url (config w) = default "wss://wss.veroai.dev/ws" (options ≫= opt_url)
  ∧ reconnectInterval (config w) = default 1000 (options ≫= opt_reconnectInterval)
  ∧ maxReconnectAttempts (config w) = default 10 (options ≫= opt_maxReconnectAttempts)
  ∧ cfg_heartbeatInterval (config w) = default 30000 (options ≫= opt_heartbeatInterval)
  ∧ (autoReconnect (config w) = true
     ↔ default true (options ≫= opt_autoReconnect) = true ∧ CallDisconnect ∉ inputs)
  ∧ (default 10 (options ≫= opt_maxReconnectAttempts) = 0 → shouldReconnect w = true).
Proof.
  intros w.
  destruct (config_exec inputs (constructor h options)) as [(A1 & A2 & A3 & A4) B].
  fold w in A1, A2, A3, A4, B.
  assert (A3' : maxReconnectAttempts (config w)
                = default 10 (options ≫= opt_maxReconnectAttempts)) by exact A3.
  split_and!; try done.
  - rewrite B.
    change (autoReconnect (config (constructor h options)))
      with (default true (options ≫= opt_autoReconnect)).
    rewrite andb_true_iff, forallb_forall.
    split; intros [H1 H2]; (split; [done|]).
    + intros Hin. apply list_elem_of_In in Hin. by apply H2 in Hin.
    + intros i Hin. destruct i; try done. by apply list_elem_of_In in Hin.
  - intros H0. unfold shouldReconnect. by rewrite A3', H0.
Qed.

Lemma X22_settings_are_fixed_at_construction_witness :
  let options := Some (mkRealtimeConfig None None None (Some 0) None) in
  let w := exec [CallConnect; TokenSettled 0 (inr "t0"); WebSocketSettled 0;
                 SocketOpen 0; SocketClose 0 None] (constructor host_node options) in
  maxReconnectAttempts (config w) = 0
  ∧ autoReconnect (config w) = true
  ∧ shouldReconnect w = true.
Proof.
  intros options w.
  destruct (X22_settings_are_fixed_at_construction host_node options
              [CallConnect; TokenSettled 0 (inr "t0"); WebSocketSettled 0;
               SocketOpen 0; SocketClose 0 None]) as (_ & _ & G3 & _ & G5 & G6).
  split_and!.
  - exact G3.
  - apply G5. split; [reflexivity|]. rewrite !elem_of_cons, elem_of_nil.
    intros [H|[H|[H|[H|[H|H]]]]]; try discriminate H. exact H.
  - apply G6. reflexivity.
Defined.



